(** * warden-mcp-server: a shallow embedding of [src/server.js]

    The development models the command-execution core of the Warden MCP
    server: the process runner ([executeCommand]), the environment list
    parser ([parseEnvironmentList]), the command formatters (one per tool)
    and the dispatcher.

    Conventions of the embedding.
    - A JavaScript string is a list of code units, here [list ascii]: the
      model covers texts whose code units are below 256, so the only line
      terminators are LF and CR and the white space of [\s] and [trim] is
      TAB, LF, VT, FF, CR, SPACE and NBSP.
    - The [arguments] object of a call is a record of optional,
      declared-typed values: [None] is JavaScript's [undefined] (parameter
      absent).  A call may have no [arguments] member at all: a formatter
      takes an [option Args], [None] when [request.params.arguments] is
      [undefined].
    - Side effects are explicit: a tool call is a computation over the file
      system and the log of spawned processes, which returns an envelope,
      throws, or never settles.  The outside world (what a spawned process
      emits and does to the file system) is a parameter, [Host].
    - The file system is a finite map from absolute paths to files and
      directories; permissions and links are not modelled.
    - [JSON.stringify] is not modelled: the text of [listEnvironments] is
      kept as the JSON value it serialises.
    - [spawn] reports a failure through the [error] event of the child, or
      throws it at once (an argument with a NUL byte); which of the two, and
      the error thrown, belong to the outside world.  [path.resolve] and
      [path.join] are those of POSIX. *)

From stdpp Require Import gmap strings list pretty.

From Stdlib Require Import ZArith Ascii Lia.

Coercion String.list_ascii_of_string : string >-> list.

Arguments String.list_ascii_of_string : simpl never.

Abbreviation jstr := (list ascii).

(** ** Characters *)

Definition LF : ascii := "010"%char.

Definition CR : ascii := "013"%char.

Definition ESC : ascii := "027"%char.

Definition DQ : ascii := ascii_of_N 34.

Definition NL : jstr := [LF].

Definition cu (c : ascii) : N := N_of_ascii c.

(** [\s], also the characters removed by [String.prototype.trim]. *)
Definition is_space (c : ascii) : bool :=
  ((9 <=? cu c) && (cu c <=? 13) || (cu c =? 32) || (cu c =? 160))%N.

(** [\w] = [[A-Za-z0-9_]]. *)
Definition is_word (c : ascii) : bool :=
  ((65 <=? cu c) && (cu c <=? 90) || (97 <=? cu c) && (cu c <=? 122)
   || (48 <=? cu c) && (cu c <=? 57) || (cu c =? 95))%N.

Definition is_line_terminator (c : ascii) : bool :=
  ((cu c =? 10) || (cu c =? 13))%N.

(** [.] (without the [s] flag): anything but a line terminator. *)
Definition is_dot (c : ascii) : bool := negb (is_line_terminator c).

(** [[0-9;]] *)
Definition is_digit_or_semi (c : ascii) : bool :=
  ((48 <=? cu c) && (cu c <=? 57) || (cu c =? 59))%N.

Definition is_slash (c : ascii) : bool := (cu c =? 47)%N.

Definition ascii_eqb (a b : ascii) : bool := (cu a =? cu b)%N.

(** ** String primitives *)

Fixpoint jstr_eqb (a b : jstr) : bool :=
  match a, b with
  | [], [] => true
  | x :: a', y :: b' => ascii_eqb x y && jstr_eqb a' b'
  | _, _ => false
  end.

Fixpoint starts_with (p s : jstr) : bool :=
  match p, s with
  | [], _ => true
  | x :: p', y :: s' => ascii_eqb x y && starts_with p' s'
  | _ :: _, [] => false
  end.

(** [s.includes(needle)] *)
Fixpoint includes (needle s : jstr) : bool :=
  starts_with needle s ||
  match s with
  | [] => false
  | _ :: s' => includes needle s'
  end.

Fixpoint drop_while (p : ascii → bool) (s : jstr) : jstr :=
  match s with
  | [] => []
  | c :: s' => if p c then drop_while p s' else s
  end.

(** [s.trim()] *)
Definition trim (s : jstr) : jstr :=
  rev (drop_while is_space (rev (drop_while is_space s))).

(** [s.split(sep)] for a one-character separator: the pieces between the
    separators, empty pieces included; the empty string gives one empty
    piece. *)
Fixpoint split_on (sep : ascii → bool) (s : jstr) : list jstr :=
  match s with
  | [] => [[]]
  | c :: s' =>
      if sep c then [] :: split_on sep s'
      else match split_on sep s' with
           | l :: ls => (c :: l) :: ls
           | [] => [[c]]
           end
  end.

Definition is_LF (c : ascii) : bool := ascii_eqb c LF.

(** [s.split(/p+/)]: the separator is a maximal run of characters of the
    class; [insep] tells that the previous character belonged to a run. *)
Fixpoint split_plus (p : ascii → bool) (insep : bool) (s : jstr) : list jstr :=
  match s with
  | [] => [[]]
  | c :: s' =>
      if p c then
        if insep then split_plus p true s' else [] :: split_plus p true s'
      else match split_plus p false s' with
           | l :: ls => (c :: l) :: ls
           | [] => [[c]]
           end
  end.

(** [arr.join(sep)] *)
Fixpoint join (sep : jstr) (l : list jstr) : jstr :=
  match l with
  | [] => []
  | [x] => x
  | x :: l' => x ++ sep ++ join sep l'
  end.

(** [s.toLowerCase()] on code units below 256: A-Z and the Latin-1 capitals. *)
Definition lower_char (c : ascii) : ascii :=
  let n := cu c in
  if ((65 <=? n) && (n <=? 90) || (192 <=? n) && (n <=? 222) && negb (n =? 215))%N
  then ascii_of_N (n + 32) else c.

Definition toLowerCase (s : jstr) : jstr := map lower_char s.

(** ** A small backtracking matcher for the regular expressions of the source

    Every regular expression of [server.js] is a sequence of literals,
    greedy repetitions of a character class, anchors and at most one
    capturing group. *)

Inductive rx_item : Type :=
  | Lit (l : jstr)
  | Star (p : ascii → bool)
  | Plus (p : ascii → bool)
  | GOpen
  | GClose
  | Bol
  | Eol.

Record regex : Type := Regex { items : list rx_item; multiline : bool }.

Record mresult : Type := MResult {
  m_pre : jstr;            (* the text before the match *)
  m_text : jstr;           (* the matched text *)
  m_group : option jstr;   (* capture group 1 *)
  m_post : jstr            (* the text after the match *)
}.

Definition at_bol (ml : bool) (pre : jstr) : bool :=
  match last pre with
  | None => true
  | Some c => ml && is_line_terminator c
  end.

Definition at_eol (ml : bool) (s : jstr) : bool :=
  match s with
  | [] => true
  | c :: _ => ml && is_line_terminator c
  end.

(** Greedy repetition: the longest run first, then one character less. *)
Fixpoint star {R : Type} (p : ascii → bool) (k : jstr → jstr → option R)
    (pre s : jstr) : option R :=
  match s with
  | c :: s' =>
      if p c then
        match star p k (pre ++ [c]) s' with
        | Some r => Some r
        | None => k pre s
        end
      else k pre s
  | [] => k pre s
  end.

(** [run ml r gopen grp start pre s]: match the items [r] at the position
    between [pre] and [s]; the match began at offset [start]. *)
Fixpoint run (ml : bool) (r : list rx_item) (gopen : option nat)
    (grp : option jstr) (start : nat) (pre s : jstr) : option mresult :=
  match r with
  | [] => Some (MResult (take start pre) (drop start pre) grp s)
  | Lit l :: r' =>
      if starts_with l s
      then run ml r' gopen grp start (pre ++ take (length l) s) (drop (length l) s)
      else None
  | Star p :: r' =>
      star p (fun pre' s' => run ml r' gopen grp start pre' s') pre s
  | Plus p :: r' =>
      match s with
      | c :: s' =>
          if p c
          then star p (fun pre' s' => run ml r' gopen grp start pre' s') (pre ++ [c]) s'
          else None
      | [] => None
      end
  | GOpen :: r' => run ml r' (Some (length pre)) grp start pre s
  | GClose :: r' =>
      run ml r' gopen
        (match gopen with Some n => Some (drop n pre) | None => grp end)
        start pre s
  | Bol :: r' => if at_bol ml pre then run ml r' gopen grp start pre s else None
  | Eol :: r' => if at_eol ml s then run ml r' gopen grp start pre s else None
  end.

Definition match_here (rx : regex) (pre s : jstr) : option mresult :=
  run (multiline rx) (items rx) None None (length pre) pre s.

(** The first match at or after the current position. *)
Fixpoint exec_from (rx : regex) (pre s : jstr) : option mresult :=
  match match_here rx pre s with
  | Some r => Some r
  | None =>
      match s with
      | c :: s' => exec_from rx (pre ++ [c]) s'
      | [] => None
      end
  end.

(** [s.match(rx)] for a regular expression without the [g] flag. *)
Definition exec (rx : regex) (s : jstr) : option mresult := exec_from rx [] s.

(** The replacement patterns of [String.prototype.replace] for a regular
    expression without capture groups: [$$], [$&], [$`] and [$']; every
    other [$] stands for itself. *)
Fixpoint get_substitution (r : mresult) (repl : jstr) : jstr :=
  match repl with
  | [] => []
  | c :: rest =>
      if ascii_eqb c "$" then
        match rest with
        | d :: rest' =>
            if ascii_eqb d "$" then "$"%char :: get_substitution r rest'
            else if ascii_eqb d "&" then m_text r ++ get_substitution r rest'
            else if ascii_eqb d "`" then m_pre r ++ get_substitution r rest'
            else if ascii_eqb d "'" then m_post r ++ get_substitution r rest'
            else c :: get_substitution r rest
        | [] => [c]
        end
      else c :: get_substitution r rest
  end.

(** [s.replace(rx, repl)] without the [g] flag: the first match only. *)
Definition replace_first (rx : regex) (repl s : jstr) : jstr :=
  match exec rx s with
  | None => s
  | Some r => m_pre r ++ get_substitution r repl ++ m_post r
  end.

(** [s.replace(rx, repl)] with the [g] flag: every match, left to right,
    each search starting where the previous match ended (one further after
    an empty match). *)
Fixpoint replace_all_go (fuel : nat) (rx : regex) (repl pre s : jstr) : jstr :=
  match fuel with
  | 0 => s
  | S fuel' =>
      match exec_from rx pre s with
      | None => s
      | Some r =>
          drop (length pre) (m_pre r) ++ get_substitution r repl ++
          match m_text r with
          | [] =>
              match m_post r with
              | [] => []
              | c :: t => c :: replace_all_go fuel' rx repl (m_pre r ++ [c]) t
              end
          | _ :: _ => replace_all_go fuel' rx repl (m_pre r ++ m_text r) (m_post r)
          end
      end
  end.

Definition replace_all (rx : regex) (repl s : jstr) : jstr :=
  replace_all_go (S (length s)) rx repl [] s.

(** The regular expressions of the source. *)

(** [/\x1b\[[0-9;]*m/g] *)
Definition ansi_re : regex :=
  Regex [Lit [ESC; "["%char]; Star is_digit_or_semi; Lit "m"] false.

(** [/^\s*(\w+)\s+a\s+\w+\s+project$/] *)
Definition project_re : regex :=
  Regex [Bol; Star is_space; GOpen; Plus is_word; GClose; Plus is_space; Lit "a";
         Plus is_space; Plus is_word; Plus is_space; Lit "project"; Eol] false.

(** [/^\s*Project Directory:\s*(.+)$/] *)
Definition directory_re : regex :=
  Regex [Bol; Star is_space; Lit "Project Directory:"; Star is_space;
         GOpen; Plus is_dot; GClose; Eol] false.

(** [/\/+$/] *)
Definition trailing_slashes_re : regex := Regex [Plus is_slash; Eol] false.

(** [new RegExp(`^${key}=.*$`, "m")], for a key without metacharacters. *)
Definition env_key_re (key : jstr) : regex :=
  Regex [Bol; Lit (key ++ "="); Star is_dot; Eol] true.

Definition strip_ansi (s : jstr) : jstr := replace_all ansi_re [] s.

Definition show (s : jstr) : string := String.string_of_list_ascii s.

(** ** Paths: [path.resolve] and [path.join] of Node, POSIX flavour *)

Definition is_dot_seg (s : jstr) : bool := jstr_eqb s ".".

Definition is_dotdot_seg (s : jstr) : bool := jstr_eqb s "..".

(** The segments of a path without the empty and [.] segments, each [..]
    cancelling the segment before it; above the root [..] is dropped, and
    kept in front of a relative path.  [stack] is in reverse order. *)
Fixpoint normalize_go (abs : bool) (stack segs : list jstr) : list jstr :=
  match segs with
  | [] => rev stack
  | seg :: rest =>
      if jstr_eqb seg [] || is_dot_seg seg then normalize_go abs stack rest
      else if is_dotdot_seg seg then
        match stack with
        | top :: below =>
            if is_dotdot_seg top then normalize_go abs (seg :: stack) rest
            else normalize_go abs below rest
        | [] =>
            if abs then normalize_go abs [] rest
            else normalize_go abs [seg] rest
        end
      else normalize_go abs (seg :: stack) rest
  end.

Definition normalize_segments (abs : bool) (p : jstr) : jstr :=
  join "/" (normalize_go abs [] (split_on is_slash p)).

(** [path.resolve(p)] with the working directory [cwd] (an absolute path). *)
Definition resolve (cwd p : jstr) : jstr :=
  let full := if starts_with "/" p then p else cwd ++ "/" ++ p in
  "/" ++ normalize_segments true full.

Definition ends_with_slash (p : jstr) : bool :=
  match last p with
  | Some c => is_slash c
  | None => false
  end.

(** [path.normalize(p)] *)
Definition path_normalize (p : jstr) : jstr :=
  match p with
  | [] => "."
  | _ :: _ =>
      let abs := starts_with "/" p in
      let body := normalize_segments abs p in
      match body with
      | [] => if abs then "/" else if ends_with_slash p then "./" else "."
      | _ :: _ =>
          (if abs then "/" else []) ++ body ++ (if ends_with_slash p then "/" else [])
      end
  end.

(** [path.join(a, b)] *)
Definition path_join (a b : jstr) : jstr :=
  match a, b with
  | [], _ => path_normalize b
  | _, [] => path_normalize a
  | _, _ => path_normalize (a ++ "/" ++ b)
  end.

(** ** Data model *)

(** [{stdout, stderr, code}]; [code] is [None] for JavaScript's [null], the
    exit code Node reports for a child that was ended by a signal. *)
Record CommandResult : Type := mkResult {
  stdout : jstr;
  stderr : jstr;
  code : option Z
}.

(** A property attached to an error object: a string, or a buffer (which is
    truthy also when it is empty). *)
Inductive Attached : Type :=
  | AStr (s : jstr)
  | ABuf (s : jstr).

(** An error object: its message and the [stdout] and [stderr] properties
    some errors carry. *)
Record JsError : Type := mkError {
  message : jstr;
  e_stdout : option Attached;
  e_stderr : option Attached
}.

Definition new_Error (msg : jstr) : JsError := mkError msg None None.

(** [{name, path, raw}] *)
Record EnvironmentRecord : Type := mkEnv {
  name : jstr;
  path : jstr;
  raw : jstr
}.

(** The value handed to [JSON.stringify] by [listEnvironments]. *)
#[warnings="-register-all"]

Inductive Json : Type :=
  | JStr (s : jstr)
  | JNum (n : option Z)
  | JBool (b : bool)
  | JArr (l : list Json)
  | JObj (fields : list (string * Json)).

(** A content item [{type: "text", text}]: a text written out by the source,
    or the serialisation of a JSON value. *)
Inductive ContentItem : Type :=
  | Text (t : jstr)
  | JsonText (j : Json).

Record Envelope : Type := mkEnvelope {
  content : list ContentItem;
  isError : bool
}.

(** The [arguments] object of a call: every parameter of every tool, with
    its declared type, [None] when the caller left it out. *)
Record Args : Type := mkArgs {
  project_path : option jstr;
  query : option jstr;
  database : option jstr;
  script_path : option jstr;
  command : option jstr;
  args : option (list jstr);
  config_file : option jstr;
  test_path : option jstr;
  extra_args : option (list jstr);
  project_name : option jstr;
  environment_type : option jstr;
  php_version : option jstr;
  mysql_distribution : option jstr;
  mysql_version : option jstr;
  node_version : option jstr;
  composer_version : option jstr;
  opensearch_version : option jstr;
  redis_version : option jstr;
  enable_redis : option bool;
  enable_opensearch : option bool;
  enable_varnish : option bool;
  enable_rabbitmq : option bool;
  enable_xdebug : option bool
}.

Definition no_args : Args :=
  mkArgs None None None None None None None None None None None None
         None None None None None None None None None None None.

(** ** The outside world *)

(** What a child process does, in the order Node delivers it. *)
Inductive ProcEvent : Type :=
  | StdoutData (d : jstr)
  | StderrData (d : jstr)
  | CloseEv (exit_code : option Z)
  | ErrorEv (msg : jstr).

(** One call of [spawn], made by one call of [executeCommand]: an element
    of the argument vector is [None] when the source put [undefined]
    there. *)
Record Invocation : Type := mkInv {
  inv_command : jstr;
  inv_args : list (option jstr);
  inv_cwd : jstr
}.

Inductive FsNode : Type :=
  | File (contents : jstr)
  | Dir.

Abbreviation FS := (gmap jstr FsNode).

Inductive Effect : Type :=
  | Spawned (i : Invocation)
  | Shell (cmd : jstr).

(** The state a call runs in: the file system, and the calls of [spawn]
    and of [execSync] made so far, oldest first. *)
Record World : Type := mkWorld {
  fs : FS;
  trace : list Effect
}.

(** The environment of the server: its working directory, what each spawned
    process emits and leaves on disk (it may depend on the processes run
    before), what a shell command of [execSync] does, and the error [spawn]
    throws at once, when it does: no process is created then. *)
Record Host : Type := Build_Host {
  cwd : jstr;
  child : list Effect → Invocation → FS → list ProcEvent * FS;
  shell : jstr → FS → JsError + FS;
  spawn_throws : Invocation → FS → option JsError
}.

(** A host on which the call of [spawn] itself never throws. *)
Definition mkHost (cwd : jstr)
    (child : list Effect → Invocation → FS → list ProcEvent * FS)
    (shell : jstr → FS → JsError + FS) : Host :=
  Build_Host cwd child shell (fun _ _ => None).

(** The invocations of the process runner recorded in a world. *)
Definition runner_calls (w : World) : list Invocation :=
  omap (fun e => match e with Spawned i => Some i | Shell _ => None end) (trace w).

Definition shell_calls (w : World) : list jstr :=
  omap (fun e => match e with Shell c => Some c | Spawned _ => None end) (trace w).

(** ** Computations: state, exceptions and promises that never settle *)

Inductive Res (A : Type) : Type :=
  | Ok (a : A)
  | Throw (e : JsError)
  | Hang.

Arguments Ok {A} a.

Arguments Throw {A} e.

Arguments Hang {A}.

Definition M (A : Type) : Type := World → Res A * World.

Definition ret {A} (a : A) : M A := fun w => (Ok a, w).

Definition throw {A} (e : JsError) : M A := fun w => (Throw e, w).

Definition bind {A B} (m : M A) (f : A → M B) : M B :=
  fun w =>
    match m w with
    | (Ok a, w') => f a w'
    | (Throw e, w') => (Throw e, w')
    | (Hang, w') => (Hang, w')
    end.

(** [try { m } catch (error) { handler(error) }] *)
Definition try_catch {A} (m : M A) (handler : JsError → M A) : M A :=
  fun w =>
    match m w with
    | (Throw e, w') => handler e w'
    | r => r
    end.

Notation "'let*' x ':=' m 'in' k" := (bind m (fun x => k))
  (at level 10, x name, m at level 100, k at level 200).

Notation "'let*' ' p ':=' m 'in' k" := (bind m (fun x => match x with p => k end))
  (at level 10, p pattern, m at level 100, k at level 200).

(** [existsSync(p)] *)
Definition existsSync (p : jstr) : M bool :=
  fun w => (Ok (bool_decide (is_Some (fs w !! p))), w).

(** [readFileSync(p, "utf8")] *)
Definition readFileSync (p : jstr) : M jstr :=
  fun w =>
    match fs w !! p with
    | Some (File c) => (Ok c, w)
    | Some Dir => (Throw (new_Error ("EISDIR: illegal operation on a directory, read")), w)
    | None => (Throw (new_Error ("ENOENT: no such file or directory, open '" ++ p ++ "'")), w)
    end.

(** [writeFileSync(p, data)] *)
Definition writeFileSync (p data : jstr) : M unit :=
  fun w =>
    match fs w !! p with
    | Some Dir => (Throw (new_Error ("EISDIR: illegal operation on a directory, open '" ++ p ++ "'")), w)
    | _ => (Ok tt, mkWorld (<[p := File data]> (fs w)) (trace w))
    end.

(** [execSync(cmd)]: the shell command runs to its end, or the call throws. *)
Definition execSync (h : Host) (cmd : jstr) : M unit :=
  fun w =>
    let w' := mkWorld (fs w) (trace w ++ [Shell cmd]) in
    match shell h cmd (fs w) with
    | inr fs' => (Ok tt, mkWorld fs' (trace w'))
    | inl e => (Throw e, w')
    end.

(** ** The process runner *)

Inductive Promise : Type :=
  | Pending
  | Resolved (r : CommandResult)
  | Rejected (e : JsError).

(** The two buffers of [executeCommand] and the state of its promise. *)
Record Runner : Type := mkRunner {
  out_buf : jstr;
  err_buf : jstr;
  promise : Promise
}.

(** [resolve] and [reject] settle a promise once; later calls do nothing. *)
Definition settle (r : Runner) (p : Promise) : Runner :=
  match promise r with
  | Pending => mkRunner (out_buf r) (err_buf r) p
  | _ => r
  end.

(** The four listeners of [executeCommand]. *)
Definition on_event (r : Runner) (ev : ProcEvent) : Runner :=
  match ev with
  | StdoutData d => mkRunner (out_buf r ++ d) (err_buf r) (promise r)
  | StderrData d => mkRunner (out_buf r) (err_buf r ++ d) (promise r)
  | CloseEv c => settle r (Resolved (mkResult (out_buf r) (err_buf r) c))
  | ErrorEv msg =>
      settle r (Rejected (mkError ("Failed to spawn command: " ++ msg)
                                  (Some (AStr (out_buf r)))
                                  (Some (AStr (err_buf r)))))
  end.

Definition runner_init : Runner := mkRunner [] [] Pending.

(** The promise [executeCommand] returns, once the child has emitted [evs]. *)
Definition run_events (evs : list ProcEvent) : Promise :=
  promise (foldl on_event runner_init evs).

(** [await this.executeCommand(command, args, cwd)].  The call of [spawn]
    stands in the executor of the promise, before the listeners and without
    a guard: an error it throws rejects the promise as it is. *)
Definition executeCommand (h : Host) (cmd : jstr) (argv : list (option jstr))
    (dir : jstr) : M CommandResult :=
  fun w =>
    let i := mkInv cmd argv dir in
    match spawn_throws h i (fs w) with
    | Some e => (Throw e, mkWorld (fs w) (trace w ++ [Spawned i]))
    | None =>
        let '(evs, fs') := child h (trace w) i (fs w) in
        let w' := mkWorld fs' (trace w ++ [Spawned i]) in
        match run_events evs with
        | Resolved r => (Ok r, w')
        | Rejected e => (Throw e, w')
        | Pending => (Hang, w')
        end
    end.

(** ** The environment list parser *)

(** The loop variables of [parseEnvironmentList]. *)
Record ParseState : Type := mkParse {
  environments : list EnvironmentRecord;
  currentProject : option jstr
}.

Definition group1 (m : mresult) : jstr := default [] (m_group m).

Definition is_empty (s : jstr) : bool :=
  match s with [] => true | _ :: _ => false end.

(** [!!v] for an optional string: [undefined], [null] and the empty string
    are falsy. *)
Definition truthy (o : option jstr) : bool :=
  match o with
  | Some (_ :: _) => true
  | _ => false
  end.

(** One turn of the loop over the lines. *)
Definition parse_line (st : ParseState) (line : jstr) : ParseState :=
  let trimmed := trim line in
  if is_empty trimmed
     || includes "No running environments found" trimmed
     || includes "Found the following" trimmed
  then st
  else
    let cleanLine := strip_ansi trimmed in
    match exec project_re cleanLine with
    | Some projectMatch => mkParse (environments st) (Some (group1 projectMatch))
    | None =>
        match exec directory_re cleanLine with
        | Some directoryMatch =>
            if truthy (currentProject st)
            then mkParse (environments st ++
                            [mkEnv (default [] (currentProject st))
                                   (group1 directoryMatch) line])
                         None
            else st
        | None => st
        end
    end.

Definition parseEnvironmentList (output : jstr) : list EnvironmentRecord :=
  environments (foldl parse_line (mkParse [] None) (split_on is_LF output)).

(** ** Rendering helpers *)

(** [`${v}`] for an optional string. *)
Definition ustr (o : option jstr) : jstr := default ("undefined" : jstr) o.

(** [`${code}`] for an exit code. *)
Definition code_str (c : option Z) : jstr :=
  match c with
  | Some z => pretty z
  | None => "null"
  end.

(** [s || d] *)
Definition or_else (s d : jstr) : jstr :=
  match s with [] => d | _ :: _ => s end.

(** [error.stdout || d] *)
Definition attached_or (a : option Attached) (d : jstr) : jstr :=
  match a with
  | Some (AStr s) => or_else s d
  | Some (ABuf s) => s
  | None => d
  end.

(** [argv.join(" ")]: [undefined] elements print as the empty string. *)
Definition join_args (argv : list (option jstr)) : jstr :=
  join " " (default [] <$> argv).

Definition lits (l : list string) : list (option jstr) :=
  (fun s : string => Some (s : jstr)) <$> l.

Definition is_zero (c : option Z) : bool :=
  match c with
  | Some 0%Z => true
  | _ => false
  end.

(** ** The command formatters *)

(** [project_path.replace(/\/+$/, empty)] then [resolve]. *)
Definition absolute_path (h : Host) (project_path : jstr) : jstr :=
  let normalizedProjectPath := replace_first trailing_slashes_re [] project_path in
  resolve (cwd h) normalizedProjectPath.

Definition executeWardenCommand (h : Host) (project_path : option jstr)
    (wardenArgs : list (option jstr)) (description : jstr) : M Envelope :=
  if negb (truthy project_path) then throw (new_Error "project_path is required")
  else
    let absoluteProjectPath := absolute_path h (default [] project_path) in
    let* found := existsSync absoluteProjectPath in
    if negb found
    then throw (new_Error ("Project directory does not exist: " ++ absoluteProjectPath))
    else
      try_catch
        (let* result := executeCommand h "warden" wardenArgs absoluteProjectPath in
         let commandStr := "warden " ++ join_args wardenArgs in
         let isSuccess := is_zero (code result) in
         ret (mkEnvelope
                [Text (description ++ " " ++
                       (if isSuccess then "completed successfully" else "failed" : jstr) ++
                       "!" ++ NL ++ NL ++ "Command: " ++ commandStr ++ NL ++
                       "Working directory: " ++ absoluteProjectPath ++ NL ++
                       "Exit Code: " ++ code_str (code result) ++ NL ++ NL ++
                       "Output:" ++ NL ++ or_else (stdout result) "(no output)" ++ NL ++ NL ++
                       "Errors:" ++ NL ++ or_else (stderr result) "(no errors)")]
                (negb isSuccess)))
        (fun error =>
           let commandStr := "warden " ++ join_args wardenArgs in
           ret (mkEnvelope
                  [Text ("Failed to execute command:" ++ NL ++ NL ++
                         "Command: " ++ commandStr ++ NL ++
                         "Working directory: " ++ absoluteProjectPath ++ NL ++
                         "Error: " ++ message error ++ NL ++ NL ++
                         "Output:" ++ NL ++ attached_or (e_stdout error) "(no output)" ++ NL ++ NL ++
                         "Errors:" ++ NL ++ attached_or (e_stderr error) "(no errors)")]
                  true)).

(** [const { project_path, ... } = args]: the pattern of every formatter
    begins with [project_path]; destructuring [undefined] throws.  (The
    parameter [args] of the source is [arguments] here, [args] being also a
    field of the object.) *)
Definition destructure (arguments : option Args) : M Args :=
  match arguments with
  | Some a => ret a
  | None =>
      throw (new_Error
               "Cannot destructure property 'project_path' of 'args' as it is undefined.")
  end.

(** [args.prop]: reading a property of [undefined] throws. *)
Definition property_of (arguments : option Args) (prop : jstr) : M Args :=
  match arguments with
  | Some a => ret a
  | None => throw (new_Error ("Cannot read properties of undefined (reading '" ++ prop ++ "')"))
  end.

Definition startProject (h : Host) (arguments : option Args) : M Envelope :=
  let* a := destructure arguments in
  executeWardenCommand h (project_path a) (lits ["env"; "up"])
    "Starting Warden project environment".

Definition stopProject (h : Host) (arguments : option Args) : M Envelope :=
  let* a := destructure arguments in
  executeWardenCommand h (project_path a) (lits ["env"; "down"])
    "Stopping Warden project environment".

Definition startSvc (h : Host) (arguments : option Args) : M Envelope :=
  let* a := destructure arguments in
  executeWardenCommand h (project_path a) (lits ["svc"; "up"])
    "Starting Warden system services".

Definition stopSvc (h : Host) (arguments : option Args) : M Envelope :=
  let* a := destructure arguments in
  executeWardenCommand h (project_path a) (lits ["svc"; "down"])
    "Stopping Warden system services".

(** The argument vector of [runDbQuery]. *)
Definition db_query_command (a : Args) : list (option jstr) :=
  let database := default ("magento" : jstr) (database a) in
  lits ["env"; "exec"; "-T"; "db"; "mysql"; "-u"; "root"; "-pmagento"]
  ++ [Some database; Some ("-e" : jstr); query a].

Definition runDbQuery (h : Host) (arguments : option Args) : M Envelope :=
  let* a := destructure arguments in
  let database := default ("magento" : jstr) (database a) in
  executeWardenCommand h (project_path a) (db_query_command a)
    ("Running database query in " ++ database).

Definition runPhpScript (h : Host) (arguments : option Args) : M Envelope :=
  let* a := destructure arguments in
  let scriptArgs := default [] (args a) in
  let wardenCommand :=
    lits ["env"; "exec"; "-T"; "php-fpm"; "php"] ++ [script_path a] ++ (Some <$> scriptArgs) in
  executeWardenCommand h (project_path a) wardenCommand
    ("Running PHP script: " ++ ustr (script_path a)).

Definition runMagentoCli (h : Host) (arguments : option Args) : M Envelope :=
  let* a := destructure arguments in
  let commandArgs := default [] (args a) in
  let wardenCommand :=
    lits ["env"; "exec"; "-T"; "php-fpm"; "php"; "bin/magento"] ++ [command a]
    ++ (Some <$> commandArgs) in
  executeWardenCommand h (project_path a) wardenCommand
    ("Running Magento CLI: bin/magento " ++ ustr (command a)).

(** A method call on a value that may be [undefined]. *)
Definition receiver (o : option jstr) (method : jstr) : M jstr :=
  match o with
  | Some s => ret s
  | None => throw (new_Error ("Cannot read properties of undefined (reading '" ++ method ++ "')"))
  end.

Definition runUnitTests (h : Host) (arguments : option Args) : M Envelope :=
  let* a := destructure arguments in
  let config_file := default [] (config_file a) in
  let test_path := default [] (test_path a) in
  let extra_args := default [] (extra_args a) in
  let* actualConfigFile :=
    (if is_empty config_file then
       let* p := receiver (project_path a) "replace" in
       let absoluteProjectPath := absolute_path h p in
       let phpunitDistPath := path_join absoluteProjectPath "phpunit.xml.dist" in
       let phpunitPath := path_join absoluteProjectPath "phpunit.xml" in
       let* dist := existsSync phpunitDistPath in
       if dist then ret ("phpunit.xml.dist" : jstr)
       else
         let* plain := existsSync phpunitPath in
         if plain then ret ("phpunit.xml" : jstr)
         else throw (new_Error
           "No PHPUnit configuration file found (phpunit.xml.dist or phpunit.xml)")
     else ret config_file) in
  let wardenCommand :=
    lits ["env"; "exec"; "-T"; "php-fpm"; "php"; "vendor/phpunit/phpunit/phpunit"; "-c"]
    ++ [Some actualConfigFile]
    ++ (if negb (is_empty test_path) && negb (is_empty (trim test_path))
        then [Some test_path] else [])
    ++ (Some <$> extra_args) in
  let commandStr := "warden " ++ join_args wardenCommand in
  let* p := receiver (project_path a) "replace" in
  let absoluteProjectPath := absolute_path h p in
  let debugInfo : jstr :=
    NL ++ "Debug Information:" ++ NL ++
    "- Project Path: " ++ absoluteProjectPath ++ NL ++
    "- Config File Used: " ++ actualConfigFile ++ NL ++
    "- Test Path: " ++ or_else test_path "(all tests)" ++ NL ++
    "- Extra Args: " ++
      (match extra_args with [] => "(none)" : jstr | _ :: _ => join " " extra_args end) ++ NL ++
    "- Full Command: " ++ commandStr ++ NL in
  try_catch
    (let* result := executeCommand h "warden" wardenCommand absoluteProjectPath in
     let isSuccess := is_zero (code result) in
     ret (mkEnvelope
            [Text ("Running PHPUnit tests with config: " ++ actualConfigFile ++ " " ++
                   (if isSuccess then "completed successfully" else "failed" : jstr) ++
                   "!" ++ NL ++ debugInfo ++ NL ++
                   "Exit Code: " ++ code_str (code result) ++ NL ++ NL ++
                   "Output:" ++ NL ++ or_else (stdout result) "(no output)" ++ NL ++ NL ++
                   "Errors:" ++ NL ++ or_else (stderr result) "(no errors)")]
            (negb isSuccess)))
    (fun error =>
       ret (mkEnvelope
              [Text ("Failed to execute PHPUnit tests:" ++ NL ++ debugInfo ++ NL ++
                     "Error: " ++ message error ++ NL ++ NL ++
                     "Output:" ++ NL ++ attached_or (e_stdout error) "(no output)" ++ NL ++ NL ++
                     "Errors:" ++ NL ++ attached_or (e_stderr error) "(no errors)")]
              true)).

Definition php_fpm (rest : list string) : list (option jstr) :=
  lits (["env"; "exec"; "-T"; "php-fpm"] ++ rest).

(** [command.trim().split(/\s+/)] *)
Definition command_parts (command : jstr) : list jstr :=
  split_plus is_space false (trim command).

(** The argument vector of the requested composer command. *)
Definition composer_command (composerCommand command : jstr) : list (option jstr) :=
  php_fpm [] ++ [Some composerCommand] ++ (Some <$> command_parts command).

(** The last step of [runComposer]: the requested command itself. *)
Definition composer_exec (h : Host) (composerCommand command absoluteProjectPath : jstr)
    : M Envelope :=
  let wardenCommand := composer_command composerCommand command in
  let* result := executeCommand h "warden" wardenCommand absoluteProjectPath in
  let commandStr := composerCommand ++ " " ++ command in
  let isSuccess := is_zero (code result) in
  ret (mkEnvelope
         [Text ("Composer command " ++
                (if isSuccess then "completed successfully" else "failed" : jstr) ++
                "!" ++ NL ++ NL ++ "Command: " ++ commandStr ++ NL ++
                "Working directory: " ++ absoluteProjectPath ++ NL ++
                "Exit Code: " ++ code_str (code result) ++ NL ++ NL ++
                "Output:" ++ NL ++ or_else (stdout result) "(no output)" ++ NL ++ NL ++
                "Errors:" ++ NL ++ or_else (stderr result) "(no errors)")]
         (negb isSuccess)).

Definition composer_not_found : Envelope :=
  mkEnvelope
    [Text ("Composer not found!" ++ NL ++ NL ++
           "Neither 'composer2' nor 'composer' commands are available in the php-fpm container."
           ++ NL ++ NL ++ "Please install Composer version 2 in your container.")]
    true.

Definition composer_version_check_failed (versionCheckResult : CommandResult) : Envelope :=
  mkEnvelope
    [Text ("Failed to check Composer version!" ++ NL ++ NL ++
           "Command: composer --version" ++ NL ++
           "Error: " ++ stderr versionCheckResult)]
    true.

Definition composer_version_unsupported (versionCheckResult : CommandResult) : Envelope :=
  mkEnvelope
    [Text ("Composer version 2 is required!" ++ NL ++ NL ++
           "Found: " ++ trim (stdout versionCheckResult) ++ NL ++ NL ++
           "Please install or upgrade to Composer version 2.")]
    true.

Definition runComposer (h : Host) (arguments : option Args) : M Envelope :=
  let* a := destructure arguments in
  if negb (truthy (project_path a)) then throw (new_Error "project_path is required")
  else if negb (truthy (command a)) then throw (new_Error "command is required")
  else
    let command := default [] (command a) in
    let absoluteProjectPath := absolute_path h (default [] (project_path a)) in
    let* found := existsSync absoluteProjectPath in
    if negb found
    then throw (new_Error ("Project directory does not exist: " ++ absoluteProjectPath))
    else
      try_catch
        (let* composer2CheckResult :=
           executeCommand h "warden" (php_fpm ["which"; "composer2"]) absoluteProjectPath in
         if negb (is_zero (code composer2CheckResult)) then
           let* composerCheckResult :=
             executeCommand h "warden" (php_fpm ["which"; "composer"]) absoluteProjectPath in
           if negb (is_zero (code composerCheckResult)) then ret composer_not_found
           else
             let* versionCheckResult :=
               executeCommand h "warden" (php_fpm ["composer"; "--version"])
                 absoluteProjectPath in
             if negb (is_zero (code versionCheckResult))
             then ret (composer_version_check_failed versionCheckResult)
             else
               let versionOutput := toLowerCase (stdout versionCheckResult) in
               if negb (includes "composer version 2" versionOutput)
               then ret (composer_version_unsupported versionCheckResult)
               else composer_exec h "composer" command absoluteProjectPath
         else composer_exec h "composer2" command absoluteProjectPath)
        (fun error =>
           let commandStr := "composer " ++ command in
           ret (mkEnvelope
                  [Text ("Failed to execute Composer command:" ++ NL ++ NL ++
                         "Command: " ++ commandStr ++ NL ++
                         "Working directory: " ++ absoluteProjectPath ++ NL ++
                         "Error: " ++ message error ++ NL ++ NL ++
                         "Output:" ++ NL ++ attached_or (e_stdout error) "(no output)"
                         ++ NL ++ NL ++
                         "Errors:" ++ NL ++ attached_or (e_stderr error) "(no errors)")]
                  true)).

(** ** The project initializer *)

(** The keys of the [.env] file the initializer rewrites, in the order of
    [Object.entries(updates)]. *)
Record InitOptions : Type := mkInit {
  o_environment_type : jstr;
  o_php_version : jstr;
  o_mysql_distribution : jstr;
  o_mysql_version : jstr;
  o_node_version : jstr;
  o_composer_version : jstr;
  o_opensearch_version : jstr;
  o_redis_version : jstr;
  o_enable_redis : bool;
  o_enable_opensearch : bool;
  o_enable_varnish : bool;
  o_enable_rabbitmq : bool;
  o_enable_xdebug : bool
}.

(** The destructuring of [args] with its defaults. *)
Definition init_options (a : Args) : InitOptions :=
  mkInit (default ("magento2" : jstr) (environment_type a))
         (default ("8.3" : jstr) (php_version a))
         (default ("mariadb" : jstr) (mysql_distribution a))
         (default ("10.6" : jstr) (mysql_version a))
         (default ("20" : jstr) (node_version a))
         (default ("2" : jstr) (composer_version a))
         (default ("2.12" : jstr) (opensearch_version a))
         (default ("7.2" : jstr) (redis_version a))
         (default true (enable_redis a))
         (default true (enable_opensearch a))
         (default true (enable_varnish a))
         (default true (enable_rabbitmq a))
         (default true (enable_xdebug a)).

Definition flag (b : bool) : jstr := if b then "1" else "0".

Definition enabled (b : bool) : jstr := if b then "enabled" else "disabled".

Definition updates (o : InitOptions) : list (jstr * jstr) :=
  [ ("PHP_VERSION" : jstr, o_php_version o);
    ("MYSQL_DISTRIBUTION" : jstr, o_mysql_distribution o);
    ("MYSQL_DISTRIBUTION_VERSION" : jstr, o_mysql_version o);
    ("NODE_VERSION" : jstr, o_node_version o);
    ("COMPOSER_VERSION" : jstr, o_composer_version o);
    ("OPENSEARCH_VERSION" : jstr, o_opensearch_version o);
    ("REDIS_VERSION" : jstr, o_redis_version o);
    ("WARDEN_REDIS" : jstr, flag (o_enable_redis o));
    ("WARDEN_OPENSEARCH" : jstr, flag (o_enable_opensearch o));
    ("WARDEN_VARNISH" : jstr, flag (o_enable_varnish o));
    ("WARDEN_RABBITMQ" : jstr, flag (o_enable_rabbitmq o));
    ("PHP_XDEBUG_3" : jstr, flag (o_enable_xdebug o)) ].

(** The body of the loop over the updates: replace the first line of the
    key, or append a line. *)
Definition update_entry (envContent : jstr) (kv : jstr * jstr) : jstr :=
  let regex := env_key_re kv.1 in
  match exec regex envContent with
  | Some _ => replace_first regex (kv.1 ++ "=" ++ kv.2) envContent
  | None => envContent ++ NL ++ kv.1 ++ "=" ++ kv.2
  end.

Definition update_env (envContent : jstr) (upd : list (jstr * jstr)) : jstr :=
  foldl update_entry envContent upd.

(** [resolve(project_path)]: [path.resolve] throws on [undefined]. *)
Definition resolve_arg (h : Host) (p : option jstr) : M jstr :=
  match p with
  | Some s => ret (resolve (cwd h) s)
  | None => throw (new_Error
      ("The " ++ [DQ] ++ "paths[0]" ++ [DQ] ++
       " argument must be of type string. Received undefined"))
  end.

Definition initProject (h : Host) (arguments : option Args) : M Envelope :=
  try_catch
    (let* a := destructure arguments in
     let o := init_options a in
     let project_name := project_name a in
     let* absoluteProjectPath := resolve_arg h (project_path a) in
     let* _ := execSync h ("mkdir -p " ++ [DQ] ++ absoluteProjectPath ++ [DQ]) in
     let* result :=
       executeCommand h "warden"
         [Some ("env" : jstr); Some ("init" : jstr); project_name; Some (o_environment_type o)]
         absoluteProjectPath in
     if negb (is_zero (code result))
     then throw (new_Error ("Warden init failed: " ++ stderr result))
     else
       let envFilePath := path_join absoluteProjectPath ".env" in
       let* found := existsSync envFilePath in
       let* _ :=
         (if found then
            let* envContent := readFileSync envFilePath in
            writeFileSync envFilePath (update_env envContent (updates o))
          else ret tt) in
       ret (mkEnvelope
              [Text ("Warden project initialized successfully!" ++ NL ++ NL ++
                     "Project Path: " ++ absoluteProjectPath ++ NL ++
                     "Project Name: " ++ ustr project_name ++ NL ++
                     "Environment Type: " ++ o_environment_type o ++ NL ++ NL ++
                     "Configuration:" ++ NL ++
                     "- PHP Version: " ++ o_php_version o ++ NL ++
                     "- MySQL: " ++ o_mysql_distribution o ++ " " ++ o_mysql_version o ++ NL ++
                     "- Node.js: " ++ o_node_version o ++ NL ++
                     "- Composer: " ++ o_composer_version o ++ NL ++
                     "- OpenSearch: " ++ o_opensearch_version o ++
                       " (" ++ enabled (o_enable_opensearch o) ++ ")" ++ NL ++
                     "- Redis: " ++ o_redis_version o ++
                       " (" ++ enabled (o_enable_redis o) ++ ")" ++ NL ++
                     "- Varnish: " ++ enabled (o_enable_varnish o) ++ NL ++
                     "- RabbitMQ: " ++ enabled (o_enable_rabbitmq o) ++ NL ++
                     "- Xdebug: " ++ enabled (o_enable_xdebug o) ++ NL ++ NL ++
                     "Next steps:" ++ NL ++
                     "1. Navigate to: " ++ absoluteProjectPath ++ NL ++
                     "2. Run: warden env up" ++ NL ++
                     "3. Your environment will be available at: https://" ++
                       ustr project_name ++ ".test" ++ NL ++ NL ++
                     "Output:" ++ NL ++ stdout result)]
              false))
    (fun error =>
       let* a := property_of arguments "project_path" in
       ret (mkEnvelope
              [Text ("Failed to initialize Warden project:" ++ NL ++ NL ++
                     "Project Path: " ++ ustr (project_path a) ++ NL ++
                     "Project Name: " ++ ustr (project_name a) ++ NL ++
                     "Error: " ++ message error ++ NL ++ NL ++
                     "Output:" ++ NL ++ attached_or (e_stdout error) "(no output)" ++ NL ++ NL ++
                     "Errors:" ++ NL ++ attached_or (e_stderr error) "(no errors)")]
              true)).

(** ** The environment list tool *)

Definition env_json (e : EnvironmentRecord) : Json :=
  JObj [("name", JStr (name e)); ("path", JStr (path e))].

Definition listEnvironments (h : Host) : M Envelope :=
  try_catch
    (let* result := executeCommand h "warden" (lits ["status"]) (cwd h) in
     if is_zero (code result) then
       let environments := parseEnvironmentList (stdout result) in
       ret (mkEnvelope
              [JsonText (JObj [("success", JBool true);
                               ("command", JStr "warden status");
                               ("exit_code", JNum (code result));
                               ("environments", JArr (env_json <$> environments));
                               ("raw_output", JStr (stdout result))])]
              false)
     else
       ret (mkEnvelope
              [JsonText (JObj [("success", JBool false);
                               ("command", JStr "warden status");
                               ("exit_code", JNum (code result));
                               ("environments", JArr []);
                               ("error", JStr (or_else (stderr result) "Unknown error"));
                               ("raw_output", JStr (stdout result))])]
              true))
    (fun error =>
       ret (mkEnvelope
              [JsonText (JObj [("success", JBool false);
                               ("command", JStr "warden status");
                               ("exit_code", JNum (Some (-1)%Z));
                               ("environments", JArr []);
                               ("error", JStr (message error));
                               ("raw_output", JStr (attached_or (e_stdout error) []));
                               ("raw_errors", JStr (attached_or (e_stderr error) []))])]
              true)).

(** ** The dispatcher *)

Inductive Tool : Type :=
  | warden_list_environments
  | warden_start_project
  | warden_stop_project
  | warden_start_svc
  | warden_stop_svc
  | warden_db_query
  | warden_php_script
  | warden_magento_cli
  | warden_run_unit_tests
  | warden_composer
  | warden_init_project.

Definition tool_name (t : Tool) : jstr :=
  match t with
  | warden_list_environments => "warden_list_environments"
  | warden_start_project => "warden_start_project"
  | warden_stop_project => "warden_stop_project"
  | warden_start_svc => "warden_start_svc"
  | warden_stop_svc => "warden_stop_svc"
  | warden_db_query => "warden_db_query"
  | warden_php_script => "warden_php_script"
  | warden_magento_cli => "warden_magento_cli"
  | warden_run_unit_tests => "warden_run_unit_tests"
  | warden_composer => "warden_composer"
  | warden_init_project => "warden_init_project"
  end.

Definition all_tools : list Tool :=
  [warden_list_environments; warden_start_project; warden_stop_project;
   warden_start_svc; warden_stop_svc; warden_db_query; warden_php_script;
   warden_magento_cli; warden_run_unit_tests; warden_composer; warden_init_project].

(** The formatter of a tool: the cases of the [switch]. *)
Definition run_tool (h : Host) (t : Tool) (arguments : option Args) : M Envelope :=
  match t with
  | warden_list_environments => listEnvironments h
  | warden_start_project => startProject h arguments
  | warden_stop_project => stopProject h arguments
  | warden_start_svc => startSvc h arguments
  | warden_stop_svc => stopSvc h arguments
  | warden_db_query => runDbQuery h arguments
  | warden_php_script => runPhpScript h arguments
  | warden_magento_cli => runMagentoCli h arguments
  | warden_run_unit_tests => runUnitTests h arguments
  | warden_composer => runComposer h arguments
  | warden_init_project => initProject h arguments
  end.

(** The handler of [CallToolRequestSchema]: [switch (request.params.name)],
    each case handing [request.params.arguments] to its formatter. *)
Definition call_tool (h : Host) (name : jstr) (arguments : option Args) : M Envelope :=
  match list_find (fun t => jstr_eqb (tool_name t) name = true) all_tools with
  | Some (_, t) => run_tool h t arguments
  | None => throw (new_Error ("Unknown tool: " ++ name))
  end.

(** The parameters the tool catalogue declares [required]. *)
Definition required_present (t : Tool) (a : Args) : bool :=
  match t with
  | warden_list_environments => true
  | warden_start_project | warden_stop_project | warden_start_svc | warden_stop_svc
  | warden_run_unit_tests => bool_decide (is_Some (project_path a))
  | warden_db_query =>
      bool_decide (is_Some (project_path a)) && bool_decide (is_Some (query a))
  | warden_php_script =>
      bool_decide (is_Some (project_path a)) && bool_decide (is_Some (script_path a))
  | warden_magento_cli | warden_composer =>
      bool_decide (is_Some (project_path a)) && bool_decide (is_Some (command a))
  | warden_init_project =>
      bool_decide (is_Some (project_path a)) && bool_decide (is_Some (project_name a))
  end.

(** The tools whose formatter goes through [executeWardenCommand]. *)
Definition via_warden_command (t : Tool) : bool :=
  match t with
  | warden_start_project | warden_stop_project | warden_start_svc | warden_stop_svc
  | warden_db_query | warden_php_script | warden_magento_cli => true
  | _ => false
  end.

(** * The vocabulary of the properties *)

(** ** The process runner *)

Definition is_data (ev : ProcEvent) : bool :=
  match ev with
  | StdoutData _ | StderrData _ => true
  | _ => false
  end.

(** What the child wrote on standard output, and on standard error. *)
Fixpoint out_of (evs : list ProcEvent) : jstr :=
  match evs with
  | [] => []
  | StdoutData d :: evs' => d ++ out_of evs'
  | _ :: evs' => out_of evs'
  end.

Fixpoint err_of (evs : list ProcEvent) : jstr :=
  match evs with
  | [] => []
  | StderrData d :: evs' => d ++ err_of evs'
  | _ :: evs' => err_of evs'
  end.

Definition spawn_failure (msg : jstr) (pre : list ProcEvent) : JsError :=
  mkError ("Failed to spawn command: " ++ msg)
          (Some (AStr (out_of pre))) (Some (AStr (err_of pre))).

(** A host on which [spawn] refuses an argument with a NUL byte, as Node
    does, before any process is created. *)
Definition NUL : ascii := "000"%char.

Definition has_nul (s : jstr) : bool := existsb (fun c => ascii_eqb c NUL) s.

Definition nul_argument : jstr := "a" ++ [NUL] ++ "b".

(** The first argument with a NUL byte, and its index. *)
Fixpoint first_nul (n : nat) (argv : list (option jstr)) : option (nat * jstr) :=
  match argv with
  | [] => None
  | a :: argv' =>
      if has_nul (default [] a) then Some (n, default [] a) else first_nul (S n) argv'
  end.

(** The value as the message of Node shows it: between quotes, a NUL byte
    as [\x00] (for a text without other characters to escape). *)
Definition show_nul (s : jstr) : jstr :=
  "'" ++ concat ((fun c => if ascii_eqb c NUL then ("\x00" : jstr) else [c]) <$> s) ++ "'".

Definition nul_error (n : nat) (s : jstr) : JsError :=
  new_Error ("The argument 'args[" ++ pretty n ++
             "]' must be a string without null bytes. Received " ++ show_nul s).

Definition strict_host : Host :=
  Build_Host "/home/dev"
    (fun _ _ fs => ([StdoutData "done"; CloseEv (Some 0%Z)], fs))
    (fun _ fs => inr fs)
    (fun i _ => (fun ns => nul_error ns.1 ns.2) <$> first_nul 0 (inv_args i)).

(** ** The hosts and the calls of the examples *)

Definition quiet_child (exit_code : Z) : list Effect → Invocation → FS → list ProcEvent * FS :=
  fun _ _ fs => ([StdoutData "done"; CloseEv (Some exit_code)], fs).

(** A host where every command succeeds and [mkdir -p] creates [/srv/new]. *)
Definition ok_host : Host :=
  mkHost "/home/dev" (quiet_child 0)
         (fun _ fs => inr (<[("/srv/new" : jstr) := Dir]> fs)).

(** A disk with one project directory, [/srv/shop]. *)
Definition shop_disk : FS := {[ ("/srv/shop" : jstr) := Dir ]}.

Definition shop_world : World := mkWorld shop_disk [].

Definition with_path (p : string) : Args :=
  mkArgs (Some (p : jstr)) None None None None None None None None None None None
         None None None None None None None None None None None.

Definition query_missing : Args := with_path "/srv/shop".

Definition init_new : Args :=
  mkArgs (Some ("/srv/new" : jstr)) None None None None None None None None
         (Some ("shop" : jstr)) None None
         None None None None None None None None None None None.

Definition unit_gone : Args :=
  mkArgs (Some ("/srv/gone" : jstr)) None None None None None
         (Some ("phpunit.xml" : jstr)) None None None None None
         None None None None None None None None None None None.

Definition db_vector : list (option jstr) :=
  lits ["env"; "exec"; "-T"; "db"; "mysql"; "-u"; "root"; "-pmagento"; "magento";
        "-e"; "SELECT 1"].

Definition select_one : Args :=
  mkArgs (Some ("/srv/shop/" : jstr)) (Some ("SELECT 1" : jstr)) None None None None
         None None None None None None
         None None None None None None None None None None None.

(** ** Counting the processes of a call *)

(** The number of process runner invocations between two worlds. *)
Definition calls_between (w w' : World) : Z :=
  (Z.of_nat (length (runner_calls w')) - Z.of_nat (length (runner_calls w)))%Z.

Definition shells_between (w w' : World) : Z :=
  (Z.of_nat (length (shell_calls w')) - Z.of_nat (length (shell_calls w)))%Z.

(** What one call may do: at most [limit] invocations of the runner, none
    when it throws, and exactly one when [exact] is set and it returns; at
    most [shells] shell commands of [execSync]. *)
Definition call_shape {A} (limit : Z) (exact : bool) (shells : Z) (w : World)
    (out : Res A * World) : Prop :=
  (0 ≤ calls_between w out.2 ≤ limit)%Z
  ∧ (∀ e, out.1 = Throw e → calls_between w out.2 = 0%Z)
  ∧ (∀ v, exact = true → out.1 = Ok v → calls_between w out.2 = 1%Z)
  ∧ (0 ≤ shells_between w out.2 ≤ shells)%Z.

Definition call_limit (t : Tool) : Z :=
  match t with
  | warden_composer => 4%Z
  | _ => 1%Z
  end.

Definition shell_limit (t : Tool) : Z :=
  match t with
  | warden_init_project => 1%Z
  | _ => 0%Z
  end.

Definition exactly_one (t : Tool) : bool :=
  match t with
  | warden_composer | warden_init_project => false
  | _ => true
  end.

(** A container without [composer2], whose [composer] prints [version]. *)
Definition composer_child (version : string)
    : list Effect → Invocation → FS → list ProcEvent * FS :=
  fun _ i fs =>
    if bool_decide (inv_args i = php_fpm ["which"; "composer2"])
    then ([CloseEv (Some 1%Z)], fs)
    else if bool_decide (inv_args i = php_fpm ["which"; "composer"])
    then ([StdoutData "/usr/bin/composer"; CloseEv (Some 0%Z)], fs)
    else if bool_decide (inv_args i = php_fpm ["composer"; "--version"])
    then ([StdoutData version; CloseEv (Some 0%Z)], fs)
    else ([StdoutData "done"; CloseEv (Some 0%Z)], fs).

Definition composer_host (version : string) : Host :=
  mkHost "/home/dev" (composer_child version) (fun _ fs => inr fs).

Definition composer_install : Args :=
  mkArgs (Some ("/srv/shop" : jstr)) None None None (Some ("install  --no-dev" : jstr))
         None None None None None None None
         None None None None None None None None None None None.

(** ** The composer probe *)

Definition probe_composer2 : list (option jstr) := php_fpm ["which"; "composer2"].

Definition probe_composer : list (option jstr) := php_fpm ["which"; "composer"].

Definition probe_version : list (option jstr) := php_fpm ["composer"; "--version"].

Definition composer_v1_host : Host := composer_host "Composer version 1.10.26 2022-04-13".

Definition v1_world1 : World :=
  (executeCommand composer_v1_host "warden" probe_composer2 "/srv/shop" shop_world).2.

Definition v1_world2 : World :=
  (executeCommand composer_v1_host "warden" probe_composer "/srv/shop" v1_world1).2.

Definition v1_world3 : World :=
  (executeCommand composer_v1_host "warden" probe_version "/srv/shop" v1_world2).2.

(** ** Command lines *)

Definition all_space (s : jstr) : Prop := Forall (fun c => is_space c = true) s.

Definition no_space (s : jstr) : Prop := Forall (fun c => is_space c = false) s.

(** A token: some characters, none of them white space. *)
Definition token (t : jstr) : Prop := t ≠ [] ∧ no_space t.

(** A separator: a run of white space. *)
Definition separator (s : jstr) : Prop := s ≠ [] ∧ all_space s.

(** A command line: a first token, then separators each followed by a token. *)
Fixpoint weave (t1 : jstr) (rest : list (jstr * jstr)) : jstr :=
  t1 ++ match rest with
        | [] => []
        | st :: rest' => st.1 ++ weave st.2 rest'
        end.

Definition quoted_config : Args :=
  mkArgs (Some ("/srv/shop" : jstr)) None None None
         (Some (" config  name 'my shop' " : jstr))
         None None None None None None None
         None None None None None None None None None None None.

Definition composer2_host : Host :=
  mkHost "/home/dev" (quiet_child 0) (fun _ fs => inr fs).

(** ** The shapes of the lines of the status text *)

Definition is_word_str (s : jstr) : Prop := s ≠ [] ∧ Forall (fun c => is_word c = true) s.

(** A name line: [<name> a <type> project], the words separated by white
    space, after optional white space. *)
Definition name_shape (lead nm s1 s2 ty s3 : jstr) : jstr :=
  lead ++ nm ++ s1 ++ "a" ++ s2 ++ ty ++ s3 ++ "project".

(** A directory line: the label, then the path after optional white space. *)
Definition dir_shape (lead ws p : jstr) : jstr :=
  lead ++ "Project Directory:" ++ ws ++ p.

(** A path as the directory pattern captures it: it has a first character
    that is not white space and no line terminator. *)
Definition is_path_str (p : jstr) : Prop :=
  (∃ c p', p = c :: p' ∧ is_space c = false) ∧ Forall (fun c => is_dot c = true) p.

(** ** The parser on well-formed blocks *)

(** The banner test of the loop, and the line the patterns are tried on. *)
Definition banner (l : jstr) : bool :=
  includes "No running environments found" (trim l)
  || includes "Found the following" (trim l).

Definition clean (l : jstr) : jstr := strip_ansi (trim l).

(** A name line as the loop sees it, trimmed and then without its colour
    sequences, carrying the project name [nm]. *)
Definition is_name_line (l nm : jstr) : Prop :=
  banner l = false ∧
  ∃ lead s1 s2 ty s3,
    clean l = name_shape lead nm s1 s2 ty s3 ∧
    all_space lead ∧ is_word_str nm ∧ separator s1 ∧ separator s2 ∧
    is_word_str ty ∧ separator s3.

(** A directory line as the loop sees it; [rem] is what follows the
    label. *)
Definition is_dir_line (l rem : jstr) : Prop :=
  banner l = false ∧
  ∃ lead ws p,
    clean l = lead ++ "Project Directory:" ++ rem ∧ rem = ws ++ p ∧
    all_space lead ∧ all_space ws ∧ is_path_str p ∧
    (∃ p' d, p = p' ++ [d] ∧ is_space d = false).

(** Any other line: blank, a banner, or matched by neither pattern. *)
Definition is_other_line (l : jstr) : Prop :=
  trim l = [] ∨ banner l = true
  ∨ (exec project_re (clean l) = None ∧ exec directory_re (clean l) = None).

(** A block of the status text: its name line, its directory line and the
    lines after it (the URL line). *)
Record Block : Type := mkBlock {
  b_name_line : jstr;
  b_name : jstr;
  b_dir_line : jstr;
  b_rem : jstr;
  b_after : list jstr
}.

Definition block_lines (b : Block) : list jstr :=
  b_name_line b :: b_dir_line b :: b_after b.

Definition block_ok (b : Block) : Prop :=
  is_name_line (b_name_line b) (b_name b)
  ∧ is_dir_line (b_dir_line b) (b_rem b)
  ∧ Forall is_other_line (b_after b).

Definition record_of (b : Block) : EnvironmentRecord :=
  mkEnv (b_name b) (trim (b_rem b)) (b_dir_line b).

(** The output of [warden status] with two environments, colours included. *)
Definition sample_status : jstr :=
  "Found the following 2 running environments:" ++ NL ++
  "    " ++ [ESC] ++ "[1;35mshop" ++ [ESC] ++ "[0m a magento2 project" ++ NL ++
  "       Project Directory: " ++ [ESC] ++ "[33m/srv/my shop" ++ [ESC] ++ "[0m" ++ NL ++
  "       Project URL: " ++ [ESC] ++ "[94mhttps://app.shop.test" ++ [ESC] ++ "[0m" ++ NL ++
  "    blog a wordpress project" ++ NL ++
  "       Project Directory:   /srv/blog  " ++ NL ++
  "       Project URL: https://app.blog.test" ++ NL.

(** ** ANSI escape sequences *)

Definition names_paths (l : list EnvironmentRecord) : list (jstr * jstr) :=
  (fun e => (name e, path e)) <$> l.

(** A text without the escape character. *)
Definition no_esc (s : jstr) : Prop := Forall (fun c => ascii_eqb ESC c = false) s.

(** On such a line the escape sequences hide no white space from [trim]
    and no banner phrase from the banner test. *)
Definition ansi_transparent (l : jstr) : Prop :=
  clean l = trim (strip_ansi l) ∧ banner l = banner (strip_ansi l).

(** ** Well-formed blocks *)

(** A well-formed name line: without its colour sequences it reads
    [<name> a <type> project], the words separated by white space, between
    optional white space. *)
Definition well_formed_name_line (l nm : jstr) : Prop :=
  ∃ lead s1 s2 ty s3 trail,
    strip_ansi l = name_shape lead nm s1 s2 ty s3 ++ trail ∧
    all_space lead ∧ all_space trail ∧ is_word_str nm ∧ separator s1 ∧ separator s2 ∧
    is_word_str ty ∧ separator s3.

(** A well-formed directory line: without its colour sequences it reads
    [Project Directory:] after optional white space, then the remainder
    [rem], which is not blank and has no line terminator inside. *)
Definition well_formed_dir_line (l rem : jstr) : Prop :=
  ∃ lead,
    strip_ansi l = lead ++ "Project Directory:" ++ rem ∧
    all_space lead ∧ ¬ all_space rem ∧ Forall (fun c => is_dot c = true) (trim rem).

(** A line the parser reads as the specification does: it holds no banner
    phrase, and its colour sequences hide no white space from the trimming
    (removing them after the trimming or before it gives the same text). *)
Definition plainly_read (l : jstr) : Prop :=
  banner l = false ∧ clean l = trim (strip_ansi l).

(** Any other line: blank, a banner line, or a line that hides no white
    space behind a colour sequence and that, without its colour sequences
    and trimmed, neither pattern matches. *)
Definition other_line (l : jstr) : Prop :=
  trim l = [] ∨ banner l = true
  ∨ (clean l = trim (strip_ansi l)
     ∧ exec project_re (trim (strip_ansi l)) = None
     ∧ exec directory_re (trim (strip_ansi l)) = None).

Definition block_well_formed (b : Block) : Prop :=
  well_formed_name_line (b_name_line b) (b_name b) ∧ plainly_read (b_name_line b)
  ∧ well_formed_dir_line (b_dir_line b) (b_rem b) ∧ plainly_read (b_dir_line b)
  ∧ Forall other_line (b_after b).

(** The blocks of [sample_status]; the remainder of a directory line is
    all that follows the label. *)
Definition status_blocks : list Block :=
  [ mkBlock ("    " ++ [ESC] ++ "[1;35mshop" ++ [ESC] ++ "[0m a magento2 project")
            "shop"
            ("       Project Directory: " ++ [ESC] ++ "[33m/srv/my shop" ++ [ESC] ++ "[0m")
            " /srv/my shop"
            [ "       Project URL: " ++ [ESC] ++ "[94mhttps://app.shop.test" ++ [ESC] ++ "[0m" ];
    mkBlock "    blog a wordpress project"
            "blog"
            "       Project Directory:   /srv/blog  "
            "   /srv/blog  "
            [ "       Project URL: https://app.blog.test" : jstr; [] ] ].

(** A well-formed block whose path holds a banner phrase, and one whose
    colour reset follows a space. *)
Definition banner_path_status : jstr :=
  "shop a magento2 project" ++ NL ++ "Project Directory: /srv/Found the following" ++ NL.

Definition reset_after_space_status : jstr :=
  "shop a magento2 project" ++ NL ++
  "Project Directory: " ++ [ESC] ++ "[33m/srv/shop " ++ [ESC] ++ "[0m" ++ NL.

Definition view (st : ParseState) : list (jstr * jstr) * option jstr :=
  (names_paths (environments st), currentProject st).

(** [sample_status] without its colours. *)
Definition plain_status : jstr :=
  "Found the following 2 running environments:" ++ NL ++
  "    shop a magento2 project" ++ NL ++
  "       Project Directory: /srv/my shop" ++ NL ++
  "       Project URL: https://app.shop.test" ++ NL ++
  "    blog a wordpress project" ++ NL ++
  "       Project Directory:   /srv/blog  " ++ NL ++
  "       Project URL: https://app.blog.test" ++ NL.

(** A name line whose colour reset follows a space. *)
Definition coded_status : jstr :=
  "shop a magento2 project " ++ [ESC] ++ "[0m" ++ NL ++ "Project Directory: /srv/shop".

Definition uncoded_status : jstr :=
  "shop a magento2 project " ++ NL ++ "Project Directory: /srv/shop".

(** ** The rewriting of the [.env] file *)

(** The lines of a text as the [m] flag sees them: LF and CR end a line. *)
Definition env_lines (s : jstr) : list jstr := split_on is_line_terminator s.

(** A line of the key [k]: it begins with [k=]. *)
Definition is_key_line (k l : jstr) : bool := starts_with (k ++ "=") l.

Definition key_count (k : jstr) (L : list jstr) : nat :=
  length (filter (fun l => is_key_line k l = true) L).

(** A text on one line. *)
Definition one_line (s : jstr) : Prop := Forall (fun c => is_dot c = true) s.

(** A value the replacement takes literally: one line, no [$]. *)
Definition plain_value (v : jstr) : Prop :=
  one_line v ∧ Forall (fun c => ascii_eqb c "$" = false) v.

(** The first line of the key replaced, when there is one. *)
Fixpoint replace_first_line (k newl : jstr) (L : list jstr) : option (list jstr) :=
  match L with
  | [] => None
  | l :: L' =>
      if is_key_line k l then Some (newl :: L')
      else (fun R => l :: R) <$> replace_first_line k newl L'
  end.

(** What an update does to the lines: replace in place, or append. *)
Definition set_line (k v : jstr) (L : list jstr) : list jstr :=
  default (L ++ [k ++ "=" ++ v]) (replace_first_line k (k ++ "=" ++ v) L).

(** The text with the first line of the key replaced, scanning from a
    position that is ([bol]) or is not at the start of a line. *)
Fixpoint subst_key (k newl : jstr) (bol : bool) (s : jstr) : option jstr :=
  if bol && starts_with (k ++ "=") s
  then Some (newl ++ drop_while is_dot (drop (length (k ++ "=")) s))
  else match s with
       | [] => None
       | c :: s' => (fun t => c :: t) <$> subst_key k newl (is_line_terminator c) s'
       end.

(** The first line of a text. *)
Fixpoint take_line (s : jstr) : jstr :=
  match s with
  | [] => []
  | c :: s' => if is_dot c then c :: take_line s' else []
  end.

(** The lines after all the updates of a list. *)
Definition run_updates (upd : list (jstr * jstr)) (L : list jstr) : list jstr :=
  foldl (fun L kv => set_line kv.1 kv.2 L) L upd.

(** ** The project initializer and the [.env] file *)

Definition mkdir_command (dir : jstr) : jstr := "mkdir -p " ++ [DQ] ++ dir ++ [DQ].

Definition init_command (a : Args) : list (option jstr) :=
  [Some ("env" : jstr); Some ("init" : jstr); project_name a;
   Some (o_environment_type (init_options a))].

Definition env_path (h : Host) (p : jstr) : jstr := path_join (resolve (cwd h) p) ".env".

(** The text values of the options are plain: on one line, without [$]. *)
Definition options_plain (o : InitOptions) : Prop :=
  Forall plain_value
    [o_php_version o; o_mysql_distribution o; o_mysql_version o; o_node_version o;
     o_composer_version o; o_opensearch_version o; o_redis_version o].

(** A host whose [warden env init] leaves the given [.env] in [/srv/shop]. *)
Definition init_host (generated : jstr) : Host :=
  mkHost "/home/dev"
         (fun _ _ fs =>
            ([StdoutData "Initialized"; CloseEv (Some 0%Z)],
             <[("/srv/shop/.env" : jstr) := File generated]> fs))
         (fun _ fs => inr fs).

Definition generated_env : jstr :=
  "WARDEN_ENV_NAME=shop" ++ NL ++ "PHP_VERSION=8.1" ++ NL ++
  "COMPOSER_VERSION=1" ++ NL ++ "TRAEFIK_DOMAIN=shop.test" ++ NL.

Definition init_shop : Args :=
  mkArgs (Some ("/srv/shop" : jstr)) None None None None None None None None
         (Some ("shop" : jstr)) None (Some ("8.3" : jstr))
         None None None None None (Some ("7.2" : jstr)) None None None None None.

Definition init_shop_world2 : World :=
  (executeCommand (init_host generated_env) "warden" (init_command init_shop) "/srv/shop"
     (mkWorld shop_disk [Shell (mkdir_command "/srv/shop")])).2.

(** A [.env] file with two [PHP_VERSION] lines. *)
Definition doubled_env : jstr :=
  "PHP_VERSION=8.1" ++ NL ++ "PHP_VERSION=8.3" ++ NL.

(** A [.env] file with two [PHP_VERSION] lines, neither the requested one. *)
Definition stale_env : jstr :=
  "PHP_VERSION=8.1" ++ NL ++ "NODE_VERSION=18" ++ NL ++ "PHP_VERSION=7.4" ++ NL.

(** * Further vocabulary *)

(** ** The parser *)

(** A line the loop skips, or one the name pattern does not match. *)
Definition not_a_name_line (l : jstr) : Prop :=
  is_empty (trim l) || banner l = true ∨ exec project_re (clean l) = None.

(** A status text without any name line. *)
Definition orphan_status : jstr :=
  "Found the following 1 running environments:" ++ NL ++
  "       Project Directory: /srv/shop" ++ NL ++
  "       Project URL: https://app.shop.test" ++ NL.

(** Two name lines before one directory line. *)
Definition renamed_status : jstr :=
  "    shop a magento2 project" ++ NL ++
  "    blog a wordpress project" ++ NL ++
  "       Project Directory: /srv/blog".

(** ** The environment list helper *)

(** [getEnvironmentList]: the [{name, path}] objects of the running
    environments, as pairs. *)
Definition getEnvironmentList (h : Host) : M (list (jstr * jstr)) :=
  try_catch
    (let* result := executeCommand h "warden" (lits ["status"]) (cwd h) in
     if is_zero (code result) then
       let environments := parseEnvironmentList (stdout result) in
       ret ((fun env => (name env, path env)) <$> environments)
     else ret [])
    (fun error => ret []).

(** The field [k] of a JSON object. *)
Definition json_field (k : string) (j : Json) : option Json :=
  match j with
  | JObj fields => (fun x => x.2.2) <$> list_find (fun f => f.1 = k) fields
  | _ => None
  end.

(** The field [k] of the JSON text an envelope carries. *)
Definition envelope_field (k : string) (env : Envelope) : option Json :=
  match content env with
  | [JsonText j] => json_field k j
  | _ => None
  end.

Definition pair_json (p : jstr * jstr) : Json :=
  JObj [("name", JStr p.1); ("path", JStr p.2)].

(** A host whose [warden status] prints [sample_status]. *)
Definition status_host : Host :=
  mkHost "/home/dev"
         (fun _ _ fs => ([StdoutData sample_status; CloseEv (Some 0%Z)], fs))
         (fun _ fs => inr fs).

(** A host whose processes write and never end. *)
Definition stuck_host : Host :=
  mkHost "/home/dev" (fun _ _ fs => ([StdoutData "waiting"; StderrData "..."], fs))
         (fun _ fs => inr fs).

(** A host on which nothing can be spawned. *)
Definition broken_host : Host :=
  mkHost "/home/dev"
         (fun _ _ fs => ([ErrorEv "spawn warden ENOENT"; CloseEv (Some (-2)%Z)], fs))
         (fun _ fs => inr fs).

(** ** The unit test tool *)

Definition phpunit_prefix : list (option jstr) :=
  lits ["env"; "exec"; "-T"; "php-fpm"; "php"; "vendor/phpunit/phpunit/phpunit"; "-c"].

(** A project with both PHPUnit configuration files. *)
Definition phpunit_disk : FS :=
  <[("/srv/shop/phpunit.xml.dist" : jstr) := File []]>
    (<[("/srv/shop/phpunit.xml" : jstr) := File []]> shop_disk).

Definition unit_filter : Args :=
  mkArgs (Some ("/srv/shop" : jstr)) None None None None None
         (Some ("phpunit.xml" : jstr)) (Some ("  " : jstr))
         (Some [("--filter" : jstr); ("testAdd Item" : jstr)]) None None None
         None None None None None None None None None None None.

(** The messages of the errors a tool call can throw. *)
(** The messages of the errors a call with the arguments object [a] can
    throw, and those of a call without [arguments]. *)
Definition thrown_messages (h : Host) (arguments : option Args) : list jstr :=
  match arguments with
  | Some a =>
      [ "project_path is required" : jstr;
        "command is required" : jstr;
        "Project directory does not exist: " ++ absolute_path h (default [] (project_path a));
        "No PHPUnit configuration file found (phpunit.xml.dist or phpunit.xml)" : jstr;
        "Cannot read properties of undefined (reading 'replace')" : jstr ]
  | None =>
      [ "Cannot destructure property 'project_path' of 'args' as it is undefined." : jstr;
        "Cannot read properties of undefined (reading 'project_path')" : jstr ]
  end.

Definition blank_command : Args :=
  mkArgs (Some ("/srv/shop" : jstr)) None None None (Some ("   " : jstr))
         None None None None None None None
         None None None None None None None None None None None.

Definition magento_args : Args :=
  mkArgs (Some ("/srv/shop" : jstr)) None None None (Some ("config:set" : jstr))
         (Some [("web/secure/base_url" : jstr); ("https://my shop.test/" : jstr)])
         None None None None None None
         None None None None None None None None None None None.

(** A container with neither [composer2] nor [composer]. *)
Definition no_composer_host : Host :=
  mkHost "/home/dev" (quiet_child 1) (fun _ fs => inr fs).

(** A PHP script call whose script path holds a NUL byte. *)
Definition nul_script : Args :=
  mkArgs (Some ("/srv/shop" : jstr)) None None (Some nul_argument) None None
         None None None None None None
         None None None None None None None None None None None.

(** ** The project initializer *)

(** A host on which [mkdir -p] fails. *)
Definition readonly_host : Host :=
  mkHost "/home/dev" (quiet_child 0)
         (fun cmd _ => inl (mkError ("Command failed: " ++ cmd)
                                    (Some (ABuf [])) (Some (ABuf "Permission denied")))).

(** The first line of a key, when there is one. *)
Fixpoint first_key_line (k : jstr) (L : list jstr) : option jstr :=
  match L with
  | [] => None
  | l :: L' => if is_key_line k l then Some l else first_key_line k L'
  end.

(** The process of [warden env init] ended with exit code 0. *)
Definition init_succeeded (evs : list ProcEvent) : Prop :=
  ∃ r, run_events evs = Resolved r ∧ is_zero (code r) = true.

(** The file system after the call of [spawn]: the one the process left,
    or the one before when [spawn] threw and no process ran. *)
Definition left_by_spawn (h : Host) (i : Invocation) (before after : FS) : FS :=
  match spawn_throws h i before with
  | Some _ => before
  | None => after
  end.

(** ** Colour sequences *)

(** A colour (SGR) sequence: [ESC [ params m]. *)
Definition sgr (params : jstr) : jstr := [ESC; "["%char] ++ params ++ "m".

(** A text made of pieces, each followed by a colour sequence, and a last
    piece. *)
Fixpoint coloured (pieces : list (jstr * jstr)) (last_piece : jstr) : jstr :=
  match pieces with
  | [] => last_piece
  | (piece, params) :: pieces' => piece ++ sgr params ++ coloured pieces' last_piece
  end.

(** The same text without the colour sequences. *)
Fixpoint uncoloured (pieces : list (jstr * jstr)) (last_piece : jstr) : jstr :=
  match pieces with
  | [] => last_piece
  | (piece, _) :: pieces' => piece ++ uncoloured pieces' last_piece
  end.

Definition sgr_params (params : jstr) : Prop :=
  Forall (fun c => is_digit_or_semi c = true) params.

(** ** White space around the lines of the status text *)

(** [x] is [y] with white space added in front and at the end. *)
Definition padded (x y : jstr) : Prop :=
  ∃ lead trail, all_space lead ∧ all_space trail ∧ x = lead ++ y ++ trail.

(** A status text with LF line ends, and the same with CR LF line ends. *)
Definition unix_status : jstr :=
  "shop a magento2 project" ++ [LF] ++ "Project Directory: /srv/shop" ++ [LF].

Definition dos_status : jstr :=
  "shop a magento2 project" ++ [CR; LF] ++ "  Project Directory: /srv/shop" ++ [CR; LF].

(** * Proofs *)

(** ** The definitions on examples *)

Example strip_ansi_ex :
  show (strip_ansi ([ESC] ++ "[1;35mshop" ++ [ESC] ++ "[0m a magento2 project"))
  = "shop a magento2 project".
Proof. reflexivity. Qed.

Example project_re_ex :
  (m_group <$> exec project_re "shop a magento2 project") = Some (Some ("shop" : jstr)).
Proof. reflexivity. Qed.

Example directory_re_ex :
  (m_group <$> exec directory_re "Project Directory:  /srv/my shop")
  = Some (Some ("/srv/my shop" : jstr)).
Proof. reflexivity. Qed.

Example trailing_slashes_ex :
  show (replace_first trailing_slashes_re [] "/a//b//") = "/a//b".
Proof. reflexivity. Qed.

Example split_plus_ex :
  show <$> split_plus is_space false "require  foo/bar" = ["require"; "foo/bar"].
Proof. reflexivity. Qed.

Example resolve_ex1 : show (resolve "/home/dev" "shop") = "/home/dev/shop".
Proof. reflexivity. Qed.

Example resolve_ex2 : show (resolve "/home/dev" "/srv/./a/../shop") = "/srv/shop".
Proof. reflexivity. Qed.

Example path_join_ex : show (path_join "/srv/shop" ".env") = "/srv/shop/.env".
Proof. reflexivity. Qed.

Example parse_ex :
  (fun e => (show (name e), show (path e))) <$>
    parseEnvironmentList
      ("Found the following 1 running environments:" ++ NL ++
       "    " ++ [ESC] ++ "[1;35mshop" ++ [ESC] ++ "[0m a magento2 project" ++ NL ++
       "       Project Directory: " ++ [ESC] ++ "[33m/srv/shop" ++ [ESC] ++ "[0m" ++ NL ++
       "       Project URL: https://app.shop.test" ++ NL)
  = [("shop", "/srv/shop")].
Proof. vm_compute. reflexivity. Qed.

Example update_env_crlf :
  show <$> env_lines (update_env ("A=1" ++ [CR; LF] ++ "PHP_VERSION=8.1" ++ [CR; LF])
                        [("PHP_VERSION" : jstr, "8.3" : jstr); ("NODE_VERSION" : jstr, "20" : jstr)])
  = ["A=1"; ""; "PHP_VERSION=8.3"; ""; ""; "NODE_VERSION=20"].
Proof. vm_compute. reflexivity. Qed.

(** ** The dispatcher *)

Lemma call_tool_known (h : Host) (t : Tool) (arguments : option Args) :
  call_tool h (tool_name t) arguments = run_tool h t arguments.
Proof. destruct t; reflexivity. Qed.

Example call_tool_unknown :
  (call_tool ok_host "warden_restart" (Some no_args) shop_world).1
  = Throw (new_Error "Unknown tool: warden_restart").
Proof. reflexivity. Qed.

(** ** The process runner *)

Lemma on_event_settled (ev : ProcEvent) (r : Runner) :
  promise r ≠ Pending → promise (on_event r ev) = promise r.
Proof.
  intros Hr. destruct ev; simpl; try reflexivity;
    unfold settle; destruct (promise r) eqn:E; congruence.
Qed.

Lemma settled_stays (evs : list ProcEvent) (r : Runner) :
  promise r ≠ Pending → promise (foldl on_event r evs) = promise r.
Proof.
  revert r. induction evs as [|ev evs IH]; intros r Hr; [done|].
  simpl. rewrite IH; rewrite on_event_settled; done.
Qed.

Lemma data_accumulates (pre : list ProcEvent) (o e : jstr) :
  forallb is_data pre = true →
  foldl on_event (mkRunner o e Pending) pre
  = mkRunner (o ++ out_of pre) (e ++ err_of pre) Pending.
Proof.
  revert o e. induction pre as [|ev pre IH]; intros o e Hd; simpl.
  - by rewrite !app_nil_r.
  - destruct ev; simpl in Hd; try done; simpl; rewrite IH by done;
      by rewrite <- !app_assoc.
Qed.

Lemma rejected_inv (evs : list ProcEvent) (o e : jstr) (x : JsError) :
  promise (foldl on_event (mkRunner o e Pending) evs) = Rejected x →
  ∃ pre msg rest,
    evs = pre ++ ErrorEv msg :: rest ∧ forallb is_data pre = true ∧
    x = mkError ("Failed to spawn command: " ++ msg)
                (Some (AStr (o ++ out_of pre))) (Some (AStr (e ++ err_of pre))).
Proof.
  revert o e. induction evs as [|ev evs IH]; intros o e H; [done|].
  destruct ev as [d|d|c|msg]; simpl in H.
  - apply IH in H as (pre & msg & rest & -> & Hd & ->).
    exists (StdoutData d :: pre), msg, rest. simpl. by rewrite <- !app_assoc.
  - apply IH in H as (pre & msg & rest & -> & Hd & ->).
    exists (StderrData d :: pre), msg, rest. simpl. by rewrite <- !app_assoc.
  - rewrite settled_stays in H by done. done.
  - rewrite settled_stays in H by done. simpl in H. injection H as <-.
    exists [], msg, evs. simpl. by rewrite !app_nil_r.
Qed.

Lemma run_events_close (pre rest : list ProcEvent) (c : option Z) :
  forallb is_data pre = true →
  run_events (pre ++ CloseEv c :: rest) = Resolved (mkResult (out_of pre) (err_of pre) c).
Proof.
  intros Hd. unfold run_events, runner_init.
  rewrite foldl_app, data_accumulates by done. simpl.
  by rewrite settled_stays.
Qed.

Lemma run_events_error (pre rest : list ProcEvent) (msg : jstr) :
  forallb is_data pre = true →
  run_events (pre ++ ErrorEv msg :: rest) = Rejected (spawn_failure msg pre).
Proof.
  intros Hd. unfold run_events, runner_init.
  rewrite foldl_app, data_accumulates by done. simpl.
  by rewrite settled_stays.
Qed.

(** C2, as the code has it.  When the child terminates normally (it wrote
    its output, then closed with exit code [z]), [executeCommand] resolves
    with the whole output, the whole error output and the integer [z],
    whatever [z] is.  It rejects in two cases, and only then: when the child
    emits an [error] event (it could not be spawned), with the message
    [Failed to spawn command: ...] and the output captured until then
    attached; and when the call of [spawn] itself throws, with the error
    [spawn] threw, as it is. *)
Theorem executeCommand_resolves_or_spawn_failure
    (h : Host) (cmd : jstr) (argv : list (option jstr)) (dir : jstr) (w : World)
    (evs : list ProcEvent) (fs' : FS) :
  child h (trace w) (mkInv cmd argv dir) (fs w) = (evs, fs') →
  (spawn_throws h (mkInv cmd argv dir) (fs w) = None →
   (∀ pre z rest,
       evs = pre ++ CloseEv (Some z) :: rest → forallb is_data pre = true →
       (executeCommand h cmd argv dir w).1
       = Ok (mkResult (out_of pre) (err_of pre) (Some z)))
   ∧ (∀ pre msg rest,
       evs = pre ++ ErrorEv msg :: rest → forallb is_data pre = true →
       (executeCommand h cmd argv dir w).1
       = Throw (mkError ("Failed to spawn command: " ++ msg)
                        (Some (AStr (out_of pre))) (Some (AStr (err_of pre))))))
  ∧ (∀ x, spawn_throws h (mkInv cmd argv dir) (fs w) = Some x →
       executeCommand h cmd argv dir w
       = (Throw x, mkWorld (fs w) (trace w ++ [Spawned (mkInv cmd argv dir)])))
  ∧ (∀ e, (executeCommand h cmd argv dir w).1 = Throw e →
       spawn_throws h (mkInv cmd argv dir) (fs w) = Some e
       ∨ (spawn_throws h (mkInv cmd argv dir) (fs w) = None
          ∧ ∃ pre msg rest,
              evs = pre ++ ErrorEv msg :: rest ∧ forallb is_data pre = true ∧
              e = mkError ("Failed to spawn command: " ++ msg)
                          (Some (AStr (out_of pre))) (Some (AStr (err_of pre))))).
Proof.
  intros Hc. unfold executeCommand.
  destruct (spawn_throws h (mkInv cmd argv dir) (fs w)) as [x|] eqn:Hs.
  - split; [done|]. split.
    + by intros ? [= <-].
    + intros e [= <-]. by left.
  - rewrite Hc. split; [intros _; split|split; [done|]].
    + intros pre z rest -> Hd. by rewrite run_events_close.
    + intros pre msg rest -> Hd. by rewrite run_events_error.
    + intros e He. right. split; [done|].
      destruct (run_events evs) as [|r|x] eqn:Hr; simpl in He; try done.
      injection He as ->. unfold run_events, runner_init in Hr.
      apply rejected_inv in Hr as (pre & msg & rest & -> & Hd & ->).
      by exists pre, msg, rest.
Qed.

(** C2, on examples: a child that writes on both streams and exits with
    code 3, and one that writes and then cannot be run. *)
Lemma executeCommand_resolves_witness :
  (executeCommand
     (mkHost "/" (fun _ _ f =>
        ([StdoutData "a"; StderrData "x"; StdoutData "b"; CloseEv (Some 3%Z)], f))
        (fun _ f => inr f))
     "warden" (lits ["status"]) "/" shop_world).1
  = Ok (mkResult "ab" "x" (Some 3%Z))
  ∧ (executeCommand
       (mkHost "/" (fun _ _ f => ([StdoutData "a"; ErrorEv "spawn warden EACCES"], f))
          (fun _ f => inr f))
       "warden" (lits ["status"]) "/" shop_world).1
    = Throw (mkError "Failed to spawn command: spawn warden EACCES"
                     (Some (AStr "a")) (Some (AStr []))).
Proof.
  split.
  - apply (proj1 (proj1 (executeCommand_resolves_or_spawn_failure
                    (mkHost "/" (fun _ _ f =>
                       ([StdoutData "a"; StderrData "x"; StdoutData "b"; CloseEv (Some 3%Z)], f))
                       (fun _ f => inr f))
                    "warden" (lits ["status"]) "/" shop_world _ shop_disk eq_refl) eq_refl)
            [StdoutData "a"; StderrData "x"; StdoutData "b"] 3%Z []);
      reflexivity.
  - apply (proj2 (proj1 (executeCommand_resolves_or_spawn_failure
                    (mkHost "/" (fun _ _ f => ([StdoutData "a"; ErrorEv "spawn warden EACCES"], f))
                       (fun _ f => inr f))
                    "warden" (lits ["status"]) "/" shop_world _ shop_disk eq_refl) eq_refl)
            [StdoutData "a"] "spawn warden EACCES" []);
      reflexivity.
Defined.

(** C2 fails as stated: when [spawn] refuses an argument (here one with a
    NUL byte) the promise is rejected with the error of [spawn] itself,
    which carries no output and has no [Failed to spawn command] prefix. *)
Lemma executeCommand_rejection_counterexample :
  ∃ e,
    (executeCommand strict_host "warden" [Some nul_argument] "/srv/shop" shop_world).1
    = Throw e
    ∧ e_stdout e = None ∧ e_stderr e = None
    ∧ starts_with "Failed to spawn command" (message e) = false.
Proof. exists (nul_error 0 nul_argument). repeat split. Qed.

(** ** Validation of the parameters *)

Lemma executeWardenCommand_no_path (h : Host) (argv : list (option jstr))
    (description : jstr) (w : World) :
  executeWardenCommand h None argv description w
  = (Throw (new_Error "project_path is required"), w).
Proof. reflexivity. Qed.

Lemma executeWardenCommand_not_found (h : Host) (p : jstr) (argv : list (option jstr))
    (description : jstr) (w : World) :
  truthy (Some p) = true → fs w !! absolute_path h p = None →
  executeWardenCommand h (Some p) argv description w
  = (Throw (new_Error ("Project directory does not exist: " ++ absolute_path h p)), w).
Proof.
  intros Ht Hfs. unfold executeWardenCommand. rewrite Ht. simpl.
  unfold bind, existsSync. rewrite Hfs.
  rewrite bool_decide_eq_false_2 by (by intros [? ?]). reflexivity.
Qed.

Lemma destructure_given {B} (a : Args) (f : Args → M B) :
  bind (destructure (Some a)) f = f a.
Proof. reflexivity. Qed.

Lemma run_tool_via_warden_command (h : Host) (t : Tool) (a : Args) :
  via_warden_command t = true →
  ∃ argv description,
    run_tool h t (Some a) = executeWardenCommand h (project_path a) argv description.
Proof. destruct t; intros Ht; try done; eexists; eexists; reflexivity. Qed.

(** C1, as the code has it.  A call of a lifecycle, database, PHP, Magento
    or composer tool whose arguments lack [project_path], and a composer
    call whose arguments lack [command], is refused by throwing: no
    envelope is returned, and the world, with its record of spawned
    processes, is left as it was.  So is a unit test call without
    [project_path], with a [TypeError].  The project initializer without
    [project_path] returns an envelope with [isError = true], again without
    running anything.  A call without any [arguments] throws a [TypeError]
    for every tool that takes parameters; the project initializer throws it
    from its [catch] block. *)
Theorem missing_parameter_is_refused (h : Host) (t : Tool) (a : Args) (w : World) :
  (project_path a = None →
   via_warden_command t = true ∨ t = warden_composer →
   run_tool h t (Some a) w = (Throw (new_Error "project_path is required"), w))
  ∧ (truthy (project_path a) = true → command a = None → t = warden_composer →
     run_tool h t (Some a) w = (Throw (new_Error "command is required"), w))
  ∧ (project_path a = None → t = warden_init_project →
     ∃ env, run_tool h t (Some a) w = (Ok env, w) ∧ isError env = true)
  ∧ (project_path a = None → t = warden_run_unit_tests →
     run_tool h t (Some a) w
     = (Throw (new_Error "Cannot read properties of undefined (reading 'replace')"), w))
  ∧ (t ≠ warden_list_environments → t ≠ warden_init_project →
     run_tool h t None w
     = (Throw (new_Error
                 "Cannot destructure property 'project_path' of 'args' as it is undefined."),
        w))
  ∧ run_tool h warden_init_project None w
    = (Throw (new_Error "Cannot read properties of undefined (reading 'project_path')"), w).
Proof.
  split; [|split; [|split; [|split; [|split]]]].
  - intros Hp [Ht | ->].
    + destruct (run_tool_via_warden_command h t a Ht) as (argv & d & ->).
      rewrite Hp. apply executeWardenCommand_no_path.
    + cbn [run_tool]. unfold runComposer. rewrite destructure_given, Hp. reflexivity.
  - intros Hp Hc ->. cbn [run_tool]. unfold runComposer.
    rewrite destructure_given, Hp, Hc. reflexivity.
  - intros Hp ->. cbn [run_tool]. unfold initProject, try_catch.
    rewrite destructure_given. unfold bind, resolve_arg.
    rewrite Hp. simpl. eexists. split; reflexivity.
  - intros Hp ->. cbn [run_tool]. unfold runUnitTests.
    rewrite destructure_given. unfold bind, receiver. rewrite Hp.
    by destruct (is_empty (default [] (config_file a))).
  - intros H1 H2. by destruct t.
  - reflexivity.
Qed.

Lemma missing_parameter_is_refused_witness :
  project_path no_args = None
  ∧ run_tool ok_host warden_start_project (Some no_args) shop_world
    = (Throw (new_Error "project_path is required"), shop_world)
  ∧ run_tool ok_host warden_db_query None shop_world
    = (Throw (new_Error
                "Cannot destructure property 'project_path' of 'args' as it is undefined."),
       shop_world).
Proof.
  split; [reflexivity|]. split.
  - apply (proj1 (missing_parameter_is_refused ok_host warden_start_project no_args
                    shop_world));
      [reflexivity | left; reflexivity].
  - apply (proj1 (proj2 (proj2 (proj2 (proj2
             (missing_parameter_is_refused ok_host warden_db_query no_args shop_world))))));
      discriminate.
Defined.

(** C1 fails as stated: a database query call without [query] spawns the
    command all the same, and here returns an envelope that is not an
    error; a call without [project_path], and a project initializer call
    without [arguments], return no envelope at all. *)
Lemma missing_parameter_counterexample :
  required_present warden_db_query query_missing = false
  ∧ (∃ env, (run_tool ok_host warden_db_query (Some query_missing) shop_world).1 = Ok env
            ∧ isError env = false)
  ∧ runner_calls (run_tool ok_host warden_db_query (Some query_missing) shop_world).2
    = [mkInv "warden"
         (lits ["env"; "exec"; "-T"; "db"; "mysql"; "-u"; "root"; "-pmagento"; "magento"; "-e"]
          ++ [None])
         "/srv/shop"]
  ∧ required_present warden_start_project no_args = false
  ∧ ¬ (∃ env, (run_tool ok_host warden_start_project (Some no_args) shop_world).1 = Ok env)
  ∧ ¬ (∃ env, (run_tool ok_host warden_init_project None shop_world).1 = Ok env).
Proof.
  split; [reflexivity|]. split; [eexists; split; vm_compute; reflexivity|].
  split; [vm_compute; reflexivity|]. split; [reflexivity|].
  split; intros [env H]; vm_compute in H; discriminate.
Qed.

(** C4, as the code has it.  When the project path of a call of a
    lifecycle, database, PHP, Magento or composer tool, once stripped of its
    trailing separators and resolved, is not on disk, the call is refused by
    throwing: no envelope is returned and nothing is run. *)
Theorem missing_directory_is_refused (h : Host) (t : Tool) (a : Args) (w : World)
    (p : jstr) :
  project_path a = Some p → truthy (Some p) = true →
  fs w !! absolute_path h p = None →
  via_warden_command t = true ∨ (t = warden_composer ∧ truthy (command a) = true) →
  run_tool h t (Some a) w
  = (Throw (new_Error ("Project directory does not exist: " ++ absolute_path h p)), w).
Proof.
  intros Hp Ht Hfs [Hv | [-> Hc]].
  - destruct (run_tool_via_warden_command h t a Hv) as (argv & d & ->).
    rewrite Hp. by apply executeWardenCommand_not_found.
  - simpl. unfold runComposer. rewrite destructure_given, Hp, Ht, Hc. simpl.
    unfold bind, existsSync. rewrite Hfs.
    rewrite bool_decide_eq_false_2 by (by intros [? ?]). reflexivity.
Qed.

Lemma missing_directory_is_refused_witness :
  project_path (with_path "/srv/gone//") = Some ("/srv/gone//" : jstr)
  ∧ truthy (Some ("/srv/gone//" : jstr)) = true
  ∧ fs shop_world !! absolute_path ok_host "/srv/gone//" = None
  ∧ run_tool ok_host warden_stop_project (Some (with_path "/srv/gone//")) shop_world
    = (Throw (new_Error ("Project directory does not exist: " ++
                         absolute_path ok_host "/srv/gone//")), shop_world).
Proof.
  split; [reflexivity|]. split; [reflexivity|]. split; [vm_compute; reflexivity|].
  apply (missing_directory_is_refused ok_host warden_stop_project
           (with_path "/srv/gone//") shop_world "/srv/gone//");
    [reflexivity | reflexivity | vm_compute; reflexivity | left; reflexivity].
Defined.

(** C4 fails as stated: the project initializer, given a path that is not
    on disk, creates it and spawns [warden env init]; the unit test tool
    with an explicit configuration file spawns its command in the missing
    directory; a lifecycle tool returns no envelope. *)
Lemma missing_directory_counterexample :
  fs shop_world !! resolve (cwd ok_host) "/srv/new" = None
  ∧ (∃ env, (run_tool ok_host warden_init_project (Some init_new) shop_world).1 = Ok env
            ∧ isError env = false)
  ∧ runner_calls (run_tool ok_host warden_init_project (Some init_new) shop_world).2
    = [mkInv "warden" (lits ["env"; "init"; "shop"; "magento2"]) "/srv/new"]
  ∧ fs shop_world !! absolute_path ok_host "/srv/gone" = None
  ∧ runner_calls (run_tool ok_host warden_run_unit_tests (Some unit_gone) shop_world).2
    = [mkInv "warden"
         (lits ["env"; "exec"; "-T"; "php-fpm"; "php"; "vendor/phpunit/phpunit/phpunit";
                "-c"; "phpunit.xml"])
         "/srv/gone"]
  ∧ ¬ (∃ env,
         (run_tool ok_host warden_start_project (Some (with_path "/srv/gone")) shop_world).1
         = Ok env).
Proof.
  split; [vm_compute; reflexivity|].
  split; [eexists; split; vm_compute; reflexivity|].
  split; [vm_compute; reflexivity|]. split; [vm_compute; reflexivity|].
  split; [vm_compute; reflexivity|].
  intros [env H]. vm_compute in H. discriminate.
Qed.

(** ** One call, how many processes *)

Lemma executeCommand_calls (h : Host) (cmd : jstr) (argv : list (option jstr))
    (dir : jstr) (w : World) :
  runner_calls (executeCommand h cmd argv dir w).2
  = runner_calls w ++ [mkInv cmd argv dir]
  ∧ shell_calls (executeCommand h cmd argv dir w).2 = shell_calls w.
Proof.
  unfold executeCommand, runner_calls, shell_calls.
  destruct (spawn_throws h _ (fs w)) as [x|];
    [|destruct (child h (trace w) _ (fs w)) as [evs fs']; destruct (run_events evs)];
    simpl; rewrite !omap_app; simpl; by rewrite ?app_nil_r.
Qed.

Lemma executeCommand_calls_eq (h : Host) (cmd : jstr) (argv : list (option jstr))
    (dir : jstr) (w w' : World) (r : Res CommandResult) :
  executeCommand h cmd argv dir w = (r, w') →
  runner_calls w' = runner_calls w ++ [mkInv cmd argv dir]
  ∧ shell_calls w' = shell_calls w.
Proof.
  intros H. pose proof (executeCommand_calls h cmd argv dir w) as Hc.
  by rewrite H in Hc.
Qed.

Lemma existsSync_true (p : jstr) (w : World) :
  is_Some (fs w !! p) → existsSync p w = (Ok true, w).
Proof. intros H. unfold existsSync. by rewrite bool_decide_eq_true_2. Qed.

(** ** The database query *)

(** C9. The database query tool, called with an existing project path,
    the query [SELECT 1] and the database [magento] (or none), runs
    [warden] with the vector [env exec -T db mysql -u root -pmagento
    magento -e "SELECT 1"] in the project directory; when that process
    resolves with exit code 0 the envelope has [isError = false]. *)
Theorem db_query_vector (h : Host) (a : Args) (w w1 : World) (p : jstr)
    (r : CommandResult) :
  project_path a = Some p → truthy (Some p) = true →
  is_Some (fs w !! absolute_path h p) →
  query a = Some ("SELECT 1" : jstr) →
  database a = Some ("magento" : jstr) ∨ database a = None →
  executeCommand h "warden" db_vector (absolute_path h p) w = (Ok r, w1) →
  code r = Some 0%Z →
  db_query_command a = db_vector
  ∧ ∃ env, run_tool h warden_db_query (Some a) w = (Ok env, w1) ∧ isError env = false
           ∧ runner_calls w1
             = runner_calls w ++ [mkInv "warden" db_vector (absolute_path h p)].
Proof.
  intros Hp Ht Hfs Hq Hd Hrun Hcode.
  assert (db_query_command a = db_vector) as Hv.
  { unfold db_query_command. rewrite Hq. by destruct Hd as [-> | ->]. }
  split; [done|].
  simpl. unfold runDbQuery. rewrite destructure_given. unfold executeWardenCommand.
  rewrite Hv, Hp, Ht. simpl.
  unfold bind at 1. rewrite existsSync_true by done. simpl.
  unfold try_catch, bind. rewrite Hrun. unfold ret.
  eexists. split; [reflexivity|]. simpl. rewrite Hcode. split; [done|].
  by apply executeCommand_calls_eq in Hrun as [? ?].
Qed.

Lemma db_query_vector_witness :
  ∃ env w1,
    run_tool ok_host warden_db_query (Some select_one) shop_world = (Ok env, w1)
    ∧ isError env = false
    ∧ runner_calls w1 = runner_calls shop_world ++ [mkInv "warden" db_vector "/srv/shop"].
Proof.
  destruct (db_query_vector ok_host select_one shop_world
              (executeCommand ok_host "warden" db_vector "/srv/shop" shop_world).2
              "/srv/shop/" (mkResult "done" [] (Some 0%Z)))
    as [_ (env & H1 & H2 & H3)].
  - reflexivity.
  - reflexivity.
  - vm_compute. eauto.
  - reflexivity.
  - right. reflexivity.
  - vm_compute. reflexivity.
  - reflexivity.
  - exists env, (executeCommand ok_host "warden" db_vector "/srv/shop" shop_world).2.
    split; [exact H1|]. split; [exact H2|]. exact H3.
Defined.

Ltac run_step :=
  match goal with
  | |- context [executeCommand ?h ?c ?a ?d ?w] =>
      let r := fresh "r" in
      let w1 := fresh "w" in
      let E := fresh "E" in
      destruct (executeCommand h c a d w) as [r w1] eqn:E;
      apply executeCommand_calls_eq in E as [? ?]; destruct r
  | |- context [bool_decide ?P] => destruct (bool_decide P)
  | |- context [fs ?w !! ?p] => destruct (fs w !! p) as [[?|]|]
  | |- context [shell ?h ?c ?f] => destruct (shell h c f)
  | |- context [is_zero ?c] => destruct (is_zero c)
  | |- context [includes ?a ?b] => destruct (includes a b)
  | |- context [is_empty ?a] => destruct (is_empty a)
  | |- context [truthy ?a] => destruct (truthy a)
  end; simpl.

Ltac count_calls :=
  unfold call_shape, calls_between, shells_between, runner_calls, shell_calls in *;
  simpl in *;
  repeat match goal with
         | H : omap _ _ = _ |- _ =>
             rewrite ?omap_app in H; simpl in H; rewrite ?app_nil_r in H;
             rewrite H; clear H
         end;
  rewrite ?omap_app; simpl; rewrite ?length_app; simpl;
  repeat split; intros; try discriminate; lia.

Ltac run_all := repeat run_step; try count_calls.

Lemma executeWardenCommand_shape (h : Host) (p : option jstr)
    (argv : list (option jstr)) (d : jstr) (w : World) :
  call_shape 1 true 0 w (executeWardenCommand h p argv d w).
Proof.
  unfold executeWardenCommand, bind, try_catch, existsSync, ret, throw.
  run_all.
Qed.

Lemma runUnitTests_shape (h : Host) (a : Args) (w : World) :
  call_shape 1 true 0 w (runUnitTests h (Some a) w).
Proof.
  unfold runUnitTests, destructure, bind, try_catch, existsSync, receiver, ret, throw.
  destruct (project_path a); run_all.
Qed.

Lemma listEnvironments_shape (h : Host) (w : World) :
  call_shape 1 true 0 w (listEnvironments h w).
Proof.
  unfold listEnvironments, bind, try_catch, ret, throw.
  run_all.
Qed.

Lemma runComposer_shape (h : Host) (a : Args) (w : World) :
  call_shape 4 false 0 w (runComposer h (Some a) w).
Proof.
  unfold runComposer, destructure, composer_exec, bind, try_catch, existsSync, ret, throw.
  run_all.
Qed.

Lemma initProject_shape (h : Host) (a : Args) (w : World) :
  call_shape 1 false 1 w (initProject h (Some a) w).
Proof.
  unfold initProject, destructure, property_of, resolve_arg, execSync, readFileSync,
    writeFileSync, bind, try_catch, existsSync, ret, throw.
  destruct (project_path a); run_all.
Qed.

Lemma run_tool_no_arguments (h : Host) (t : Tool) (w : World) :
  t ≠ warden_list_environments → ∃ e, run_tool h t None w = (Throw e, w).
Proof. destruct t; try done; intros _; eexists; reflexivity. Qed.

(** C6, as the code has it.  A tool call invokes the process runner at most
    once, the composer tool at most four times (two or three probes, then
    the requested command); a call that throws has invoked it not at all;
    and a call of a tool other than the composer tool and the project
    initializer that returns an envelope has invoked it exactly once.  The
    project initializer alone also runs a shell command, once at most. *)
Theorem runner_invocations_per_call (h : Host) (t : Tool) (arguments : option Args)
    (w : World) :
  (0 ≤ calls_between w (run_tool h t arguments w).2 ≤ call_limit t)%Z
  ∧ (∀ e, (run_tool h t arguments w).1 = Throw e →
          calls_between w (run_tool h t arguments w).2 = 0%Z)
  ∧ (∀ env, exactly_one t = true → (run_tool h t arguments w).1 = Ok env →
            calls_between w (run_tool h t arguments w).2 = 1%Z)
  ∧ (0 ≤ shells_between w (run_tool h t arguments w).2 ≤ shell_limit t)%Z.
Proof.
  destruct arguments as [a|].
  - destruct t; simpl;
      first [ apply executeWardenCommand_shape
            | apply (runUnitTests_shape h a w)
            | apply (listEnvironments_shape h w)
            | apply (runComposer_shape h a w)
            | apply (initProject_shape h a w) ].
  - destruct t; try apply (listEnvironments_shape h w);
      match goal with
      | |- context [run_tool h ?t None w] =>
          destruct (run_tool_no_arguments h t w ltac:(discriminate)) as [e E]; rewrite E
      end;
      unfold calls_between, shells_between; cbn [fst snd call_limit shell_limit];
      repeat split; intros; try discriminate; lia.
Qed.

Lemma runner_invocations_per_call_witness :
  ∃ env,
    (run_tool ok_host warden_stop_svc (Some (with_path "/srv/shop")) shop_world).1 = Ok env
    ∧ calls_between shop_world
        (run_tool ok_host warden_stop_svc (Some (with_path "/srv/shop")) shop_world).2 = 1%Z.
Proof.
  assert (∃ env, (run_tool ok_host warden_stop_svc (Some (with_path "/srv/shop")) shop_world).1
                 = Ok env) as [env Henv].
  { eexists. vm_compute. reflexivity. }
  exists env. split; [exact Henv|].
  exact (proj1 (proj2 (proj2 (runner_invocations_per_call ok_host warden_stop_svc
                                (Some (with_path "/srv/shop")) shop_world)))
           env eq_refl Henv).
Defined.

(** C6 fails as stated: where [composer2] is missing and [composer] is
    version 2, one composer call invokes the runner four times; and a
    lifecycle call without a project path invokes it not at all. *)
Lemma runner_invocations_counterexample :
  runner_calls
    (run_tool (composer_host "Composer version 2.5.8") warden_composer (Some composer_install)
       shop_world).2
  = [mkInv "warden" (php_fpm ["which"; "composer2"]) "/srv/shop";
     mkInv "warden" (php_fpm ["which"; "composer"]) "/srv/shop";
     mkInv "warden" (php_fpm ["composer"; "--version"]) "/srv/shop";
     mkInv "warden" (php_fpm ["composer"; "install"; "--no-dev"]) "/srv/shop"]
  ∧ (∃ env,
       (run_tool (composer_host "Composer version 2.5.8") warden_composer
          (Some composer_install) shop_world).1 = Ok env
       ∧ isError env = false)
  ∧ runner_calls (run_tool ok_host warden_start_project (Some no_args) shop_world).2 = [].
Proof.
  split; [vm_compute; reflexivity|].
  split; [eexists; split; vm_compute; reflexivity|].
  vm_compute; reflexivity.
Qed.

(** ** The composer probe *)

(** C5. Where [which composer2] fails, [which composer] succeeds and
    [composer --version] prints a text without the marker
    [composer version 2] (in any letter case), the composer tool returns an
    envelope with [isError = true] whose text says that Composer version 2
    is required and quotes the version found, after these three probes and
    nothing else: the requested command is not run. *)
Theorem composer_version_1_is_refused (h : Host) (a : Args) (p cmd : jstr)
    (w w1 w2 w3 : World) (r1 r2 r3 : CommandResult) :
  project_path a = Some p → truthy (Some p) = true →
  command a = Some cmd → truthy (Some cmd) = true →
  is_Some (fs w !! absolute_path h p) →
  executeCommand h "warden" probe_composer2 (absolute_path h p) w = (Ok r1, w1) →
  is_zero (code r1) = false →
  executeCommand h "warden" probe_composer (absolute_path h p) w1 = (Ok r2, w2) →
  is_zero (code r2) = true →
  executeCommand h "warden" probe_version (absolute_path h p) w2 = (Ok r3, w3) →
  is_zero (code r3) = true →
  includes "composer version 2" (toLowerCase (stdout r3)) = false →
  run_tool h warden_composer (Some a) w
  = (Ok (mkEnvelope
           [Text ("Composer version 2 is required!" ++ NL ++ NL ++
                  "Found: " ++ trim (stdout r3) ++ NL ++ NL ++
                  "Please install or upgrade to Composer version 2.")]
           true),
     w3)
  ∧ runner_calls w3
    = runner_calls w ++ [mkInv "warden" probe_composer2 (absolute_path h p);
                         mkInv "warden" probe_composer (absolute_path h p);
                         mkInv "warden" probe_version (absolute_path h p)].
Proof.
  intros Hp Ht Hc Htc Hfs E1 Z1 E2 Z2 E3 Z3 Hv.
  split.
  - cbn [run_tool]. unfold runComposer. rewrite destructure_given, Hp, Hc, Ht, Htc.
    cbn [negb from_option id]. unfold bind at 1.
    rewrite existsSync_true by done. cbn [negb].
    unfold try_catch, bind.
    fold probe_composer2 probe_composer probe_version.
    rewrite E1, Z1. cbn [negb]. rewrite E2, Z2. cbn [negb].
    rewrite E3, Z3. cbn [negb]. rewrite Hv. reflexivity.
  - apply executeCommand_calls_eq in E3 as [-> _].
    apply executeCommand_calls_eq in E2 as [-> _].
    apply executeCommand_calls_eq in E1 as [-> _].
    by rewrite <- !app_assoc.
Qed.

Lemma composer_version_1_is_refused_witness :
  (run_tool composer_v1_host warden_composer (Some composer_install) shop_world).1
  = Ok (mkEnvelope
          [Text ("Composer version 2 is required!" ++ NL ++ NL ++
                 "Found: Composer version 1.10.26 2022-04-13" ++ NL ++ NL ++
                 "Please install or upgrade to Composer version 2.")]
          true)
  ∧ runner_calls v1_world3
    = runner_calls shop_world ++ [mkInv "warden" probe_composer2 "/srv/shop";
                                  mkInv "warden" probe_composer "/srv/shop";
                                  mkInv "warden" probe_version "/srv/shop"].
Proof.
  destruct (composer_version_1_is_refused composer_v1_host composer_install
              "/srv/shop" "install  --no-dev" shop_world v1_world1 v1_world2 v1_world3
              (mkResult [] [] (Some 1%Z))
              (mkResult "/usr/bin/composer" [] (Some 0%Z))
              (mkResult "Composer version 1.10.26 2022-04-13" [] (Some 0%Z)))
    as (H1 & H3).
  - reflexivity.
  - reflexivity.
  - reflexivity.
  - reflexivity.
  - vm_compute. eauto.
  - vm_compute. reflexivity.
  - reflexivity.
  - vm_compute. reflexivity.
  - reflexivity.
  - vm_compute. reflexivity.
  - reflexivity.
  - vm_compute. reflexivity.
  - split; [|exact H3]. rewrite H1. reflexivity.
Defined.

(** ** The composer command line *)

Lemma split_plus_no_sep (p : ascii → bool) (s : jstr) (insep : bool) (tok : jstr) (c : ascii) :
  tok ∈ split_plus p insep s → c ∈ tok → p c = false.
Proof.
  revert insep tok. induction s as [|x s IH]; intros insep tok Htok Hc; simpl in Htok.
  - apply list_elem_of_singleton in Htok as ->. by apply not_elem_of_nil in Hc.
  - destruct (p x) eqn:Hx.
    + destruct insep.
      * by apply (IH true tok).
      * apply elem_of_cons in Htok as [-> | Htok].
        -- by apply not_elem_of_nil in Hc.
        -- by apply (IH true tok).
    + destruct (split_plus p false s) as [|l ls] eqn:Hs.
      * apply list_elem_of_singleton in Htok as ->.
        apply list_elem_of_singleton in Hc as ->. done.
      * apply elem_of_cons in Htok as [-> | Htok].
        -- apply elem_of_cons in Hc as [-> | Hc]; [done|].
           apply (IH false l); [rewrite Hs; left | done].
        -- apply (IH false tok); [rewrite Hs; by right | done].
Qed.

Lemma split_plus_concat (p : ascii → bool) (s : jstr) (insep : bool) :
  concat (split_plus p insep s) = filter (fun c => p c = false) s.
Proof.
  revert insep. induction s as [|x s IH]; intros insep; [done|].
  simpl. destruct (p x) eqn:Hx.
  - rewrite filter_cons_False by (by rewrite Hx).
    destruct insep; simpl; apply IH.
  - rewrite filter_cons_True by done.
    specialize (IH false). destruct (split_plus p false s) as [|l ls]; simpl in *.
    + by rewrite <- IH.
    + by rewrite <- IH.
Qed.

Lemma filter_drop_while_space (s : jstr) :
  filter (fun c => is_space c = false) (drop_while is_space s)
  = filter (fun c => is_space c = false) s.
Proof.
  induction s as [|x s IH]; [done|]. simpl.
  destruct (is_space x) eqn:Hx; [|done].
  by rewrite filter_cons_False by (by rewrite Hx).
Qed.

Lemma filter_rev_jstr (P : ascii → Prop) `{!∀ c, Decision (P c)} (s : jstr) :
  filter P (rev s) = rev (filter P s).
Proof.
  induction s as [|x s IH]; [done|]. simpl.
  rewrite filter_app, IH.
  destruct (decide (P x)).
  - rewrite filter_cons_True by done. by rewrite filter_cons_True by done.
  - rewrite filter_cons_False by done. rewrite filter_cons_False by done.
    by rewrite app_nil_r.
Qed.

Lemma filter_trim (s : jstr) :
  filter (fun c => is_space c = false) (trim s)
  = filter (fun c => is_space c = false) s.
Proof.
  unfold trim.
  rewrite filter_rev_jstr, filter_drop_while_space, filter_rev_jstr, rev_involutive.
  apply filter_drop_while_space.
Qed.

Lemma command_parts_spec (cmd : jstr) :
  (∀ tok c, tok ∈ command_parts cmd → c ∈ tok → is_space c = false)
  ∧ concat (command_parts cmd) = filter (fun c => is_space c = false) cmd.
Proof.
  split.
  - intros tok c. apply split_plus_no_sep.
  - unfold command_parts. rewrite split_plus_concat. apply filter_trim.
Qed.

Lemma composer_exec_calls (h : Host) (exe cmd dir : jstr) (w : World) :
  runner_calls (composer_exec h exe cmd dir w).2
  = runner_calls w ++ [mkInv "warden" (composer_command exe cmd) dir].
Proof.
  unfold composer_exec, bind.
  destruct (executeCommand h _ _ _ w) as [r w1] eqn:E.
  apply executeCommand_calls_eq in E as [E _]. by destruct r.
Qed.

Lemma drop_while_all_space (lead s : jstr) :
  all_space lead → drop_while is_space (lead ++ s) = drop_while is_space s.
Proof.
  induction 1 as [|c lead Hc _ IH]; [done|]. simpl. by rewrite Hc.
Qed.

Lemma drop_while_head (c : ascii) (s : jstr) :
  is_space c = false → drop_while is_space (c :: s) = c :: s.
Proof. intros H. simpl. by rewrite H. Qed.

Lemma token_head (t : jstr) :
  token t → ∃ c t', t = c :: t' ∧ is_space c = false.
Proof.
  intros [Hne Hns]. destruct t as [|c t']; [done|].
  exists c, t'. split; [done|]. by inversion Hns.
Qed.

Lemma token_last (t : jstr) :
  token t → ∃ t' c, t = t' ++ [c] ∧ is_space c = false.
Proof.
  intros [Hne Hns]. induction t as [|c t' _] using rev_ind; [done|].
  exists t', c. split; [done|].
  apply Forall_app in Hns as [_ Hc]. by inversion Hc.
Qed.

Lemma weave_head (t1 : jstr) (rest : list (jstr * jstr)) :
  token t1 → ∃ c s, weave t1 rest = c :: s ∧ is_space c = false.
Proof.
  intros (c & t' & -> & Hc)%token_head. destruct rest; simpl; eauto.
Qed.

Lemma weave_last (t1 : jstr) (rest : list (jstr * jstr)) :
  token t1 → Forall (fun st => token st.2) rest →
  ∃ s c, weave t1 rest = s ++ [c] ∧ is_space c = false.
Proof.
  revert t1. induction rest as [|[sep t] rest IH]; intros t1 Ht Hrest; simpl.
  - rewrite app_nil_r. by apply token_last.
  - inversion Hrest as [|? ? Ht' Hrest']; subst. simpl in Ht'.
    destruct (IH t Ht' Hrest') as (s & c & -> & Hc).
    exists (t1 ++ sep ++ s), c. by rewrite <- !app_assoc.
Qed.

Lemma trim_padded (lead body trail : jstr) (c d : ascii) (mid : jstr) :
  all_space lead → all_space trail →
  body = c :: mid → (∃ mid', body = mid' ++ [d]) →
  is_space c = false → is_space d = false →
  trim (lead ++ body ++ trail) = body.
Proof.
  intros Hl Ht Hb [mid' Hb'] Hc Hd. unfold trim.
  rewrite drop_while_all_space by done.
  rewrite Hb at 1. rewrite <- app_comm_cons, drop_while_head by done.
  rewrite app_comm_cons, <- Hb, rev_app_distr.
  rewrite drop_while_all_space by (by apply Forall_rev).
  rewrite Hb' at 1. rewrite rev_app_distr. simpl.
  rewrite Hd. change (d :: rev mid') with (rev [d] ++ rev mid').
  by rewrite <- rev_app_distr, <- Hb', rev_involutive.
Qed.

Lemma split_plus_not_nil (p : ascii → bool) (insep : bool) (s : jstr) :
  split_plus p insep s ≠ [].
Proof.
  revert insep. induction s as [|c s IH]; intros insep; simpl; [done|].
  destruct (p c); [destruct insep; [apply IH | done]|].
  by destruct (split_plus p false s).
Qed.

Lemma split_plus_token (p : ascii → bool) (t rest : jstr) :
  Forall (fun c => p c = false) t →
  split_plus p false (t ++ rest)
  = match split_plus p false rest with
    | l :: ls => (t ++ l) :: ls
    | [] => [t]
    end.
Proof.
  induction 1 as [|c t Hc _ IH]; simpl.
  - pose proof (split_plus_not_nil p false rest).
    by destruct (split_plus p false rest).
  - rewrite Hc, IH. by destruct (split_plus p false rest).
Qed.

Lemma split_plus_separator (p : ascii → bool) (sep rest : jstr) :
  Forall (fun c => p c = true) sep →
  split_plus p true (sep ++ rest) = split_plus p true rest.
Proof. induction 1 as [|c sep Hc _ IH]; simpl; [done|]. by rewrite Hc. Qed.

Lemma split_plus_after_separator (p : ascii → bool) (c : ascii) (s : jstr) :
  p c = false → split_plus p true (c :: s) = split_plus p false (c :: s).
Proof. intros Hc. simpl. by rewrite Hc. Qed.

Lemma split_plus_weave (t1 : jstr) (rest : list (jstr * jstr)) :
  token t1 → Forall (fun st => separator st.1 ∧ token st.2) rest →
  split_plus is_space false (weave t1 rest) = t1 :: (snd <$> rest).
Proof.
  revert t1. induction rest as [|[sep t] rest IH]; intros t1 Ht Hrest; simpl.
  - rewrite split_plus_token by apply Ht. simpl. by rewrite app_nil_r.
  - inversion Hrest as [|? ? [[Hne Hsep] Ht'] Hrest']; subst. simpl in *.
    rewrite split_plus_token by apply Ht.
    destruct sep as [|c sep]; [done|]. inversion Hsep as [|? ? Hc Hsep']; subst.
    simpl. rewrite Hc. rewrite split_plus_separator by done.
    destruct (weave_head t rest Ht') as (x & s & Hw & Hx).
    rewrite Hw, split_plus_after_separator, <- Hw by done.
    rewrite IH by done. by rewrite app_nil_r.
Qed.

Lemma command_parts_weave (lead trail t1 : jstr) (rest : list (jstr * jstr)) :
  all_space lead → all_space trail → token t1 →
  Forall (fun st => separator st.1 ∧ token st.2) rest →
  command_parts (lead ++ weave t1 rest ++ trail) = t1 :: (snd <$> rest).
Proof.
  intros Hl Ht Ht1 Hrest. unfold command_parts.
  destruct (weave_head t1 rest Ht1) as (c & s & Hw & Hc).
  destruct (weave_last t1 rest Ht1) as (s' & d & Hw' & Hd).
  { eapply Forall_impl; [exact Hrest|]. by intros ? [_ ?]. }
  rewrite (trim_padded lead (weave t1 rest) trail c d s) by eauto.
  by apply split_plus_weave.
Qed.

(** C10. In a composer call that passes the probe (through [composer2],
    or through a [composer] of version 2), the last process run is [warden
    env exec -T php-fpm <composer> <tokens>], where the tokens come from
    the command string trimmed and split at every run of white space: for
    a command made of tokens separated by runs of white space, with white
    space around it, they are exactly these tokens, each an element of its
    own; and no element ever contains a white space character, so an
    argument with a space in it is split whatever quotes surround it. *)
Theorem composer_command_is_split (h : Host) (a : Args) (p cmd : jstr) (w : World) :
  project_path a = Some p → truthy (Some p) = true →
  command a = Some cmd → truthy (Some cmd) = true →
  is_Some (fs w !! absolute_path h p) →
  (∀ tok c, tok ∈ command_parts cmd → c ∈ tok → is_space c = false)
  ∧ (∀ lead trail t1 rest,
       cmd = lead ++ weave t1 rest ++ trail →
       all_space lead → all_space trail → token t1 →
       Forall (fun st => separator st.1 ∧ token st.2) rest →
       command_parts cmd = t1 :: (snd <$> rest))
  ∧ (∀ r1 w1,
       executeCommand h "warden" probe_composer2 (absolute_path h p) w = (Ok r1, w1) →
       is_zero (code r1) = true →
       runner_calls (run_tool h warden_composer (Some a) w).2
       = runner_calls w ++
         [mkInv "warden" probe_composer2 (absolute_path h p);
          mkInv "warden"
            (lits ["env"; "exec"; "-T"; "php-fpm"; "composer2"]
             ++ (Some <$> command_parts cmd))
            (absolute_path h p)])
  ∧ (∀ r1 w1 r2 w2 r3 w3,
       executeCommand h "warden" probe_composer2 (absolute_path h p) w = (Ok r1, w1) →
       is_zero (code r1) = false →
       executeCommand h "warden" probe_composer (absolute_path h p) w1 = (Ok r2, w2) →
       is_zero (code r2) = true →
       executeCommand h "warden" probe_version (absolute_path h p) w2 = (Ok r3, w3) →
       is_zero (code r3) = true →
       includes "composer version 2" (toLowerCase (stdout r3)) = true →
       runner_calls (run_tool h warden_composer (Some a) w).2
       = runner_calls w ++
         [mkInv "warden" probe_composer2 (absolute_path h p);
          mkInv "warden" probe_composer (absolute_path h p);
          mkInv "warden" probe_version (absolute_path h p);
          mkInv "warden"
            (lits ["env"; "exec"; "-T"; "php-fpm"; "composer"]
             ++ (Some <$> command_parts cmd))
            (absolute_path h p)]).
Proof.
  intros Hp Ht Hc Htc Hfs.
  split; [apply command_parts_spec|].
  split; [intros lead trail t1 rest ->; apply command_parts_weave|].
  assert (∀ w0, run_tool h warden_composer (Some a) w0 = runComposer h (Some a) w0)
    as Hrun by done.
  split.
  - intros r1 w1 E1 Z1. rewrite Hrun. unfold runComposer.
    rewrite destructure_given, Hp, Hc, Ht, Htc. cbn [negb from_option id]. unfold bind at 1.
    rewrite existsSync_true by done. cbn [negb].
    unfold try_catch, bind at 1. fold probe_composer2. rewrite E1, Z1. cbn [negb].
    pose proof (composer_exec_calls h "composer2" cmd (absolute_path h p) w1) as Hx.
    destruct (composer_exec h "composer2" cmd (absolute_path h p) w1) as [[env|e|] wx];
      simpl in *; rewrite Hx;
      apply executeCommand_calls_eq in E1 as [-> _];
      by rewrite <- app_assoc.
  - intros r1 w1 r2 w2 r3 w3 E1 Z1 E2 Z2 E3 Z3 Hv. rewrite Hrun. unfold runComposer.
    rewrite destructure_given, Hp, Hc, Ht, Htc. cbn [negb from_option id]. unfold bind at 1.
    rewrite existsSync_true by done. cbn [negb].
    unfold try_catch. unfold bind at 1.
    fold probe_composer2 probe_composer probe_version.
    rewrite E1, Z1. cbn [negb]. unfold bind at 1. rewrite E2, Z2. cbn [negb].
    unfold bind at 1. rewrite E3, Z3. cbn [negb]. rewrite Hv. cbn [negb].
    pose proof (composer_exec_calls h "composer" cmd (absolute_path h p) w3) as Hx.
    destruct (composer_exec h "composer" cmd (absolute_path h p) w3) as [[env|e|] wx];
      simpl in *; rewrite Hx;
      apply executeCommand_calls_eq in E3 as [-> _];
      apply executeCommand_calls_eq in E2 as [-> _];
      apply executeCommand_calls_eq in E1 as [-> _];
      by rewrite <- !app_assoc.
Qed.

(** C10, on an example: the quoted argument ['my shop'] reaches composer
    as the two elements ['my] and [shop']. *)
Lemma composer_command_is_split_witness :
  runner_calls (run_tool composer2_host warden_composer (Some quoted_config) shop_world).2
  = runner_calls shop_world ++
    [mkInv "warden" probe_composer2 "/srv/shop";
     mkInv "warden"
       (lits ["env"; "exec"; "-T"; "php-fpm"; "composer2"; "config"; "name"; "'my"; "shop'"])
       "/srv/shop"].
Proof.
  destruct (composer_command_is_split composer2_host quoted_config "/srv/shop"
              " config  name 'my shop' " shop_world)
    as (_ & Hw & H1 & _).
  - reflexivity.
  - reflexivity.
  - reflexivity.
  - reflexivity.
  - vm_compute. eauto.
  - rewrite (H1 (mkResult "done" [] (Some 0%Z))
               (executeCommand composer2_host "warden" probe_composer2 "/srv/shop"
                  shop_world).2);
      [|vm_compute; reflexivity|reflexivity].
    rewrite (Hw " " " " "config" [("  " : jstr, "name" : jstr);
                                  (" " : jstr, "'my" : jstr);
                                  (" " : jstr, "shop'" : jstr)]).
    + reflexivity.
    + reflexivity.
    + repeat constructor.
    + repeat constructor.
    + split; [done|]. repeat constructor.
    + repeat (constructor; [split; split; [done | repeat constructor
                                          | done | repeat constructor]|]).
      constructor.
Defined.

(** ** The matcher on texts of a known shape *)

Lemma star_longest {R} (p : ascii → bool) (k : jstr → jstr → option R)
    (xs rest pre : jstr) (r : R) :
  Forall (fun c => p c = true) xs →
  match rest with [] => True | c :: _ => p c = false end →
  k (pre ++ xs) rest = Some r →
  star p k pre (xs ++ rest) = Some r.
Proof.
  intros Hxs Hrest. revert pre. induction Hxs as [|x xs Hx _ IH]; intros pre Hk.
  - rewrite app_nil_r in Hk. simpl. destruct rest as [|c rest']; simpl; [done|].
    by rewrite Hrest.
  - simpl. rewrite Hx. rewrite IH; [done|]. by rewrite <- app_assoc.
Qed.

Lemma starts_with_app (l s : jstr) : starts_with l (l ++ s) = true.
Proof.
  induction l as [|c l IH]; [done|]. simpl. rewrite IH.
  unfold ascii_eqb. by rewrite N.eqb_refl.
Qed.

Lemma run_lit (ml : bool) (l : jstr) (r : list rx_item) (gopen : option nat)
    (grp : option jstr) (start : nat) (pre s : jstr) :
  run ml (Lit l :: r) gopen grp start pre (l ++ s)
  = run ml r gopen grp start (pre ++ l) s.
Proof.
  simpl. rewrite starts_with_app.
  by rewrite take_app_length, drop_app_length.
Qed.

Lemma run_star (ml : bool) (p : ascii → bool) (r : list rx_item) (gopen : option nat)
    (grp : option jstr) (start : nat) (pre xs rest : jstr) (res : mresult) :
  Forall (fun c => p c = true) xs →
  match rest with [] => True | c :: _ => p c = false end →
  run ml r gopen grp start (pre ++ xs) rest = Some res →
  run ml (Star p :: r) gopen grp start pre (xs ++ rest) = Some res.
Proof. intros Hxs Hrest Hk. simpl. by apply star_longest. Qed.

Lemma run_plus (ml : bool) (p : ascii → bool) (r : list rx_item) (gopen : option nat)
    (grp : option jstr) (start : nat) (pre xs rest : jstr) (res : mresult) :
  xs ≠ [] → Forall (fun c => p c = true) xs →
  match rest with [] => True | c :: _ => p c = false end →
  run ml r gopen grp start (pre ++ xs) rest = Some res →
  run ml (Plus p :: r) gopen grp start pre (xs ++ rest) = Some res.
Proof.
  intros Hne Hxs Hrest Hk. destruct xs as [|x xs]; [done|].
  inversion Hxs as [|? ? Hx Hxs']; subst. simpl. rewrite Hx.
  apply star_longest; [done | done |]. by rewrite <- app_assoc.
Qed.

Lemma run_bol_start (ml : bool) (r : list rx_item) (gopen : option nat)
    (grp : option jstr) (start : nat) (s : jstr) :
  run ml (Bol :: r) gopen grp start [] s = run ml r gopen grp start [] s.
Proof. reflexivity. Qed.

Lemma run_gopen (ml : bool) (r : list rx_item) (gopen : option nat)
    (grp : option jstr) (start : nat) (pre s : jstr) :
  run ml (GOpen :: r) gopen grp start pre s
  = run ml r (Some (length pre)) grp start pre s.
Proof. reflexivity. Qed.

Lemma run_gclose (ml : bool) (r : list rx_item) (n : nat)
    (grp : option jstr) (start : nat) (pre s : jstr) :
  run ml (GClose :: r) (Some n) grp start pre s
  = run ml r (Some n) (Some (drop n pre)) start pre s.
Proof. reflexivity. Qed.

Lemma run_eol_end (ml : bool) (gopen : option nat) (grp : option jstr)
    (start : nat) (pre : jstr) :
  run ml [Eol] gopen grp start pre []
  = Some (MResult (take start pre) (drop start pre) grp []).
Proof. reflexivity. Qed.

Lemma run_bol (ml : bool) (r : list rx_item) (gopen : option nat)
    (grp : option jstr) (start : nat) (pre s : jstr) :
  run ml (Bol :: r) gopen grp start pre s
  = if at_bol ml pre then run ml r gopen grp start pre s else None.
Proof. reflexivity. Qed.

Lemma run_lit_test (ml : bool) (l : jstr) (r : list rx_item) (gopen : option nat)
    (grp : option jstr) (start : nat) (pre s : jstr) :
  run ml (Lit l :: r) gopen grp start pre s
  = if starts_with l s
    then run ml r gopen grp start (pre ++ take (length l) s) (drop (length l) s)
    else None.
Proof. reflexivity. Qed.

Lemma run_star_eq (ml : bool) (p : ascii → bool) (r : list rx_item)
    (gopen : option nat) (grp : option jstr) (start : nat) (pre s : jstr) :
  run ml (Star p :: r) gopen grp start pre s
  = star p (fun pre' s' => run ml r gopen grp start pre' s') pre s.
Proof. reflexivity. Qed.

(** Without the [m] flag a pattern that begins with [^] matches at the
    start of the text or not at all. *)
Lemma exec_from_anchored (rx : regex) (r : list rx_item) (c : ascii) (pre s : jstr) :
  items rx = Bol :: r → multiline rx = false →
  exec_from rx (pre ++ [c]) s = None.
Proof.
  intros Hi Hm. revert pre c. induction s as [|x s IH]; intros pre c; simpl;
    unfold match_here; rewrite Hi, Hm; simpl; unfold at_bol;
    rewrite last_snoc; simpl; [done|apply IH].
Qed.

Lemma exec_anchored (rx : regex) (r : list rx_item) (s : jstr) :
  items rx = Bol :: r → multiline rx = false →
  exec rx s = match_here rx [] s.
Proof.
  intros Hi Hm. unfold exec. destruct s as [|c s]; simpl.
  - by destruct (match_here rx [] []).
  - destruct (match_here rx [] (c :: s)); [done|].
    by apply (exec_from_anchored rx r c []).
Qed.

Lemma word_not_space (c : ascii) : is_word c = true → is_space c = false.
Proof.
  unfold is_word, is_space. intros H.
  destruct (9 <=? cu c)%N eqn:E1, (cu c <=? 13)%N eqn:E2, (cu c =? 32)%N eqn:E3,
    (cu c =? 160)%N eqn:E4; simpl; try done;
  repeat match goal with
         | H : (_ <=? _)%N = true |- _ => apply N.leb_le in H
         | H : (_ =? _)%N = true |- _ => apply N.eqb_eq in H
         end;
  repeat match type of H with
         | context [(?a <=? ?b)%N] => destruct (N.leb_spec a b)
         | context [(?a =? ?b)%N] => destruct (N.eqb_spec a b)
         end; simpl in H; try done; lia.
Qed.

Lemma space_not_word (c : ascii) : is_space c = true → is_word c = false.
Proof.
  intros H. destruct (is_word c) eqn:E; [|done].
  apply word_not_space in E. congruence.
Qed.

Lemma head_not (p q : ascii → bool) (s rest : jstr) :
  s ≠ [] → Forall (fun c => q c = true) s → (∀ c, q c = true → p c = false) →
  match s ++ rest with [] => True | c :: _ => p c = false end.
Proof.
  intros Hne Hs Hpq. destruct s as [|c s]; [done|]. simpl.
  inversion Hs; subst. by apply Hpq.
Qed.

Lemma project_re_matches (lead nm s1 s2 ty s3 : jstr) :
  all_space lead → is_word_str nm → separator s1 → separator s2 →
  is_word_str ty → separator s3 →
  exec project_re (name_shape lead nm s1 s2 ty s3)
  = Some (MResult [] (name_shape lead nm s1 s2 ty s3) (Some nm) []).
Proof.
  intros Hl [Hn1 Hn2] [Hs1 Hs1'] [Hs2 Hs2'] [Ht1 Ht2] [Hs3 Hs3'].
  rewrite (exec_anchored project_re _ _ eq_refl eq_refl).
  unfold match_here, project_re, name_shape. cbn [items multiline length].
  rewrite run_bol_start.
  apply run_star; [done | by apply (head_not is_space is_word), word_not_space |].
  rewrite run_gopen.
  apply run_plus; [done | done | by apply (head_not is_word is_space), space_not_word |].
  rewrite run_gclose.
  apply run_plus; [done | done | reflexivity |].
  rewrite (run_lit false "a").
  apply run_plus; [done | done | by apply (head_not is_space is_word), word_not_space |].
  apply run_plus; [done | done | by apply (head_not is_word is_space), space_not_word |].
  apply run_plus; [done | done | reflexivity |].
  rewrite <- (app_nil_r (String.list_ascii_of_string "project")) at 2.
  rewrite (run_lit false "project"), run_eol_end.
  cbn [app]. rewrite drop_app_length, take_0, drop_0.
  by rewrite <- !app_assoc.
Qed.

Lemma directory_re_matches (lead ws p : jstr) :
  all_space lead → all_space ws → is_path_str p →
  exec directory_re (dir_shape lead ws p)
  = Some (MResult [] (dir_shape lead ws p) (Some p) []).
Proof.
  intros Hl Hw [(c & p' & Hp & Hc) Hdot].
  rewrite (exec_anchored directory_re _ _ eq_refl eq_refl).
  unfold match_here, directory_re, dir_shape. cbn [items multiline length].
  rewrite run_bol_start.
  apply run_star; [done | reflexivity |].
  rewrite (run_lit false "Project Directory:").
  apply run_star; [done | by rewrite Hp |].
  rewrite run_gopen.
  rewrite <- (app_nil_r p) at 1.
  apply run_plus; [by rewrite Hp | done | done |].
  rewrite run_gclose, run_eol_end.
  cbn [app]. rewrite drop_app_length, take_0, drop_0.
  by rewrite <- !app_assoc.
Qed.

Lemma star_none_after {R} (p : ascii → bool) (k : jstr → jstr → option R)
    (lead x : jstr) :
  (∀ pre, star p k pre x = None) →
  (∀ pre c s, p c = true → k pre (c :: s) = None) →
  Forall (fun c => p c = true) lead →
  ∀ pre, star p k pre (lead ++ x) = None.
Proof.
  intros Hx Hk. induction 1 as [|c lead Hc _ IH]; intros pre; [apply Hx|].
  simpl. rewrite Hc, IH. by apply Hk.
Qed.

(** The name pattern does not match a line that begins with the word
    [Project] followed by another word than [a]. *)
Lemma project_re_rejects_label (lead label tail : jstr) :
  all_space lead →
  label = "Project Directory:" ∨ label = "Project URL:" →
  exec project_re (lead ++ label ++ tail) = None.
Proof.
  intros Hl Hlabel.
  rewrite (exec_anchored project_re _ _ eq_refl eq_refl).
  unfold match_here, project_re. cbn [items multiline length].
  rewrite run_bol_start. cbn [run].
  apply star_none_after; [| |done].
  - intros pre. destruct Hlabel as [-> | ->]; vm_compute; reflexivity.
  - intros pre c s Hc. by rewrite (space_not_word c).
Qed.

Lemma directory_re_rejects_url (lead tail : jstr) :
  all_space lead →
  exec directory_re (lead ++ "Project URL:" ++ tail) = None.
Proof.
  intros Hl.
  rewrite (exec_anchored directory_re _ _ eq_refl eq_refl).
  unfold match_here, directory_re. cbn [items multiline length].
  rewrite run_bol_start. cbn [run].
  apply star_none_after; [| |done].
  - intros pre. vm_compute. reflexivity.
  - intros pre c s Hc. destruct (starts_with _ (c :: s)) eqn:E; [|done].
    exfalso. revert E. simpl. unfold ascii_eqb.
    destruct (N.eqb_spec (cu "P") (cu c)) as [E|]; [|done].
    unfold is_space in Hc. rewrite <- E in Hc. done.
Qed.

(** ** The parser on well-formed blocks *)

Lemma parse_line_skip (st : ParseState) (l : jstr) :
  parse_line st l
  = if is_empty (trim l) || banner l then st
    else match exec project_re (clean l) with
         | Some projectMatch => mkParse (environments st) (Some (group1 projectMatch))
         | None =>
             match exec directory_re (clean l) with
             | Some directoryMatch =>
                 if truthy (currentProject st)
                 then mkParse (environments st ++
                                 [mkEnv (default [] (currentProject st))
                                        (group1 directoryMatch) l])
                              None
                 else st
             | None => st
             end
         end.
Proof. unfold parse_line, banner, clean. by rewrite orb_assoc. Qed.

Lemma clean_not_blank (l : jstr) : clean l ≠ [] → is_empty (trim l) = false.
Proof.
  unfold clean. destruct (trim l); [|done]. intros H. by destruct H.
Qed.

Lemma parse_line_name (st : ParseState) (l nm : jstr) :
  is_name_line l nm → parse_line st l = mkParse (environments st) (Some nm).
Proof.
  intros (Hb & lead & s1 & s2 & ty & s3 & Hc & Hl & Hn & H1 & H2 & Ht & H3).
  rewrite parse_line_skip, Hb, clean_not_blank.
  - rewrite Hc, project_re_matches by done. reflexivity.
  - rewrite Hc. unfold name_shape. destruct Hn as [Hn _].
    destruct lead, nm; done.
Qed.

Lemma parse_line_dir (st : ParseState) (l rem nm : jstr) :
  is_dir_line l rem → currentProject st = Some nm → nm ≠ [] →
  parse_line st l = mkParse (environments st ++ [mkEnv nm (trim rem) l]) None.
Proof.
  intros (Hb & lead & ws & p & Hc & -> & Hl & Hw & Hp & (p' & d & Hp' & Hd)) Hcur Hnm.
  assert (trim (ws ++ p) = p) as Htrim.
  { destruct Hp as [(c & p'' & Hp & Hc') _].
    rewrite <- (app_nil_r p) at 1.
    apply (trim_padded ws p [] c d p''); eauto. constructor. }
  rewrite parse_line_skip, Hb, clean_not_blank.
  - rewrite Hc, project_re_rejects_label by eauto.
    change (lead ++ "Project Directory:" ++ ws ++ p) with (dir_shape lead ws p).
    rewrite directory_re_matches by done.
    rewrite Hcur, Htrim. destruct nm; done.
  - rewrite Hc. destruct lead; done.
Qed.

Lemma parse_line_other (st : ParseState) (l : jstr) :
  is_other_line l → parse_line st l = st.
Proof.
  intros [H | [H | [H1 H2]]]; rewrite parse_line_skip.
  - by rewrite H.
  - rewrite H. by rewrite orb_true_r.
  - rewrite H1, H2. by destruct (is_empty (trim l) || banner l).
Qed.

Lemma parse_others (st : ParseState) (ls : list jstr) :
  Forall is_other_line ls → foldl parse_line st ls = st.
Proof.
  induction 1 as [|l ls Hl _ IH]; [done|]. simpl. by rewrite parse_line_other.
Qed.

Lemma parse_block (st : ParseState) (b : Block) :
  block_ok b →
  foldl parse_line st (block_lines b)
  = mkParse (environments st ++ [record_of b]) None.
Proof.
  intros (Hn & Hd & Ha). unfold block_lines. simpl.
  rewrite (parse_line_name st _ _ Hn).
  rewrite (parse_line_dir _ _ (b_rem b) (b_name b) Hd); [|done|].
  - by rewrite parse_others.
  - destruct Hn as (_ & ? & ? & ? & ? & ? & _ & _ & [? _] & _). done.
Qed.

Lemma parse_blocks (st : ParseState) (blocks : list Block) :
  Forall block_ok blocks → currentProject st = None →
  foldl parse_line st (concat (block_lines <$> blocks))
  = mkParse (environments st ++ (record_of <$> blocks)) None.
Proof.
  intros H. revert st. induction H as [|b blocks Hb _ IH]; intros st Hst.
  - simpl. rewrite app_nil_r. destruct st. simpl in Hst. by subst.
  - rewrite fmap_cons. cbn [concat]. rewrite foldl_app, parse_block by done.
    rewrite IH by done. simpl. by rewrite <- app_assoc.
Qed.

(** *** Blocks that are well-formed without their colours *)

Lemma trim_all_space (s : jstr) : all_space s → trim s = [].
Proof.
  intros H. unfold trim.
  rewrite <- (app_nil_r s), drop_while_all_space by done. done.
Qed.

Lemma drop_while_keeps (s : jstr) :
  Exists (fun c => is_space c = false) s → drop_while is_space s ≠ [].
Proof.
  induction 1 as [c s Hc | c s _ IH]; cbn [drop_while].
  - by rewrite Hc.
  - by destruct (is_space c).
Qed.

Lemma drop_while_exists (s : jstr) :
  Exists (fun c => is_space c = false) s →
  Exists (fun c => is_space c = false) (drop_while is_space s).
Proof.
  induction 1 as [c s Hc | c s H IH]; cbn [drop_while].
  - rewrite Hc. by left.
  - destruct (is_space c) eqn:E; [done|]. by left.
Qed.

Lemma trim_not_all_space (s : jstr) : ¬ all_space s → trim s ≠ [].
Proof.
  intros H. apply not_Forall_Exists in H; [|intros c; apply _].
  assert (Exists (fun c => is_space c = false) s) as Hex.
  { eapply Exists_impl; [exact H|]. intros c Hc. cbn in Hc. by destruct (is_space c). }
  unfold trim. intros E.
  apply (f_equal (@rev ascii)) in E. rewrite rev_involutive in E. cbn in E.
  revert E. apply drop_while_keeps.
  apply Exists_exists. apply drop_while_exists in Hex.
  apply Exists_exists in Hex as (c & Hin & Hc).
  exists c. split; [|done]. apply list_elem_of_In, in_rev.
  rewrite rev_involutive. by apply list_elem_of_In.
Qed.


Lemma drop_while_prefix (s : jstr) :
  ∃ ws, all_space ws ∧ s = ws ++ drop_while is_space s.
Proof.
  induction s as [|c s (ws & Hws & IH)]; [exists []; split; [constructor | done]|].
  cbn [drop_while]. destruct (is_space c) eqn:Hc.
  - exists (c :: ws). split; [by constructor|]. cbn [app]. by rewrite <- IH.
  - exists []. split; [constructor | done].
Qed.

Lemma drop_while_first (s t : jstr) (c : ascii) :
  drop_while is_space s = c :: t → is_space c = false.
Proof.
  induction s as [|x s IH]; [done|]. cbn [drop_while].
  destruct (is_space x) eqn:Hx; [done|]. by intros [= -> ->].
Qed.

(** A text is its trimmed text between two runs of white space; the
    trimmed text, when there is one, begins and ends with a character that
    is not white space. *)
Lemma trim_decompose (s : jstr) :
  ∃ ws trail, all_space ws ∧ all_space trail ∧ s = ws ++ trim s ++ trail.
Proof.
  unfold trim. destruct (drop_while_prefix s) as (ws & Hws & Hs).
  destruct (drop_while_prefix (rev (drop_while is_space s))) as (ws2 & Hws2 & Hr).
  exists ws, (rev ws2). split; [done|]. split; [by apply Forall_rev|].
  rewrite <- rev_app_distr, <- Hr, rev_involutive. exact Hs.
Qed.

Lemma trim_last (s : jstr) :
  trim s ≠ [] → ∃ mid d, trim s = mid ++ [d] ∧ is_space d = false.
Proof.
  unfold trim. intros Hne.
  destruct (drop_while is_space (rev (drop_while is_space s))) as [|d t] eqn:E; [done|].
  exists (rev t), d. split; [done|]. by apply (drop_while_first _ _ _ E).
Qed.

Lemma trim_first (s : jstr) :
  trim s ≠ [] → ∃ c mid, trim s = c :: mid ∧ is_space c = false.
Proof.
  intros Hne. destruct (trim s) as [|c mid] eqn:E; [done|]. exists c, mid. split; [done|].
  unfold trim in E.
  destruct (drop_while_prefix (rev (drop_while is_space s))) as (ws2 & Hws2 & Hr).
  apply (f_equal (@rev ascii)) in Hr. rewrite rev_involutive, rev_app_distr, E in Hr.
  cbn [app] in Hr. by apply (drop_while_first s (mid ++ rev ws2) c).
Qed.

Lemma well_formed_name_line_clean (l nm : jstr) :
  well_formed_name_line l nm → plainly_read l → is_name_line l nm.
Proof.
  intros (lead & s1 & s2 & ty & s3 & trail & Hs & Hl & Ht & Hn & H1 & H2 & Hty & H3)
    [Hb Hc].
  split; [done|]. exists [], s1, s2, ty, s3.
  refine (conj _ (conj _ (conj Hn (conj H1 (conj H2 (conj Hty H3)))))); [|constructor].
  rewrite Hc, Hs. unfold name_shape. rewrite <- app_assoc. cbn [app].
  destruct Hn as [Hn1 Hn2]. destruct nm as [|c nm']; [done|].
  apply (trim_padded lead _ trail c "t"%char
           (nm' ++ s1 ++ "a" ++ s2 ++ ty ++ s3 ++ "project")); try done.
  - exists ((c :: nm') ++ s1 ++ "a" ++ s2 ++ ty ++ s3 ++ "projec").
    rewrite <- !app_assoc. done.
  - apply word_not_space. by inversion Hn2.
Qed.

Lemma well_formed_dir_line_clean (l rem : jstr) :
  well_formed_dir_line l rem → plainly_read l →
  ∃ rem', is_dir_line l rem' ∧ trim rem' = trim rem.
Proof.
  intros (lead & Hs & Hl & Hrem & Hdot) [Hb Hc].
  pose proof (trim_not_all_space rem Hrem) as Hne.
  destruct (trim_decompose rem) as (ws & trail & Hws & Htrail & Hr).
  destruct (trim_first rem Hne) as (c & mid & Hfirst & Hcs).
  destruct (trim_last rem Hne) as (mid' & d & Hlast & Hds).
  assert (trim (ws ++ trim rem) = trim rem) as Htrim.
  { rewrite <- (app_nil_r (trim rem)) at 1.
    apply (trim_padded ws (trim rem) [] c d mid); eauto. constructor. }
  exists (ws ++ trim rem). split; [|done].
  split; [done|]. exists [], ws, (trim rem).
  split; [|repeat split; eauto; constructor].
  rewrite Hc, Hs. rewrite Hr at 1. cbn [app].
  change (lead ++ "Project Directory:" ++ ws ++ trim rem ++ trail)
    with (lead ++ ("Project Directory:" : jstr) ++ ws ++ trim rem ++ trail).
  replace (lead ++ ("Project Directory:" : jstr) ++ ws ++ trim rem ++ trail)
    with (lead ++ (("Project Directory:" : jstr) ++ ws ++ trim rem) ++ trail)
    by (by rewrite <- !app_assoc).
  apply (trim_padded lead _ trail "P"%char d ("roject Directory:" ++ ws ++ trim rem));
    try done.
  exists (("Project Directory:" : jstr) ++ ws ++ mid'). rewrite Hlast.
  by rewrite <- !app_assoc.
Qed.

Lemma other_line_skipped (ls : list jstr) :
  Forall other_line ls → Forall is_other_line ls.
Proof.
  intros Hall. eapply Forall_impl; [exact Hall|].
  intros l [H | [H | (Hc & H1 & H2)]]; [by left | by right; left |].
  right; right. by rewrite Hc.
Qed.

Lemma parse_well_formed_block (st : ParseState) (b : Block) :
  block_well_formed b →
  foldl parse_line st (block_lines b)
  = mkParse (environments st ++ [record_of b]) None.
Proof.
  intros (Hn & Hpn & Hd & Hpd & Ha).
  destruct (well_formed_dir_line_clean _ _ Hd Hpd) as (rem' & Hd' & Htrim).
  pose proof (parse_block st
                (mkBlock (b_name_line b) (b_name b) (b_dir_line b) rem' (b_after b))) as H.
  unfold block_lines, record_of, block_ok in *. cbn [b_name_line b_name b_dir_line b_rem
    b_after] in H. rewrite Htrim in H. apply H.
  split; [by apply well_formed_name_line_clean|]. split; [done|].
  by apply other_line_skipped.
Qed.

Lemma parse_well_formed_blocks_from (st : ParseState) (blocks : list Block) :
  Forall block_well_formed blocks → currentProject st = None →
  foldl parse_line st (concat (block_lines <$> blocks))
  = mkParse (environments st ++ (record_of <$> blocks)) None.
Proof.
  intros H. revert st. induction H as [|b blocks Hb _ IH]; intros st Hst.
  - simpl. rewrite app_nil_r. destruct st. simpl in Hst. by subst.
  - rewrite fmap_cons. cbn [concat]. rewrite foldl_app, parse_well_formed_block by done.
    rewrite IH by done. simpl. by rewrite <- app_assoc.
Qed.

(** C3, as the code has it.  A status text whose lines are some other
    lines (the banner), then [n] blocks, each a name line, its directory
    line and other lines (the URL line), the name and directory lines
    well-formed once their colour sequences are removed, holding no banner
    phrase and hiding no white space behind a colour sequence, parses to
    exactly [n] records in the order of the blocks: the name is the project
    name of the block's name line and the path is what follows the label on
    its directory line, trimmed. *)
Theorem parse_well_formed_blocks (output : jstr) (before : list jstr)
    (blocks : list Block) :
  split_on is_LF output = before ++ concat (block_lines <$> blocks) →
  Forall other_line before →
  Forall block_well_formed blocks →
  parseEnvironmentList output = record_of <$> blocks
  ∧ length (parseEnvironmentList output) = length blocks.
Proof.
  intros Hs Hbefore Hblocks.
  assert (parseEnvironmentList output = record_of <$> blocks) as ->.
  { unfold parseEnvironmentList. rewrite Hs, foldl_app.
    rewrite (parse_others _ before (other_line_skipped _ Hbefore)).
    by rewrite (parse_well_formed_blocks_from _ blocks Hblocks). }
  split; [done|]. by rewrite length_fmap.
Qed.

Ltac chars := cbv beta iota zeta delta [String.list_ascii_of_string]; repeat constructor.

Ltac not_blank :=
  let H := fresh "H" in
  intros H; unfold all_space in H;
  cbv beta iota zeta delta [String.list_ascii_of_string] in H;
  repeat (apply Forall_cons in H as [? H]);
  match goal with
  | X : is_space _ = true |- _ => by vm_compute in X
  end.

Lemma parse_well_formed_blocks_witness :
  parseEnvironmentList sample_status = record_of <$> status_blocks
  ∧ length (parseEnvironmentList sample_status) = 2.
Proof.
  apply (parse_well_formed_blocks sample_status
           ["Found the following 2 running environments:" : jstr] status_blocks).
  - vm_compute. reflexivity.
  - constructor; [|constructor]. right; left. vm_compute. reflexivity.
  - constructor; [|constructor; [|constructor]].
    + split; [|split; [|split; [|split]]].
      * exists ("    " : jstr), (" " : jstr), (" " : jstr), ("magento2" : jstr), (" " : jstr), [].
        split; [vm_compute; reflexivity|].
        repeat split; try done; chars.
      * split; vm_compute; reflexivity.
      * exists ("       " : jstr). split; [vm_compute; reflexivity|].
        split; [chars|]. split; [not_blank|]. vm_compute. repeat constructor.
      * split; vm_compute; reflexivity.
      * constructor; [|constructor]. right; right. repeat split; vm_compute; reflexivity.
    + split; [|split; [|split; [|split]]].
      * exists ("    " : jstr), (" " : jstr), (" " : jstr), ("wordpress" : jstr), (" " : jstr), [].
        split; [vm_compute; reflexivity|].
        repeat split; try done; chars.
      * split; vm_compute; reflexivity.
      * exists ("       " : jstr). split; [vm_compute; reflexivity|].
        split; [chars|]. split; [not_blank|]. vm_compute. repeat constructor.
      * split; vm_compute; reflexivity.
      * constructor; [|constructor; [|constructor]].
        -- right; right. repeat split; vm_compute; reflexivity.
        -- left. reflexivity.
Defined.

(** C3 fails as stated: the block below is well-formed, but its directory
    line holds a banner phrase and is skipped with the banner lines, so
    that no record is returned.  (And where a colour reset follows a space,
    the path is returned with that space.) *)
Lemma parse_blocks_counterexample :
  well_formed_name_line "shop a magento2 project" "shop"
  ∧ well_formed_dir_line "Project Directory: /srv/Found the following"
      " /srv/Found the following"
  ∧ parseEnvironmentList banner_path_status = []
  ∧ well_formed_dir_line ("Project Directory: " ++ [ESC] ++ "[33m/srv/shop " ++ [ESC] ++ "[0m")
      " /srv/shop "
  ∧ path <$> parseEnvironmentList reset_after_space_status = ["/srv/shop " : jstr].
Proof.
  split; [|split; [|split; [|split]]].
  - exists [], (" " : jstr), (" " : jstr), ("magento2" : jstr), (" " : jstr), [].
    split; [vm_compute; reflexivity|]. repeat split; try done; chars.
  - exists []. split; [vm_compute; reflexivity|].
    split; [chars|]. split; [not_blank|]. vm_compute. repeat constructor.
  - vm_compute. reflexivity.
  - exists []. split; [vm_compute; reflexivity|].
    split; [chars|]. split; [not_blank|]. vm_compute. repeat constructor.
  - vm_compute. reflexivity.
Qed.

(** A URL line is one of the other lines. *)
Lemma url_line_other (l lead tail : jstr) :
  all_space lead → clean l = lead ++ "Project URL:" ++ tail → is_other_line l.
Proof.
  intros Hl Hc. right; right. rewrite Hc. split.
  - apply project_re_rejects_label; [done | by right].
  - by apply directory_re_rejects_url.
Qed.

(** ** ANSI escape sequences *)

Lemma match_here_ansi_none (pre s : jstr) (c : ascii) :
  ascii_eqb ESC c = false → match_here ansi_re pre (c :: s) = None.
Proof.
  intros Hc. unfold match_here, ansi_re. cbn [items multiline].
  rewrite (run_lit_test false [ESC; "["%char]). cbn [starts_with].
  by rewrite Hc.
Qed.

Lemma exec_from_ansi_none (s pre : jstr) :
  no_esc s → exec_from ansi_re pre s = None.
Proof.
  intros H. revert pre. induction H as [|c s Hc _ IH]; intros pre; [done|].
  cbn [exec_from]. rewrite match_here_ansi_none by done. apply IH.
Qed.

(** A text without the escape character is left as it is. *)
Lemma strip_ansi_plain (s : jstr) : no_esc s → strip_ansi s = s.
Proof.
  intros H. unfold strip_ansi, replace_all. cbn [replace_all_go].
  by rewrite exec_from_ansi_none.
Qed.

Lemma drop_while_no_esc (s : jstr) : no_esc s → no_esc (drop_while is_space s).
Proof.
  induction 1 as [|c s Hc Hs IH]; [constructor|]. cbn [drop_while].
  destruct (is_space c); [done | by constructor].
Qed.

Lemma trim_no_esc (s : jstr) : no_esc s → no_esc (trim s).
Proof.
  intros H. unfold trim. apply Forall_rev, drop_while_no_esc, Forall_rev.
  by apply drop_while_no_esc.
Qed.

(** A line without the escape character satisfies [ansi_transparent]. *)
Lemma plain_line_transparent (l : jstr) : no_esc l → ansi_transparent l.
Proof.
  intros H. unfold ansi_transparent, clean.
  rewrite (strip_ansi_plain l H), (strip_ansi_plain (trim l) (trim_no_esc l H)).
  done.
Qed.

Lemma parse_line_view (st1 st2 : ParseState) (x y : jstr) :
  view st1 = view st2 → clean x = clean y → banner x = banner y →
  view (parse_line st1 x) = view (parse_line st2 y).
Proof.
  unfold view. intros [= He Hc] Hxy Hb. rewrite !parse_line_skip, <- Hb, <- Hxy.
  assert (is_empty (trim x) = true → clean x = []) as Hx.
  { unfold clean. by destruct (trim x). }
  assert (is_empty (trim y) = true → clean x = []) as Hy.
  { rewrite Hxy. unfold clean. by destruct (trim y). }
  assert (∀ st, match exec project_re [] with
                | Some m => mkParse (environments st) (Some (group1 m))
                | None =>
                    match exec directory_re [] with
                    | Some d =>
                        if truthy (currentProject st)
                        then mkParse (environments st ++
                                        [mkEnv (default [] (currentProject st)) (group1 d) y])
                                     None
                        else st
                    | None => st
                    end
                end = st) as Hnil1 by done.
  assert (∀ st, match exec project_re [] with
                | Some m => mkParse (environments st) (Some (group1 m))
                | None =>
                    match exec directory_re [] with
                    | Some d =>
                        if truthy (currentProject st)
                        then mkParse (environments st ++
                                        [mkEnv (default [] (currentProject st)) (group1 d) x])
                                     None
                        else st
                    | None => st
                    end
                end = st) as Hnil2 by done.
  destruct (is_empty (trim x)) eqn:Ex, (is_empty (trim y)) eqn:Ey, (banner x);
    cbn [orb]; try (by rewrite He, Hc).
  - rewrite (Hx eq_refl), Hnil1. by rewrite He, Hc.
  - rewrite (Hy eq_refl), Hnil2. by rewrite He, Hc.
  - destruct (exec project_re (clean x));
      [by cbn [environments currentProject]; rewrite He|].
    destruct (exec directory_re (clean x)); [|by rewrite He, Hc].
    rewrite Hc. destruct (truthy (currentProject st2)); [|by rewrite He, Hc].
    cbn [environments currentProject]. unfold names_paths in *.
    by rewrite !fmap_app, He.
Qed.

Lemma parse_lines_view (xs ys : list jstr) :
  Forall2 (fun x y => clean x = clean y ∧ banner x = banner y) xs ys →
  ∀ st1 st2, view st1 = view st2 →
  view (foldl parse_line st1 xs) = view (foldl parse_line st2 ys).
Proof.
  induction 1 as [|x y xs ys [Hc Hb] _ IH]; intros st1 st2 Hv; [done|].
  simpl. apply IH. by apply parse_line_view.
Qed.

(** C8, as the code has it.  Two texts whose lines are the same once the
    ANSI escape sequences are removed parse to records with the same names
    and paths in the same order, when on every line the sequences hide no
    white space from the trimming and no banner phrase from the banner
    test; the [raw] field of a record keeps the line of its own text. *)
Theorem parse_ignores_ansi (coded plain : jstr) :
  Forall2 (fun x y => strip_ansi x = strip_ansi y)
          (split_on is_LF coded) (split_on is_LF plain) →
  Forall ansi_transparent (split_on is_LF coded) →
  Forall ansi_transparent (split_on is_LF plain) →
  names_paths (parseEnvironmentList coded) = names_paths (parseEnvironmentList plain).
Proof.
  intros H2 Hc Hp. unfold parseEnvironmentList.
  assert (Forall2 (fun x y => clean x = clean y ∧ banner x = banner y)
            (split_on is_LF coded) (split_on is_LF plain)) as H.
  { revert Hc Hp. induction H2 as [|x y xs ys Hxy _ IH]; intros Hc Hp; [constructor|].
    inversion Hc as [|? ? [Hx1 Hx2] Hc']; inversion Hp as [|? ? [Hy1 Hy2] Hp']; subst.
    constructor; [|by apply IH].
    split; [by rewrite Hx1, Hy1, Hxy | by rewrite Hx2, Hy2, Hxy]. }
  pose proof (parse_lines_view _ _ H (mkParse [] None) (mkParse [] None) eq_refl) as Hv.
  unfold view in Hv. by injection Hv.
Qed.

Ltac eval_lines t :=
  let l := eval vm_compute in (split_on is_LF t) in
  change (split_on is_LF t) with l.

Lemma parse_ignores_ansi_witness :
  names_paths (parseEnvironmentList sample_status)
  = names_paths (parseEnvironmentList plain_status).
Proof.
  apply (parse_ignores_ansi sample_status plain_status);
    eval_lines sample_status; eval_lines plain_status.
  - repeat (constructor; [vm_compute; reflexivity|]). constructor.
  - repeat (constructor; [split; vm_compute; reflexivity|]). constructor.
  - repeat (constructor; [split; vm_compute; reflexivity|]). constructor.
Defined.

(** C8 fails as stated.  The two texts below have the same lines once the
    escape sequences are removed, but the coded one parses to no record:
    its name line is trimmed before the sequences are removed, keeps the
    space that preceded the colour reset, and the name pattern rejects it.
    And the records of [sample_status] and of its colourless version differ
    in their [raw] field. *)
Lemma parse_ansi_counterexample :
  strip_ansi <$> split_on is_LF coded_status
  = strip_ansi <$> split_on is_LF uncoded_status
  ∧ parseEnvironmentList coded_status = []
  ∧ parseEnvironmentList uncoded_status
    = [mkEnv "shop" "/srv/shop" "Project Directory: /srv/shop"]
  ∧ strip_ansi <$> split_on is_LF sample_status
    = strip_ansi <$> split_on is_LF plain_status
  ∧ parseEnvironmentList sample_status ≠ parseEnvironmentList plain_status.
Proof.
  split; [vm_compute; reflexivity|]. split; [vm_compute; reflexivity|].
  split; [vm_compute; reflexivity|]. split; [vm_compute; reflexivity|].
  intros H. vm_compute in H. discriminate.
Qed.

(** ** The rewriting of the [.env] file *)

Lemma get_substitution_plain (r : mresult) (repl : jstr) :
  Forall (fun c => ascii_eqb c "$" = false) repl → get_substitution r repl = repl.
Proof. induction 1 as [|c repl Hc _ IH]; [done|]. simpl. by rewrite Hc, IH. Qed.

Lemma star_dot_eol (start : nat) (grp : option jstr) (s pre : jstr) :
  star is_dot
    (fun pre' s' => run true [Eol] None grp start pre' s') pre s
  = Some (MResult (take start (pre ++ take (length s - length (drop_while is_dot s)) s))
                  (drop start (pre ++ take (length s - length (drop_while is_dot s)) s))
                  grp (drop_while is_dot s)).
Proof.
  revert pre. induction s as [|c s IH]; intros pre.
  - simpl. by rewrite app_nil_r.
  - cbn [star drop_while]. destruct (is_dot c) eqn:Hc.
    + rewrite IH. rewrite <- app_assoc. cbn [app].
      assert (length (drop_while is_dot s) ≤ length s) as Hle.
      { clear. induction s as [|x s IH]; simpl; [lia|]. destruct (is_dot x); simpl; lia. }
      replace (length (c :: s) - length (drop_while is_dot s))
        with (S (length s - length (drop_while is_dot s))) by (simpl; lia).
      done.
    + cbn [run at_eol]. unfold is_dot in Hc. apply negb_false_iff in Hc. rewrite Hc.
      cbn [andb length]. rewrite Nat.sub_diag, take_0, app_nil_r. done.
Qed.

Lemma at_bol_snoc (pre : jstr) (c : ascii) :
  at_bol true (pre ++ [c]) = is_line_terminator c.
Proof. unfold at_bol. by rewrite last_snoc. Qed.

Lemma match_here_env_key (k pre s : jstr) :
  match_here (env_key_re k) pre s
  = if at_bol true pre && starts_with (k ++ "=") s
    then Some (MResult pre
                 (take (length (k ++ "=")) s ++
                  take (length (drop (length (k ++ "=")) s) -
                        length (drop_while is_dot (drop (length (k ++ "=")) s)))
                       (drop (length (k ++ "=")) s))
                 None
                 (drop_while is_dot (drop (length (k ++ "=")) s)))
    else None.
Proof.
  unfold match_here, env_key_re. cbn [items multiline].
  rewrite run_bol. destruct (at_bol true pre); [|done]. cbn [andb].
  rewrite run_lit_test. destruct (starts_with (k ++ "=") s); [|done].
  rewrite run_star_eq, star_dot_eol.
  by rewrite <- app_assoc, take_app_length, drop_app_length.
Qed.

Lemma exec_from_env_key (k newl s pre : jstr) :
  (fun r => m_pre r ++ newl ++ m_post r) <$> exec_from (env_key_re k) pre s
  = (fun t => pre ++ t) <$> subst_key k newl (at_bol true pre) s.
Proof.
  revert pre. induction s as [|c s IH]; intros pre;
    cbn [exec_from subst_key]; rewrite match_here_env_key;
    destruct (at_bol true pre && starts_with (k ++ "=") _); try done.
  rewrite IH, at_bol_snoc.
  destruct (subst_key k newl (is_line_terminator c) s); cbn; [|done].
  by rewrite <- app_assoc.
Qed.

(** The loop body, on the text: the first line of the key replaced, or a
    line appended. *)
Lemma update_entry_subst (s k v : jstr) :
  Forall (fun c => ascii_eqb c "$" = false) (k ++ "=" ++ v) →
  update_entry s (k, v)
  = default (s ++ NL ++ k ++ "=" ++ v) (subst_key k (k ++ "=" ++ v) true s).
Proof.
  intros Hplain. unfold update_entry, replace_first, exec. cbn [fst snd].
  pose proof (exec_from_env_key k (k ++ "=" ++ v) s []) as H.
  destruct (exec_from (env_key_re k) [] s) as [r|];
    destruct (subst_key k (k ++ "=" ++ v) (at_bol true []) s) as [t|] eqn:E;
    cbn in H; try done; cbn in E; rewrite E.
  - rewrite get_substitution_plain by done. by injection H.
  - done.
Qed.

Lemma env_lines_not_nil (s : jstr) : env_lines s ≠ [].
Proof.
  unfold env_lines. induction s as [|c s IH]; simpl; [done|].
  destruct (is_line_terminator c); [done|]. by destruct (split_on _ s).
Qed.

Lemma env_lines_unfold (s : jstr) :
  env_lines s
  = take_line s :: match drop_while is_dot s with
                   | [] => []
                   | _ :: s' => env_lines s'
                   end.
Proof.
  unfold env_lines. induction s as [|c s IH]; [done|].
  cbn [split_on take_line drop_while].
  assert (is_dot c = negb (is_line_terminator c)) as -> by done.
  destruct (is_line_terminator c); cbn [negb]; [done|].
  by rewrite IH.
Qed.

Lemma env_lines_cons (c : ascii) (s : jstr) :
  env_lines (c :: s)
  = if is_line_terminator c then [] :: env_lines s
    else match env_lines s with
         | l :: ls => (c :: l) :: ls
         | [] => [[c]]
         end.
Proof. reflexivity. Qed.

Lemma env_lines_app_line (l rest : jstr) :
  one_line l →
  env_lines (l ++ rest)
  = match env_lines rest with
    | l' :: ls => (l ++ l') :: ls
    | [] => [l]
    end.
Proof.
  induction 1 as [|c l Hc _ IH].
  - cbn [app]. pose proof (env_lines_not_nil rest). by destruct (env_lines rest).
  - cbn [app]. rewrite env_lines_cons. unfold is_dot in Hc.
    apply negb_true_iff in Hc. rewrite Hc, IH.
    pose proof (env_lines_not_nil rest). by destruct (env_lines rest).
Qed.

Lemma env_lines_snoc_line (s l : jstr) (c : ascii) :
  is_line_terminator c = true → one_line l →
  env_lines (s ++ c :: l) = env_lines s ++ [l].
Proof.
  intros Hc Hl. induction s as [|x s IH].
  - cbn [app]. rewrite env_lines_cons, Hc.
    rewrite <- (app_nil_r l), env_lines_app_line by done. done.
  - cbn [app]. rewrite !env_lines_cons, IH.
    destruct (is_line_terminator x); [done|].
    pose proof (env_lines_not_nil s). by destruct (env_lines s).
Qed.

Lemma ascii_eqb_dot (x y : ascii) : ascii_eqb x y = true → is_dot y = is_dot x.
Proof.
  unfold ascii_eqb, is_dot, is_line_terminator. intros H%N.eqb_eq. by rewrite H.
Qed.

Lemma starts_with_take_line (p s : jstr) :
  one_line p → starts_with p s = starts_with p (take_line s).
Proof.
  intros Hp. revert s. induction Hp as [|x p Hx _ IH]; intros s; [done|].
  destruct s as [|c s]; [done|]. cbn [starts_with take_line].
  destruct (ascii_eqb x c) eqn:E; cbn [andb].
  - rewrite (ascii_eqb_dot x c E), Hx. cbn [starts_with]. by rewrite E, IH.
  - destruct (is_dot c); [|done]. cbn [starts_with]. by rewrite E.
Qed.

Lemma drop_while_drop_prefix (p s : jstr) :
  one_line p → starts_with p s = true →
  drop_while is_dot (drop (length p) s) = drop_while is_dot s.
Proof.
  intros Hp. revert s. induction Hp as [|x p Hx _ IH]; intros s Hs; [done|].
  destruct s as [|c s]; [done|]. cbn [starts_with] in Hs.
  apply andb_true_iff in Hs as [E Hs].
  cbn [length drop drop_while]. rewrite (ascii_eqb_dot x c E), Hx. by apply IH.
Qed.

Lemma subst_key_lines (k newl : jstr) :
  one_line (k ++ "=") → one_line newl →
  ∀ s,
    (env_lines <$> subst_key k newl false s
     = match env_lines s with
       | l0 :: rest => (fun R => l0 :: R) <$> replace_first_line k newl rest
       | [] => None
       end)
    ∧ env_lines <$> subst_key k newl true s = replace_first_line k newl (env_lines s).
Proof.
  intros Hk Hnew s. induction s as [|c s [IHf IHt]].
  - split; [done|]. cbn [subst_key andb]. unfold env_lines. cbn [split_on replace_first_line].
    unfold is_key_line.
    assert (starts_with (k ++ "=") [] = false) as -> by (by destruct k).
    done.
  - assert (env_lines <$> subst_key k newl false (c :: s)
            = match env_lines (c :: s) with
              | l0 :: rest => (fun R => l0 :: R) <$> replace_first_line k newl rest
              | [] => None
              end) as Hfalse.
    { cbn [subst_key andb]. rewrite env_lines_cons.
      destruct (is_line_terminator c) eqn:Hc.
      - rewrite <- IHt.
        destruct (subst_key k newl true s); cbn [fmap option_fmap option_map]; [|done].
        by rewrite env_lines_cons, Hc.
      - pose proof (env_lines_not_nil s) as Hne.
        destruct (env_lines s) as [|l0 rest] eqn:El; [done|].
        destruct (subst_key k newl false s) as [t|];
          cbn [fmap option_fmap option_map] in IHf |- *.
        + rewrite env_lines_cons, Hc.
          destruct (replace_first_line k newl rest);
            cbn [fmap option_fmap option_map] in IHf |- *; [|done].
          injection IHf as ->. done.
        + by destruct (replace_first_line k newl rest). }
    split; [exact Hfalse|].
    rewrite (env_lines_unfold (c :: s)). cbn [replace_first_line].
    unfold is_key_line. rewrite <- (starts_with_take_line _ _ Hk).
    cbn [subst_key]. cbn [andb].
    destruct (starts_with (k ++ "=") (c :: s)) eqn:Es.
    + cbn [fmap option_fmap option_map].
      rewrite (drop_while_drop_prefix _ _ Hk Es).
      f_equal. rewrite env_lines_app_line by done.
      destruct (drop_while is_dot (c :: s)) as [|x t] eqn:Ed.
      * unfold env_lines. cbn [split_on]. by rewrite app_nil_r.
      * assert (is_line_terminator x = true) as Hx.
        { clear -Ed. revert Ed. generalize (c :: s). intros u.
          induction u as [|y u IH]; [done|]. cbn [drop_while].
          destruct (is_dot y) eqn:Ey; [done|].
          intros [= -> ->]. unfold is_dot in Ey. by apply negb_false_iff in Ey. }
        rewrite env_lines_cons, Hx. by rewrite app_nil_r.
    + cbn [subst_key andb] in Hfalse. rewrite Hfalse.
      by rewrite (env_lines_unfold (c :: s)).
Qed.

Lemma word_is_dot (c : ascii) : is_word c = true → is_dot c = true.
Proof.
  unfold is_word, is_dot, is_line_terminator. intros H.
  destruct (N.eqb_spec (cu c) 10) as [E|]; [rewrite E in H; done|].
  destruct (N.eqb_spec (cu c) 13) as [E|]; [rewrite E in H; done|]. done.
Qed.

Lemma word_not_dollar (c : ascii) : is_word c = true → ascii_eqb c "$" = false.
Proof.
  unfold is_word, ascii_eqb. intros H.
  destruct (N.eqb_spec (cu c) (cu "$")) as [E|]; [|done].
  rewrite E in H. done.
Qed.

Lemma key_value_plain (k v : jstr) :
  is_word_str k → plain_value v →
  one_line (k ++ "=") ∧ one_line (k ++ "=" ++ v)
  ∧ Forall (fun c => ascii_eqb c "$" = false) (k ++ "=" ++ v).
Proof.
  intros [_ Hk] [Hv1 Hv2].
  assert (one_line k) as Hk1.
  { eapply Forall_impl; [exact Hk|]. apply word_is_dot. }
  assert (Forall (fun c => ascii_eqb c "$" = false) k) as Hk2.
  { eapply Forall_impl; [exact Hk|]. apply word_not_dollar. }
  split; [|split].
  - apply Forall_app. split; [done|]. by constructor.
  - apply Forall_app. split; [done|]. by constructor.
  - apply Forall_app. split; [done|]. by constructor.
Qed.

Lemma update_entry_lines (s k v : jstr) :
  is_word_str k → plain_value v →
  env_lines (update_entry s (k, v)) = set_line k v (env_lines s).
Proof.
  intros Hk Hv. destruct (key_value_plain k v Hk Hv) as (H1 & H2 & H3).
  rewrite update_entry_subst by done. unfold set_line.
  destruct (subst_key_lines k (k ++ "=" ++ v) H1 H2 s) as [_ <-].
  destruct (subst_key k (k ++ "=" ++ v) true s);
    cbn [fmap option_fmap option_map from_option id]; [done|].
  unfold NL. cbn [app]. by apply env_lines_snoc_line.
Qed.

Lemma update_env_lines (upd : list (jstr * jstr)) (s : jstr) :
  Forall (fun kv => is_word_str kv.1 ∧ plain_value kv.2) upd →
  env_lines (update_env s upd)
  = foldl (fun L kv => set_line kv.1 kv.2 L) (env_lines s) upd.
Proof.
  intros H. revert s. induction H as [|[k v] upd [Hk Hv] _ IH]; intros s; [done|].
  unfold update_env in *. cbn [foldl]. rewrite IH.
  by rewrite update_entry_lines.
Qed.

(** *** The updates, line by line *)

Lemma cu_inj (x y : ascii) : cu x = cu y → x = y.
Proof.
  unfold cu. intros H.
  by rewrite <- (ascii_N_embedding x), <- (ascii_N_embedding y), H.
Qed.

Lemma key_lines_disjoint (k k' l : jstr) :
  Forall (fun c => is_word c = true) k → Forall (fun c => is_word c = true) k' →
  is_key_line k l = true → is_key_line k' l = true → k = k'.
Proof.
  unfold is_key_line. intros Hk. revert k' l.
  induction Hk as [|x k Hx _ IH]; intros k' l Hk' H1 H2.
  - destruct Hk' as [|x' k' Hx' _]; [done|]. exfalso.
    destruct l as [|c l]; [done|]. cbn in H1, H2.
    apply andb_true_iff in H1 as [E1 _]. apply andb_true_iff in H2 as [E2 _].
    unfold ascii_eqb in *. apply N.eqb_eq in E1, E2.
    assert (x' = "="%char) as -> by (apply cu_inj; congruence). done.
  - destruct Hk' as [|x' k' Hx' Hk'].
    + exfalso. destruct l as [|c l]; [done|]. cbn in H1, H2.
      apply andb_true_iff in H1 as [E1 _]. apply andb_true_iff in H2 as [E2 _].
      unfold ascii_eqb in *. apply N.eqb_eq in E1, E2.
      assert (x = "="%char) as -> by (apply cu_inj; congruence). done.
    + destruct l as [|c l]; [done|]. cbn [app starts_with] in H1, H2.
      apply andb_true_iff in H1 as [E1 H1]. apply andb_true_iff in H2 as [E2 H2].
      unfold ascii_eqb in *. apply N.eqb_eq in E1, E2.
      assert (x = x') as -> by (apply cu_inj; congruence).
      f_equal. by apply (IH k' l).
Qed.

Lemma is_key_line_new (k v : jstr) : is_key_line k (k ++ "=" ++ v) = true.
Proof.
  unfold is_key_line. rewrite app_assoc. apply starts_with_app.
Qed.

Lemma replace_first_line_none (k newl : jstr) (L : list jstr) :
  replace_first_line k newl L = None ↔ key_count k L = 0.
Proof.
  unfold key_count. induction L as [|l L IH]; [done|]. cbn [replace_first_line].
  destruct (is_key_line k l) eqn:E.
  - rewrite filter_cons_True by done. done.
  - rewrite filter_cons_False by (by rewrite E). rewrite <- IH.
    by destruct (replace_first_line k newl L).
Qed.

(** Replacing the first line of a key: the position [i] of that line. *)
Lemma replace_first_line_some (k newl : jstr) (L R : list jstr) :
  replace_first_line k newl L = Some R →
  ∃ i old, L !! i = Some old ∧ is_key_line k old = true ∧ R = <[i := newl]> L
           ∧ ∀ j l, j < i → L !! j = Some l → is_key_line k l = false.
Proof.
  revert R. induction L as [|l L IH]; intros R H; [done|].
  cbn [replace_first_line] in H. destruct (is_key_line k l) eqn:E.
  - injection H as <-. exists 0, l. repeat split; try done. intros j l' Hj. lia.
  - destruct (replace_first_line k newl L) as [R'|]; [|done].
    injection H as <-. destruct (IH R' eq_refl) as (i & old & H1 & H2 & -> & H4).
    exists (S i), old. repeat split; try done.
    intros [|j] l' Hj Hl; cbn in Hl; [by injection Hl as <-|].
    apply (H4 j); [lia|done].
Qed.

Lemma key_count_app (k : jstr) (L1 L2 : list jstr) :
  key_count k (L1 ++ L2) = key_count k L1 + key_count k L2.
Proof. unfold key_count. by rewrite filter_app, length_app. Qed.

Lemma key_count_insert (k : jstr) (L : list jstr) (i : nat) (old new : jstr) :
  L !! i = Some old → is_key_line k old = is_key_line k new →
  key_count k (<[i := new]> L) = key_count k L.
Proof.
  revert i. induction L as [|l L IH]; intros i Hi E; [done|].
  destruct i as [|i]; cbn in Hi.
  - injection Hi as ->. change (<[0 := new]> (old :: L)) with (new :: L).
    unfold key_count.
    destruct (is_key_line k old) eqn:E1.
    + rewrite !filter_cons_True by congruence. done.
    + rewrite !filter_cons_False by congruence. done.
  - change (<[S i := new]> (l :: L)) with (l :: <[i := new]> L).
    specialize (IH i Hi E). unfold key_count in *.
    destruct (is_key_line k l) eqn:E1.
    + rewrite !filter_cons_True by done. cbn [length]. by rewrite IH.
    + rewrite !filter_cons_False by congruence. done.
Qed.

Lemma key_count_pos (k : jstr) (L : list jstr) (i : nat) (l : jstr) :
  L !! i = Some l → is_key_line k l = true → 0 < key_count k L.
Proof.
  revert i. induction L as [|x L IH]; intros i Hi Hl; [done|].
  unfold key_count in *. destruct i as [|i]; cbn in Hi.
  - injection Hi as ->. rewrite filter_cons_True by done. cbn [length]. lia.
  - specialize (IH i Hi Hl). destruct (is_key_line k x) eqn:E.
    + rewrite filter_cons_True by done. cbn [length]. lia.
    + rewrite filter_cons_False by congruence. done.
Qed.

Lemma key_count_cons (k l : jstr) (L : list jstr) :
  key_count k (l :: L) = (if is_key_line k l then 1 else 0) + key_count k L.
Proof.
  unfold key_count. destruct (is_key_line k l) eqn:E.
  - by rewrite filter_cons_True.
  - rewrite filter_cons_False by congruence. done.
Qed.

Lemma replace_unique_line (k newl : jstr) (L : list jstr) (i : nat) (old : jstr) :
  key_count k L = 1 → L !! i = Some old → is_key_line k old = true →
  replace_first_line k newl L = Some (<[i := newl]> L).
Proof.
  revert i. induction L as [|l L IH]; intros i Hc Hi Hold; [done|].
  rewrite key_count_cons in Hc. cbn [replace_first_line].
  destruct (is_key_line k l) eqn:E.
  - destruct i as [|i]; [done|]. cbn in Hi.
    pose proof (key_count_pos k L i old Hi Hold). lia.
  - destruct i as [|i]; cbn in Hi; [injection Hi as ->; congruence|].
    rewrite (IH i) by done. done.
Qed.

Section one_key.

Variables k k' v : jstr.

Hypothesis Hk : is_word_str k.

Hypothesis Hk' : is_word_str k'.

Hypothesis Hne : k' ≠ k.

Lemma other_key_line (l : jstr) : is_key_line k l = true → is_key_line k' l = false.
Proof.
  intros H. destruct (is_key_line k' l) eqn:E; [|done]. exfalso. apply Hne.
  destruct Hk as [_ H1], Hk' as [_ H2]. by apply (key_lines_disjoint k' k l).
Qed.

Lemma set_line_other_count (L : list jstr) :
  key_count k' (set_line k v L) = key_count k' L.
Proof.
  unfold set_line. destruct (replace_first_line k (k ++ "=" ++ v) L) as [R|] eqn:E;
    cbn [from_option id].
  - apply replace_first_line_some in E as (i & old & Hi & Hold & -> & _).
    apply (key_count_insert k' L i old); [done|].
    rewrite (other_key_line old Hold).
    by rewrite (other_key_line _ (is_key_line_new k v)).
  - rewrite key_count_app, key_count_cons.
    rewrite (other_key_line _ (is_key_line_new k v)). unfold key_count. cbn. lia.
Qed.

Lemma set_line_other_lookup (L : list jstr) (j : nat) (l : jstr) :
  L !! j = Some l → is_key_line k l = false → set_line k v L !! j = Some l.
Proof.
  intros Hj Hl. unfold set_line.
  destruct (replace_first_line k (k ++ "=" ++ v) L) as [R|] eqn:E;
    cbn [from_option id].
  - apply replace_first_line_some in E as (i & old & Hi & Hold & -> & _).
    rewrite list_lookup_insert_ne; [done|]. intros ->. congruence.
  - by apply lookup_app_l_Some.
Qed.

End one_key.

Lemma set_line_length (k v : jstr) (L : list jstr) :
  length L ≤ length (set_line k v L).
Proof.
  unfold set_line. destruct (replace_first_line k (k ++ "=" ++ v) L) as [R|] eqn:E;
    cbn [from_option id].
  - apply replace_first_line_some in E as (i & old & _ & _ & -> & _).
    by rewrite length_insert.
  - rewrite length_app. lia.
Qed.

Lemma run_updates_length (upd : list (jstr * jstr)) (L : list jstr) :
  length L ≤ length (run_updates upd L).
Proof.
  revert L. induction upd as [|[k v] upd IH]; intros L; [done|].
  unfold run_updates in *. cbn [foldl]. etransitivity; [|apply IH].
  apply set_line_length.
Qed.

(** The lines of a key are left alone by the updates of the other keys. *)
Lemma run_updates_other_keys (k : jstr) (upd : list (jstr * jstr)) (L : list jstr) :
  is_word_str k →
  Forall (fun kv => is_word_str kv.1 ∧ kv.1 ≠ k) upd →
  key_count k (run_updates upd L) = key_count k L
  ∧ ∀ i l, L !! i = Some l → is_key_line k l = true → run_updates upd L !! i = Some l.
Proof.
  intros Hk H. revert L. induction H as [|[k' v] upd [Hk' Hne] _ IH]; intros L; [done|].
  unfold run_updates in *. cbn [foldl fst snd] in *.
  destruct (IH (set_line k' v L)) as [IH1 IH2]. split.
  - rewrite IH1. apply set_line_other_count; [done | done | by intros ->].
  - intros i l Hi Hl. apply IH2; [|done].
    apply set_line_other_lookup; [done|].
    by apply (other_key_line k k').
Qed.

(** A line of none of the keys stays where it is. *)
Lemma run_updates_other_lines (upd : list (jstr * jstr)) (L : list jstr)
    (i : nat) (l : jstr) :
  L !! i = Some l → Forall (fun kv => is_key_line kv.1 l = false) upd →
  run_updates upd L !! i = Some l.
Proof.
  intros Hi H. revert L Hi. induction H as [|[k v] upd Hk _ IH]; intros L Hi; [done|].
  unfold run_updates in *. cbn [foldl fst snd] in *. apply IH.
  by apply set_line_other_lookup.
Qed.

(** The update of one key among the others. *)
Lemma run_updates_key (before after : list (jstr * jstr)) (k v : jstr) (L : list jstr) :
  is_word_str k →
  Forall (fun kv => is_word_str kv.1 ∧ kv.1 ≠ k) before →
  Forall (fun kv => is_word_str kv.1 ∧ kv.1 ≠ k) after →
  (key_count k L = 0 →
   key_count k (run_updates (before ++ (k, v) :: after) L) = 1
   ∧ ∃ i, length L ≤ i
          ∧ run_updates (before ++ (k, v) :: after) L !! i = Some (k ++ "=" ++ v))
  ∧ (∀ i old, key_count k L = 1 → L !! i = Some old → is_key_line k old = true →
     key_count k (run_updates (before ++ (k, v) :: after) L) = 1
     ∧ run_updates (before ++ (k, v) :: after) L !! i = Some (k ++ "=" ++ v)).
Proof.
  intros Hk Hb Ha.
  destruct (run_updates_other_keys k before L Hk Hb) as [Hb1 Hb2].
  unfold run_updates in *. rewrite foldl_app. cbn [foldl fst snd].
  set (L1 := foldl (fun L kv => set_line kv.1 kv.2 L) L before) in *.
  destruct (run_updates_other_keys k after (set_line k v L1) Hk Ha) as [Ha1 Ha2].
  unfold run_updates in *. split.
  - intros H0. rewrite <- Hb1 in H0.
    assert (set_line k v L1 = L1 ++ [k ++ "=" ++ v]) as E.
    { unfold set_line. apply (replace_first_line_none k (k ++ "=" ++ v)) in H0.
      by rewrite H0. }
    split.
    + rewrite Ha1, E, key_count_app, H0, key_count_cons, is_key_line_new. done.
    + exists (length L1). split; [apply (run_updates_length before L)|].
      apply Ha2; [|apply is_key_line_new].
      rewrite E. by rewrite list_lookup_middle.
  - intros i old H1 Hi Hold. rewrite <- Hb1 in H1.
    specialize (Hb2 i old Hi Hold).
    assert (set_line k v L1 = <[i := k ++ "=" ++ v]> L1) as E.
    { unfold set_line. by rewrite (replace_unique_line k _ L1 i old). }
    split.
    + rewrite Ha1, E. rewrite (key_count_insert k L1 i old); [done|done|].
      by rewrite is_key_line_new.
    + apply Ha2; [|apply is_key_line_new]. rewrite E.
      apply list_lookup_insert_eq. by apply lookup_lt_Some in Hb2.
Qed.

(** ** The project initializer and the [.env] file *)

Lemma initProject_writes_env (h : Host) (a : Args) (w w2 : World) (p c : jstr)
    (fs1 : FS) (r : CommandResult) :
  project_path a = Some p →
  shell h (mkdir_command (resolve (cwd h) p)) (fs w) = inr fs1 →
  executeCommand h "warden" (init_command a) (resolve (cwd h) p)
    (mkWorld fs1 (trace w ++ [Shell (mkdir_command (resolve (cwd h) p))])) = (Ok r, w2) →
  is_zero (code r) = true →
  fs w2 !! env_path h p = Some (File c) →
  ∃ env,
    initProject h (Some a) w
    = (Ok env,
       mkWorld (<[env_path h p := File (update_env c (updates (init_options a)))]> (fs w2))
               (trace w2))
    ∧ isError env = false.
Proof.
  intros Hp Hsh Hrun Hz Hfs.
  unfold initProject, try_catch. rewrite destructure_given. unfold resolve_arg. rewrite Hp.
  unfold bind at 1. unfold ret at 1. unfold bind at 1.
  unfold execSync. fold (mkdir_command (resolve (cwd h) p)). rewrite Hsh.
  cbn [trace fs]. unfold bind at 1. fold (init_command a). rewrite Hrun, Hz.
  cbn [negb]. unfold bind at 1. fold (env_path h p).
  rewrite existsSync_true by (by rewrite Hfs).
  unfold bind at 1. unfold bind at 1. unfold readFileSync. rewrite Hfs.
  unfold writeFileSync. rewrite Hfs. unfold ret.
  eexists. split; reflexivity.
Qed.

Ltac key_facts :=
  repeat (constructor;
          [split; [split; [done | chars] | intros E; vm_compute in E; discriminate]|]);
  try constructor.

Lemma flag_plain (b : bool) : plain_value (flag b).
Proof. destruct b; split; chars. Qed.

Lemma updates_plain (o : InitOptions) :
  options_plain o →
  Forall (fun kv => is_word_str kv.1 ∧ plain_value kv.2) (updates o).
Proof.
  intros H. unfold options_plain in H.
  repeat match goal with
         | H : Forall _ (_ :: _) |- _ => apply Forall_cons in H as [? H]
         end.
  unfold updates.
  repeat (constructor; [split; [split; [done | chars] | first [done | apply flag_plain]]|]).
  constructor.
Qed.

(** *** Only the first line of a key is replaced *)

Lemma replace_first_line_at (k newl : jstr) (L : list jstr) (i : nat) (old : jstr) :
  L !! i = Some old → is_key_line k old = true →
  (∀ j l, j < i → L !! j = Some l → is_key_line k l = false) →
  replace_first_line k newl L = Some (<[i := newl]> L).
Proof.
  revert i. induction L as [|x L IH]; intros i Hi Hold Hfirst; [done|].
  cbn [replace_first_line]. destruct i as [|i]; cbn in Hi.
  - injection Hi as ->. by rewrite Hold.
  - rewrite (Hfirst 0 x) by (done || lia).
    rewrite (IH i Hi Hold); [done|].
    intros j l Hj Hl. apply (Hfirst (S j) l); [lia | done].
Qed.

Lemma set_line_keeps_others (k k' v : jstr) (L : list jstr) (j : nat) (l : jstr) :
  is_word_str k → is_word_str k' → k' ≠ k →
  L !! j = Some l → is_key_line k' l = false →
  ∃ l', set_line k v L !! j = Some l' ∧ is_key_line k' l' = false.
Proof.
  intros Hk Hk' Hne Hj Hl. unfold set_line.
  destruct (replace_first_line k (k ++ "=" ++ v) L) as [R|] eqn:E; cbn [from_option id].
  - apply replace_first_line_some in E as (i & old & Hi & Hold & -> & _).
    destruct (decide (j = i)) as [->|Hji].
    + exists (k ++ "=" ++ v). split.
      * apply list_lookup_insert_eq. by apply lookup_lt_Some in Hi.
      * apply (other_key_line k k' Hk Hk' Hne). apply is_key_line_new.
    + exists l. split; [|done]. by rewrite list_lookup_insert_ne.
  - exists l. split; [|done]. by apply lookup_app_l_Some.
Qed.

Lemma run_updates_keeps_others (k : jstr) (upd : list (jstr * jstr)) (L : list jstr)
    (j : nat) (l : jstr) :
  is_word_str k →
  Forall (fun kv => is_word_str kv.1 ∧ kv.1 ≠ k) upd →
  L !! j = Some l → is_key_line k l = false →
  ∃ l', run_updates upd L !! j = Some l' ∧ is_key_line k l' = false.
Proof.
  intros Hk H. revert L l. induction H as [|[k' v] upd [Hk' Hne] _ IH]; intros L l Hj Hl.
  - by exists l.
  - unfold run_updates in *. cbn [foldl fst snd] in *.
    destruct (set_line_keeps_others k' k v L j l Hk' Hk (fun E => Hne (eq_sym E)) Hj Hl)
      as (l1 & H1 & H2).
    by apply (IH _ l1).
Qed.

(** The update of one key among the others, in a file that may hold
    several lines of the key: the first is replaced, the others stay. *)
Lemma run_updates_first_only (before after : list (jstr * jstr)) (k v : jstr)
    (L : list jstr) (i : nat) (old : jstr) :
  is_word_str k →
  Forall (fun kv => is_word_str kv.1 ∧ kv.1 ≠ k) before →
  Forall (fun kv => is_word_str kv.1 ∧ kv.1 ≠ k) after →
  L !! i = Some old → is_key_line k old = true →
  (∀ j l, j < i → L !! j = Some l → is_key_line k l = false) →
  run_updates (before ++ (k, v) :: after) L !! i = Some (k ++ "=" ++ v)
  ∧ key_count k (run_updates (before ++ (k, v) :: after) L) = key_count k L
  ∧ ∀ j l, j ≠ i → L !! j = Some l → is_key_line k l = true →
           run_updates (before ++ (k, v) :: after) L !! j = Some l.
Proof.
  intros Hk Hb Ha Hi Hold Hfirst.
  destruct (run_updates_other_keys k before L Hk Hb) as [Hb1 Hb2].
  unfold run_updates in *. rewrite foldl_app. cbn [foldl fst snd].
  set (L1 := foldl (fun L kv => set_line kv.1 kv.2 L) L before) in *.
  assert (set_line k v L1 = <[i := k ++ "=" ++ v]> L1) as E.
  { unfold set_line. rewrite (replace_first_line_at k _ L1 i old); [done | by apply Hb2 | done |].
    intros j l Hj Hl.
    assert (is_Some (L !! j)) as [l0 Hl0].
    { apply lookup_lt_is_Some. apply lookup_lt_Some in Hi. lia. }
    destruct (run_updates_keeps_others k before L j l0 Hk Hb Hl0 (Hfirst j l0 Hj Hl0))
      as (l' & Hl' & Hn).
    unfold run_updates in Hl'. fold L1 in Hl'. congruence. }
  destruct (run_updates_other_keys k after (set_line k v L1) Hk Ha) as [Ha1 Ha2].
  unfold run_updates in *. rewrite E in *.
  assert (L1 !! i = Some old) as Hi1 by (by apply Hb2).
  split; [|split].
  - apply Ha2; [|apply is_key_line_new].
    apply list_lookup_insert_eq. by apply lookup_lt_Some in Hi1.
  - rewrite Ha1, <- Hb1. apply (key_count_insert k L1 i old); [done|].
    by rewrite is_key_line_new.
  - intros j l Hji Hj Hl. apply Ha2; [|done].
    rewrite list_lookup_insert_ne by done. by apply Hb2.
Qed.

Lemma updates_keys_distinct (o : InitOptions) : NoDup (updates o).*1.
Proof. apply (bool_decide_unpack _). vm_compute. reflexivity. Qed.

Lemma updates_split (o : InitOptions) (k v : jstr) :
  options_plain o → (k, v) ∈ updates o →
  ∃ before after,
    updates o = before ++ (k, v) :: after ∧ is_word_str k
    ∧ Forall (fun kv => is_word_str kv.1 ∧ kv.1 ≠ k) before
    ∧ Forall (fun kv => is_word_str kv.1 ∧ kv.1 ≠ k) after.
Proof.
  intros Ho Hin. pose proof (updates_plain o Ho) as Hp.
  pose proof (updates_keys_distinct o) as Hnd.
  apply list_elem_of_split in Hin as (before & after & E). rewrite E in Hp, Hnd.
  exists before, after. split; [done|].
  rewrite fmap_app, fmap_cons in Hnd. cbn [fst] in Hnd.
  apply NoDup_app in Hnd as (_ & Hb & Hnd). apply NoDup_cons in Hnd as [Ha _].
  apply Forall_app in Hp as [Hpb Hp]. apply Forall_cons in Hp as [[Hk _] Hpa].
  cbn [fst] in Hk. split; [done|]. split.
  - apply Forall_forall. intros [k' v'] Hin. cbn [fst]. split.
    + by apply (proj1 (Forall_forall _ _) Hpb (k', v')).
    + intros ->. apply (Hb k); [|left]. apply list_elem_of_fmap. by exists (k, v').
  - apply Forall_forall. intros [k' v'] Hin. cbn [fst]. split.
    + by apply (proj1 (Forall_forall _ _) Hpa (k', v')).
    + intros ->. apply Ha. apply list_elem_of_fmap. by exists (k, v').
Qed.

(** C7, as the code has it.  After a successful [warden env init] that
    left a [.env] file, with plain option values: when the file has exactly
    one [PHP_VERSION] line, [PHP_VERSION=8.1], initializing with
    [php_version] 8.3 leaves exactly one [PHP_VERSION] line, [PHP_VERSION=8.3],
    at the place of the old one; when the file has no [REDIS_VERSION] line,
    initializing with [redis_version] 7.2 leaves exactly one,
    [REDIS_VERSION=7.2], after all the lines the file had; every line that
    begins with none of the twelve keys stays where it was.  Of several
    lines of one key only the first is replaced: it becomes [KEY=value], the
    further lines of the key stay as they were, where they were, and the
    number of lines of the key is unchanged. *)
Theorem init_rewrites_env (h : Host) (a : Args) (w w2 : World) (p c : jstr)
    (fs1 : FS) (r : CommandResult) :
  project_path a = Some p →
  shell h (mkdir_command (resolve (cwd h) p)) (fs w) = inr fs1 →
  executeCommand h "warden" (init_command a) (resolve (cwd h) p)
    (mkWorld fs1 (trace w ++ [Shell (mkdir_command (resolve (cwd h) p))])) = (Ok r, w2) →
  is_zero (code r) = true →
  fs w2 !! env_path h p = Some (File c) →
  options_plain (init_options a) →
  ∃ env w' c',
    initProject h (Some a) w = (Ok env, w') ∧ isError env = false
    ∧ fs w' !! env_path h p = Some (File c')
    ∧ (∀ i, php_version a = Some ("8.3" : jstr) →
            key_count "PHP_VERSION" (env_lines c) = 1 →
            env_lines c !! i = Some ("PHP_VERSION=8.1" : jstr) →
            key_count "PHP_VERSION" (env_lines c') = 1
            ∧ env_lines c' !! i = Some ("PHP_VERSION=8.3" : jstr))
    ∧ (redis_version a = Some ("7.2" : jstr) →
       key_count "REDIS_VERSION" (env_lines c) = 0 →
       key_count "REDIS_VERSION" (env_lines c') = 1
       ∧ ∃ i, length (env_lines c) ≤ i
              ∧ env_lines c' !! i = Some ("REDIS_VERSION=7.2" : jstr))
    ∧ (∀ i l, env_lines c !! i = Some l →
              Forall (fun kv => is_key_line kv.1 l = false) (updates (init_options a)) →
              env_lines c' !! i = Some l)
    ∧ (∀ k v i old,
         (k, v) ∈ updates (init_options a) →
         env_lines c !! i = Some old → is_key_line k old = true →
         (∀ j l, j < i → env_lines c !! j = Some l → is_key_line k l = false) →
         env_lines c' !! i = Some (k ++ "=" ++ v)
         ∧ key_count k (env_lines c') = key_count k (env_lines c)
         ∧ ∀ j l, j ≠ i → env_lines c !! j = Some l → is_key_line k l = true →
                  env_lines c' !! j = Some l).
Proof.
  intros Hp Hsh Hrun Hz Hfs Hplain.
  destruct (initProject_writes_env h a w w2 p c fs1 r Hp Hsh Hrun Hz Hfs)
    as (env & Hinit & Herr).
  exists env. eexists. exists (update_env c (updates (init_options a))).
  split; [exact Hinit|]. split; [exact Herr|].
  split; [cbn [fs]; apply lookup_insert_eq|].
  rewrite (update_env_lines _ c (updates_plain _ Hplain)).
  fold (run_updates (updates (init_options a)) (env_lines c)).
  set (o := init_options a) in *.
  split; [|split; [|split]].
  - intros i Hv Hcount Hi.
    assert (o_php_version o = ("8.3" : jstr)) as Ho.
    { unfold o, init_options. cbn [o_php_version]. by rewrite Hv. }
    change (updates o) with ([] ++ ("PHP_VERSION" : jstr, o_php_version o) :: tail (updates o)).
    rewrite Ho.
    apply (proj2 (run_updates_key [] (tail (updates o)) "PHP_VERSION" "8.3" (env_lines c)
                    ltac:(split; [done | chars]) ltac:(constructor) ltac:(key_facts))
             i "PHP_VERSION=8.1" Hcount Hi eq_refl).
  - intros Hv Hcount.
    assert (o_redis_version o = ("7.2" : jstr)) as Ho.
    { unfold o, init_options. cbn [o_redis_version]. by rewrite Hv. }
    change (updates o)
      with (take 6 (updates o) ++ ("REDIS_VERSION" : jstr, o_redis_version o)
            :: drop 7 (updates o)).
    rewrite Ho.
    apply (proj1 (run_updates_key (take 6 (updates o)) (drop 7 (updates o))
                    "REDIS_VERSION" "7.2" (env_lines c)
                    ltac:(split; [done | chars]) ltac:(key_facts) ltac:(key_facts))
             Hcount).
  - intros i l Hi Hl. by apply run_updates_other_lines.
  - intros k v i old Hin Hi Hold Hfirst.
    destruct (updates_split o k v Hplain Hin) as (before & after & -> & Hk & Hb & Ha).
    by apply (run_updates_first_only before after k v (env_lines c) i old).
Qed.

Lemma init_rewrites_env_witness :
  ∃ c',
    fs (initProject (init_host generated_env) (Some init_shop) shop_world).2
      !! ("/srv/shop/.env" : jstr) = Some (File c')
    ∧ key_count "PHP_VERSION" (env_lines c') = 1
    ∧ env_lines c' !! 1 = Some ("PHP_VERSION=8.3" : jstr)
    ∧ key_count "REDIS_VERSION" (env_lines c') = 1
    ∧ env_lines c' !! 3 = Some ("TRAEFIK_DOMAIN=shop.test" : jstr).
Proof.
  destruct (init_rewrites_env (init_host generated_env) init_shop shop_world
              init_shop_world2 "/srv/shop" generated_env shop_disk
              (mkResult "Initialized" [] (Some 0%Z)))
    as (env & w' & c' & Hinit & _ & Hfs & Hphp & Hredis & Hother & _).
  - reflexivity.
  - reflexivity.
  - vm_compute. reflexivity.
  - reflexivity.
  - vm_compute. reflexivity.
  - repeat constructor.
  - exists c'. rewrite Hinit. split; [exact Hfs|].
    destruct (Hphp 1) as [H1 H2]; [reflexivity | vm_compute; reflexivity
                                   | vm_compute; reflexivity |].
    destruct Hredis as [H3 _]; [reflexivity | vm_compute; reflexivity |].
    split; [exact H1|]. split; [exact H2|]. split; [exact H3|].
    apply Hother; [vm_compute; reflexivity|].
    repeat (constructor; [vm_compute; reflexivity|]). constructor.
Defined.

(** C7 fails as stated: the file below contains the line [PHP_VERSION=8.1],
    and after the initialization with [php_version] 8.3 it has two
    [PHP_VERSION] lines, for only the first line of a key is replaced: the
    line [PHP_VERSION=7.4] is still there. *)
Lemma init_env_counterexample :
  ("PHP_VERSION=8.1" : jstr) ∈ env_lines stale_env
  ∧ php_version init_shop = Some ("8.3" : jstr)
  ∧ ∃ env c',
      (initProject (init_host stale_env) (Some init_shop) shop_world).1 = Ok env
      ∧ isError env = false
      ∧ fs (initProject (init_host stale_env) (Some init_shop) shop_world).2
          !! ("/srv/shop/.env" : jstr) = Some (File c')
      ∧ take 3 (env_lines c')
        = ["PHP_VERSION=8.3" : jstr; "NODE_VERSION=20" : jstr; "PHP_VERSION=7.4" : jstr]
      ∧ key_count "PHP_VERSION" (env_lines c') = 2.
Proof.
  split; [vm_compute; left|]. split; [reflexivity|].
  eexists. eexists. split; [vm_compute; reflexivity|].
  split; [reflexivity|]. split; [vm_compute; reflexivity|].
  split; vm_compute; reflexivity.
Qed.

(** * Further properties *)

(** ** The parser: lines out of order *)

Lemma parse_line_no_name (st : ParseState) (l : jstr) :
  currentProject st = None → not_a_name_line l → parse_line st l = st.
Proof.
  intros Hst Hl. rewrite parse_line_skip.
  destruct (is_empty (trim l) || banner l) eqn:E; [done|].
  destruct Hl as [Hl | Hl]; [congruence|]. rewrite Hl, Hst.
  by destruct (exec directory_re (clean l)).
Qed.

(** X1. A status text in which no line is a name line (every line is
    skipped or is not matched by the name pattern) gives no record: a
    directory line without a name before it is dropped. *)
Theorem parse_without_name_line (output : jstr) :
  Forall not_a_name_line (split_on is_LF output) →
  parseEnvironmentList output = [].
Proof.
  intros H. unfold parseEnvironmentList.
  assert (foldl parse_line (mkParse [] None) (split_on is_LF output) = mkParse [] None)
    as ->; [|done].
  induction H as [|l ls Hl _ IH]; [done|].
  cbn [foldl]. by rewrite parse_line_no_name.
Qed.

Lemma parse_without_name_line_witness : parseEnvironmentList orphan_status = [].
Proof.
  apply (parse_without_name_line orphan_status).
  eval_lines orphan_status.
  constructor; [left; vm_compute; reflexivity|].
  repeat (constructor; [right; vm_compute; reflexivity|]).
  constructor.
Defined.

Lemma parse_name_lines (st : ParseState) (names : list (jstr * jstr)) (nm : jstr) :
  Forall (fun p => is_name_line p.1 p.2) names →
  last (snd <$> names) = Some nm →
  foldl parse_line st (fst <$> names) = mkParse (environments st) (Some nm).
Proof.
  intros H. revert st. induction H as [|[l n] names Hl _ IH]; intros st Hlast; [done|].
  cbn [fmap list_fmap foldl fst snd] in *.
  rewrite (parse_line_name st l n Hl).
  destruct names as [|p names]; [by injection Hlast as ->|].
  rewrite IH; [done|]. by destruct names.
Qed.

(** X2. When several name lines precede a directory line, the record
    takes the name of the last of them: a name line without its directory
    line is lost, nothing is queued. *)
Theorem parse_last_name_wins (output : jstr) (names : list (jstr * jstr))
    (dir_line rem nm : jstr) :
  split_on is_LF output = (fst <$> names) ++ [dir_line] →
  Forall (fun p => is_name_line p.1 p.2) names →
  last (snd <$> names) = Some nm →
  is_dir_line dir_line rem →
  parseEnvironmentList output = [mkEnv nm (trim rem) dir_line].
Proof.
  intros Hs Hn Hlast Hd. unfold parseEnvironmentList.
  rewrite Hs, foldl_app, (parse_name_lines _ names nm Hn Hlast).
  cbn [foldl]. rewrite (parse_line_dir _ dir_line rem nm Hd); [done|done|].
  clear -Hn Hlast. induction Hn as [|[l n] names Hl _ IH]; [done|].
  destruct names as [|p names].
  - injection Hlast as <-.
    destruct Hl as (_ & ? & ? & ? & ? & ? & _ & _ & [? _] & _). done.
  - apply IH. by destruct names.
Qed.

Lemma parse_last_name_wins_witness :
  parseEnvironmentList renamed_status
  = [mkEnv "blog" (trim " /srv/blog") "       Project Directory: /srv/blog"].
Proof.
  apply (parse_last_name_wins renamed_status
           [("    shop a magento2 project" : jstr, "shop" : jstr);
            ("    blog a wordpress project" : jstr, "blog" : jstr)]).
  - vm_compute. reflexivity.
  - constructor; [|constructor; [|constructor]].
    + split; [vm_compute; reflexivity|].
      exists [], (" " : jstr), (" " : jstr), ("magento2" : jstr), (" " : jstr).
      split; [vm_compute; reflexivity|]. repeat split; try done; chars.
    + split; [vm_compute; reflexivity|].
      exists [], (" " : jstr), (" " : jstr), ("wordpress" : jstr), (" " : jstr).
      split; [vm_compute; reflexivity|]. repeat split; try done; chars.
  - reflexivity.
  - split; [vm_compute; reflexivity|].
    exists [], (" " : jstr), ("/srv/blog" : jstr).
    split; [vm_compute; reflexivity|]. split; [reflexivity|].
    split; [constructor|]. split; [chars|]. split.
    + split; [by exists "/"%char, ("srv/blog" : jstr) | chars].
    + by exists ("/srv/blo" : jstr), "g"%char.
Defined.

Lemma parse_line_grows (st : ParseState) (l : jstr) :
  environments (parse_line st l) = environments st
  ∨ ∃ e, environments (parse_line st l) = environments st ++ [e]
         ∧ raw e = l ∧ name e ≠ [].
Proof.
  rewrite parse_line_skip.
  destruct (is_empty (trim l) || banner l); [by left|].
  destruct (exec project_re (clean l)); [by left|].
  destruct (exec directory_re (clean l)); [|by left].
  destruct (currentProject st) as [[|c nm]|]; cbn [truthy]; try (by left).
  right. eexists. split; [reflexivity|]. done.
Qed.

(** X3. The records come from the lines of the text, in their order: the
    [raw] fields of the records are a sublist of the lines, so there are
    never more records than lines; and no record has an empty name. *)
Theorem parse_records_from_lines (output : jstr) :
  (raw <$> parseEnvironmentList output) `sublist_of` split_on is_LF output
  ∧ length (parseEnvironmentList output) ≤ length (split_on is_LF output)
  ∧ Forall (fun e => name e ≠ []) (parseEnvironmentList output).
Proof.
  unfold parseEnvironmentList.
  assert (∀ ls st,
            ∃ new, environments (foldl parse_line st ls) = environments st ++ new
                   ∧ (raw <$> new) `sublist_of` ls
                   ∧ Forall (fun e => name e ≠ []) new) as H.
  { induction ls as [|l ls IH]; intros st.
    - exists []. by rewrite app_nil_r.
    - cbn [foldl]. destruct (IH (parse_line st l)) as (new & -> & Hsub & Hnm).
      destruct (parse_line_grows st l) as [-> | (e & -> & <- & He)].
      + exists new. split; [done|]. split; [by apply sublist_cons|done].
      + exists (e :: new). rewrite <- app_assoc. split; [done|].
        split; [by apply sublist_skip | by constructor]. }
  destruct (H (split_on is_LF output) (mkParse [] None)) as (new & -> & Hsub & Hnm).
  cbn [environments app]. split; [done|]. split; [|done].
  apply sublist_length in Hsub. by rewrite length_fmap in Hsub.
Qed.

(** ** The process runner: promises that settle once, or never *)

Lemma pending_is_data (evs : list ProcEvent) (o e : jstr) :
  promise (foldl on_event (mkRunner o e Pending) evs) = Pending →
  forallb is_data evs = true.
Proof.
  revert o e. induction evs as [|ev evs IH]; intros o e H; [done|].
  destruct ev; cbn [foldl on_event is_data forallb andb] in *;
    try (by apply IH in H);
    rewrite settled_stays in H by done; done.
Qed.

(** X4. [executeCommand] has no timeout: the call never settles exactly
    when the call of [spawn] does not throw and the child emits neither a
    [close] nor an [error] event.  Whatever the outcome, the invocation is
    recorded; the file system is the one the child left, or is untouched
    when [spawn] threw and there was no child. *)
Theorem executeCommand_hangs_without_close (h : Host) (cmd : jstr)
    (argv : list (option jstr)) (dir : jstr) (w : World)
    (evs : list ProcEvent) (fs' : FS) :
  child h (trace w) (mkInv cmd argv dir) (fs w) = (evs, fs') →
  ((executeCommand h cmd argv dir w).1 = Hang
   ↔ spawn_throws h (mkInv cmd argv dir) (fs w) = None ∧ forallb is_data evs = true)
  ∧ (executeCommand h cmd argv dir w).2
    = mkWorld (match spawn_throws h (mkInv cmd argv dir) (fs w) with
               | Some _ => fs w
               | None => fs'
               end)
              (trace w ++ [Spawned (mkInv cmd argv dir)]).
Proof.
  intros Hc. unfold executeCommand.
  destruct (spawn_throws h (mkInv cmd argv dir) (fs w)) as [x|].
  - split; [|done]. split; [done | by intros [? _]].
  - rewrite Hc. split.
    + split.
      * intros H. split; [done|]. destruct (run_events evs) eqn:E; cbn in H; try done.
        by apply (pending_is_data evs [] []).
      * intros [_ H]. unfold run_events, runner_init. by rewrite data_accumulates.
    + by destruct (run_events evs).
Qed.

Lemma executeCommand_hangs_without_close_witness :
  (executeCommand stuck_host "warden" (lits ["status"]) "/home/dev" shop_world).1 = Hang
  ∧ (executeCommand strict_host "warden" [Some nul_argument] "/home/dev" shop_world).2
    = mkWorld shop_disk [Spawned (mkInv "warden" [Some nul_argument] "/home/dev")].
Proof.
  split.
  - apply (proj1 (executeCommand_hangs_without_close stuck_host "warden" (lits ["status"])
                    "/home/dev" shop_world
                    [StdoutData "waiting"; StderrData "..."] shop_disk eq_refl)).
    split; reflexivity.
  - exact (proj2 (executeCommand_hangs_without_close strict_host "warden"
                    [Some nul_argument] "/home/dev" shop_world
                    [StdoutData "done"; CloseEv (Some 0%Z)] shop_disk eq_refl)).
Defined.

(** X5. The first [close] or [error] event decides the promise: what the
    child emits afterwards (late output, the [close] that follows a failed
    spawn) changes nothing. *)
Theorem run_events_first_settles (pre rest : list ProcEvent) (ev : ProcEvent) :
  forallb is_data pre = true → is_data ev = false →
  run_events (pre ++ ev :: rest) = run_events (pre ++ [ev])
  ∧ run_events (pre ++ ev :: rest) ≠ Pending.
Proof.
  intros Hd Hev. destruct ev as [d|d|c|msg]; try done.
  - rewrite !run_events_close by done. done.
  - rewrite !run_events_error by done. done.
Qed.

Lemma run_events_first_settles_witness :
  run_events [StdoutData "a"; ErrorEv "boom"; StdoutData "b"; CloseEv (Some (-2)%Z)]
  = run_events [StdoutData "a"; ErrorEv "boom"].
Proof.
  apply (run_events_first_settles [StdoutData "a"]
           [StdoutData "b"; CloseEv (Some (-2)%Z)] (ErrorEv "boom"));
    reflexivity.
Defined.

(** ** The environment list tool *)

(** X6. [listEnvironments] never throws.  When [warden status] resolves,
    the envelope is an error exactly when the exit code is not 0, and its
    [environments] field holds the parsed records for exit code 0 and is
    empty otherwise; when the process cannot be spawned the envelope is an
    error with exit code -1; when it never ends, neither does the call. *)
Theorem listEnvironments_outcome (h : Host) (w : World) :
  (listEnvironments h w).2 = (executeCommand h "warden" (lits ["status"]) (cwd h) w).2
  ∧ match (executeCommand h "warden" (lits ["status"]) (cwd h) w).1 with
    | Ok r =>
        ∃ env, (listEnvironments h w).1 = Ok env
               ∧ isError env = negb (is_zero (code r))
               ∧ envelope_field "exit_code" env = Some (JNum (code r))
               ∧ envelope_field "environments" env
                 = Some (JArr (if is_zero (code r)
                               then env_json <$> parseEnvironmentList (stdout r)
                               else []))
    | Throw e =>
        ∃ env, (listEnvironments h w).1 = Ok env
               ∧ isError env = true
               ∧ envelope_field "exit_code" env = Some (JNum (Some (-1)%Z))
               ∧ envelope_field "environments" env = Some (JArr [])
               ∧ envelope_field "error" env = Some (JStr (message e))
    | Hang => (listEnvironments h w).1 = Hang
    end.
Proof.
  unfold listEnvironments, try_catch, bind.
  destruct (executeCommand h "warden" (lits ["status"]) (cwd h) w) as [[r|e|] w'];
    cbn [fst snd].
  - destruct (is_zero (code r)); split; try done; eexists; repeat split.
  - split; [done|]. eexists. repeat split.
  - done.
Qed.

(** X7. [getEnvironmentList] never throws, and it returns the
    environments [listEnvironments] reports in the same world: the pairs
    of the parsed records, or none when the status command fails. *)
Theorem getEnvironmentList_agrees (h : Host) (w : World) :
  (getEnvironmentList h w).2 = (listEnvironments h w).2
  ∧ match (getEnvironmentList h w).1 with
    | Ok l =>
        ∃ env, (listEnvironments h w).1 = Ok env
               ∧ envelope_field "environments" env = Some (JArr (pair_json <$> l))
               ∧ (isError env = true → l = [])
    | Throw _ => False
    | Hang => (listEnvironments h w).1 = Hang
    end.
Proof.
  unfold getEnvironmentList, listEnvironments, try_catch, bind.
  destruct (executeCommand h "warden" (lits ["status"]) (cwd h) w) as [[r|e|] w'];
    cbn [fst snd].
  - destruct (is_zero (code r)); split; try done; eexists; repeat split; try done.
    cbn. unfold envelope_field, json_field. cbn.
    f_equal. f_equal. rewrite <- list_fmap_compose. done.
  - split; [done|]. eexists. repeat split.
  - done.
Qed.

(** ** After the validation *)

(** X8. Once the project path is accepted, [executeWardenCommand] does
    not throw: the envelope is an error exactly when the exit code is not
    0 (a code of [null] included), a failed spawn gives an error envelope,
    and a process that never ends leaves the call pending.  The world is
    the one the process left. *)
Theorem executeWardenCommand_outcome (h : Host) (p : jstr) (argv : list (option jstr))
    (description : jstr) (w : World) :
  truthy (Some p) = true → is_Some (fs w !! absolute_path h p) →
  (executeWardenCommand h (Some p) argv description w).2
  = (executeCommand h "warden" argv (absolute_path h p) w).2
  ∧ match (executeCommand h "warden" argv (absolute_path h p) w).1 with
    | Ok r =>
        ∃ env, (executeWardenCommand h (Some p) argv description w).1 = Ok env
               ∧ isError env = negb (is_zero (code r))
    | Throw e =>
        ∃ env, (executeWardenCommand h (Some p) argv description w).1 = Ok env
               ∧ isError env = true
    | Hang => (executeWardenCommand h (Some p) argv description w).1 = Hang
    end.
Proof.
  intros Ht Hfs. unfold executeWardenCommand. rewrite Ht.
  cbn [negb from_option id]. unfold bind, try_catch.
  rewrite !existsSync_true by done. cbn [negb].
  destruct (executeCommand h "warden" argv (absolute_path h p) w) as [[r|e|] w'];
    cbn [fst snd]; split; try done; eexists; split; reflexivity.
Qed.

Lemma executeWardenCommand_outcome_witness :
  ∃ env,
    (executeWardenCommand broken_host (Some ("/srv/shop" : jstr)) (lits ["env"; "up"])
       "Starting" shop_world).1 = Ok env
    ∧ isError env = true.
Proof.
  exact (proj2 (executeWardenCommand_outcome broken_host "/srv/shop" (lits ["env"; "up"])
                  "Starting" shop_world eq_refl
                  (ex_intro _ Dir eq_refl))).
Defined.

(** ** The unit test tool *)

Lemma existsSync_false (p : jstr) (w : World) :
  fs w !! p = None → existsSync p w = (Ok false, w).
Proof.
  intros H. unfold existsSync. rewrite H.
  by rewrite bool_decide_eq_false_2 by (by intros [? ?]).
Qed.

Ltac spawn_once :=
  match goal with
  | |- context [executeCommand ?h ?c ?a ?d ?w] =>
      let r := fresh "r" in
      let w1 := fresh "w" in
      let E := fresh "E" in
      destruct (executeCommand h c a d w) as [r w1] eqn:E;
      apply executeCommand_calls_eq in E as [E _]; destruct r; cbn [snd fst];
      rewrite E
  end.

(** X9. Without a [config_file] the unit test tool looks for
    [phpunit.xml.dist] in the project directory, then for [phpunit.xml],
    and runs PHPUnit with the first it finds; when neither is there it
    throws, and nothing is run. *)
Theorem unit_tests_config_detection (h : Host) (a : Args) (w : World) (p : jstr) :
  project_path a = Some p →
  is_empty (default [] (config_file a)) = true →
  (is_Some (fs w !! path_join (absolute_path h p) "phpunit.xml.dist") →
   ∃ tail,
     runner_calls (runUnitTests h (Some a) w).2
     = runner_calls w
       ++ [mkInv "warden" (phpunit_prefix ++ Some ("phpunit.xml.dist" : jstr) :: tail)
             (absolute_path h p)])
  ∧ (fs w !! path_join (absolute_path h p) "phpunit.xml.dist" = None →
     is_Some (fs w !! path_join (absolute_path h p) "phpunit.xml") →
     ∃ tail,
       runner_calls (runUnitTests h (Some a) w).2
       = runner_calls w
         ++ [mkInv "warden" (phpunit_prefix ++ Some ("phpunit.xml" : jstr) :: tail)
               (absolute_path h p)])
  ∧ (fs w !! path_join (absolute_path h p) "phpunit.xml.dist" = None →
     fs w !! path_join (absolute_path h p) "phpunit.xml" = None →
     runUnitTests h (Some a) w
     = (Throw (new_Error
                 "No PHPUnit configuration file found (phpunit.xml.dist or phpunit.xml)"),
        w)).
Proof.
  intros Hp Hcfg. unfold runUnitTests. rewrite destructure_given, Hcfg, Hp.
  unfold bind, receiver, try_catch, ret, throw.
  split; [|split].
  - intros Hd. rewrite !existsSync_true by done.
    spawn_once; eexists; reflexivity.
  - intros Hd Hx. rewrite !existsSync_false by done.
    rewrite !existsSync_true by done.
    spawn_once; eexists; reflexivity.
  - intros Hd Hx. rewrite !existsSync_false by done. reflexivity.
Qed.

Lemma unit_tests_config_detection_witness :
  ∃ tail,
    runner_calls (runUnitTests ok_host (Some (with_path "/srv/shop")) (mkWorld phpunit_disk [])).2
    = [mkInv "warden" (phpunit_prefix ++ Some ("phpunit.xml.dist" : jstr) :: tail)
         "/srv/shop"].
Proof.
  exact (proj1 (unit_tests_config_detection ok_host (with_path "/srv/shop")
                  (mkWorld phpunit_disk []) "/srv/shop" eq_refl eq_refl)
           (ex_intro _ (File []) eq_refl)).
Defined.

(** X10. With a [config_file] the unit test tool probes nothing and runs
    PHPUnit with that file; a [test_path] made of white space only (or
    absent) is left out, any other is passed as it is, and the extra
    arguments follow in their order, each one element. *)
Theorem unit_tests_vector (h : Host) (a : Args) (w : World) (p cfg : jstr) :
  project_path a = Some p → config_file a = Some cfg → cfg ≠ [] →
  (all_space (default [] (test_path a)) →
   runner_calls (runUnitTests h (Some a) w).2
   = runner_calls w
     ++ [mkInv "warden"
           (phpunit_prefix ++ [Some cfg] ++ (Some <$> default [] (extra_args a)))
           (absolute_path h p)])
  ∧ (¬ all_space (default [] (test_path a)) →
     runner_calls (runUnitTests h (Some a) w).2
     = runner_calls w
       ++ [mkInv "warden"
             (phpunit_prefix ++ [Some cfg; Some (default [] (test_path a))]
              ++ (Some <$> default [] (extra_args a)))
             (absolute_path h p)]).
Proof.
  intros Hp Hcfg Hne. unfold runUnitTests. rewrite destructure_given, Hcfg, Hp.
  cbn [from_option id]. destruct cfg as [|c cfg]; [done|]. cbn [is_empty].
  unfold bind, receiver, try_catch, ret, throw.
  split.
  - intros Hs. rewrite (trim_all_space _ Hs). cbn [is_empty negb].
    rewrite andb_false_r. spawn_once; reflexivity.
  - intros Hs. pose proof (trim_not_all_space _ Hs) as Ht.
    destruct (default [] (test_path a)) as [|x tp] eqn:Etp.
    { exfalso. apply Hs. constructor. }
    destruct (trim (x :: tp)) as [|y t]; [done|]. cbn [is_empty negb andb].
    spawn_once; reflexivity.
Qed.

Lemma unit_tests_vector_witness :
  runner_calls (runUnitTests ok_host (Some unit_filter) shop_world).2
  = [mkInv "warden"
       (phpunit_prefix ++ lits ["phpunit.xml"; "--filter"; "testAdd Item"])
       "/srv/shop"].
Proof.
  apply (proj1 (unit_tests_vector ok_host unit_filter shop_world "/srv/shop" "phpunit.xml"
                  eq_refl eq_refl ltac:(discriminate))).
  repeat constructor.
Defined.

(** ** Parameters passed as they are *)

Lemma executeWardenCommand_calls (h : Host) (p : jstr) (argv : list (option jstr))
    (description : jstr) (w : World) :
  truthy (Some p) = true → is_Some (fs w !! absolute_path h p) →
  runner_calls (executeWardenCommand h (Some p) argv description w).2
  = runner_calls w ++ [mkInv "warden" argv (absolute_path h p)].
Proof.
  intros Ht Hfs. unfold executeWardenCommand. rewrite Ht.
  cbn [negb from_option id]. unfold bind, try_catch, ret.
  rewrite !existsSync_true by done. cbn [negb].
  spawn_once; reflexivity.
Qed.

(** X11. The database query, PHP script and Magento CLI tools hand their
    parameters to [warden] as they are, each as one element of the argument
    vector: the query, the script path, the command and every element of
    [args] are never split or quoted, whatever white space they contain. *)
Theorem parameters_pass_verbatim (h : Host) (a : Args) (w : World) (p : jstr) :
  project_path a = Some p → truthy (Some p) = true →
  is_Some (fs w !! absolute_path h p) →
  runner_calls (runDbQuery h (Some a) w).2
  = runner_calls w
    ++ [mkInv "warden"
          (lits ["env"; "exec"; "-T"; "db"; "mysql"; "-u"; "root"; "-pmagento"]
           ++ [Some (default ("magento" : jstr) (database a)); Some ("-e" : jstr); query a])
          (absolute_path h p)]
  ∧ runner_calls (runPhpScript h (Some a) w).2
    = runner_calls w
      ++ [mkInv "warden"
            (lits ["env"; "exec"; "-T"; "php-fpm"; "php"] ++ [script_path a]
             ++ (Some <$> default [] (args a)))
            (absolute_path h p)]
  ∧ runner_calls (runMagentoCli h (Some a) w).2
    = runner_calls w
      ++ [mkInv "warden"
            (lits ["env"; "exec"; "-T"; "php-fpm"; "php"; "bin/magento"] ++ [command a]
             ++ (Some <$> default [] (args a)))
            (absolute_path h p)].
Proof.
  intros Hp Ht Hfs. unfold runDbQuery, runPhpScript, runMagentoCli.
  rewrite !destructure_given, Hp.
  repeat split; by apply executeWardenCommand_calls.
Qed.

Lemma parameters_pass_verbatim_witness :
  runner_calls (runMagentoCli ok_host (Some magento_args) shop_world).2
  = [mkInv "warden"
       (lits ["env"; "exec"; "-T"; "php-fpm"; "php"; "bin/magento"; "config:set";
              "web/secure/base_url"; "https://my shop.test/"])
       "/srv/shop"].
Proof.
  exact (proj2 (proj2 (parameters_pass_verbatim ok_host magento_args shop_world "/srv/shop"
                         eq_refl eq_refl (ex_intro _ Dir eq_refl)))).
Defined.

(** ** The composer probe, when it fails *)

(** X12. When [which composer2] and [which composer] both fail, the
    composer tool answers [Composer not found] after these two probes;
    when [composer] is there but [composer --version] fails, it answers
    that the version check failed, after three.  Both envelopes are errors
    and the requested command is not run. *)
Theorem composer_probe_failures (h : Host) (a : Args) (p cmd : jstr)
    (w w1 w2 : World) (r1 r2 : CommandResult) :
  project_path a = Some p → truthy (Some p) = true →
  command a = Some cmd → truthy (Some cmd) = true →
  is_Some (fs w !! absolute_path h p) →
  executeCommand h "warden" probe_composer2 (absolute_path h p) w = (Ok r1, w1) →
  is_zero (code r1) = false →
  executeCommand h "warden" probe_composer (absolute_path h p) w1 = (Ok r2, w2) →
  (is_zero (code r2) = false →
   runComposer h (Some a) w
   = (Ok (mkEnvelope
            [Text ("Composer not found!" ++ NL ++ NL ++
                   "Neither 'composer2' nor 'composer' commands are available in the php-fpm container."
                   ++ NL ++ NL ++ "Please install Composer version 2 in your container.")]
            true),
      w2)
   ∧ runner_calls w2
     = runner_calls w ++ [mkInv "warden" probe_composer2 (absolute_path h p);
                          mkInv "warden" probe_composer (absolute_path h p)])
  ∧ (∀ r3 w3,
       is_zero (code r2) = true →
       executeCommand h "warden" probe_version (absolute_path h p) w2 = (Ok r3, w3) →
       is_zero (code r3) = false →
       runComposer h (Some a) w
       = (Ok (mkEnvelope
                [Text ("Failed to check Composer version!" ++ NL ++ NL ++
                       "Command: composer --version" ++ NL ++
                       "Error: " ++ stderr r3)]
                true),
          w3)
       ∧ runner_calls w3
         = runner_calls w ++ [mkInv "warden" probe_composer2 (absolute_path h p);
                              mkInv "warden" probe_composer (absolute_path h p);
                              mkInv "warden" probe_version (absolute_path h p)]).
Proof.
  intros Hp Ht Hc Htc Hfs E1 Z1 E2.
  assert (∀ k, runComposer h (Some a) w
               = match k with
                 | tt => try_catch
                     (let* composer2CheckResult :=
                        executeCommand h "warden" probe_composer2 (absolute_path h p) in
                      if negb (is_zero (code composer2CheckResult)) then
                        let* composerCheckResult :=
                          executeCommand h "warden" probe_composer (absolute_path h p) in
                        if negb (is_zero (code composerCheckResult)) then ret composer_not_found
                        else
                          let* versionCheckResult :=
                            executeCommand h "warden" probe_version (absolute_path h p) in
                          if negb (is_zero (code versionCheckResult))
                          then ret (composer_version_check_failed versionCheckResult)
                          else
                            if negb (includes "composer version 2"
                                       (toLowerCase (stdout versionCheckResult)))
                            then ret (composer_version_unsupported versionCheckResult)
                            else composer_exec h "composer" cmd (absolute_path h p)
                      else composer_exec h "composer2" cmd (absolute_path h p))
                     (fun error => ret (mkEnvelope
                        [Text ("Failed to execute Composer command:" ++ NL ++ NL ++
                               "Command: " ++ ("composer " ++ cmd) ++ NL ++
                               "Working directory: " ++ absolute_path h p ++ NL ++
                               "Error: " ++ message error ++ NL ++ NL ++
                               "Output:" ++ NL ++ attached_or (e_stdout error) "(no output)"
                               ++ NL ++ NL ++
                               "Errors:" ++ NL ++ attached_or (e_stderr error) "(no errors)")]
                        true)) w
                 end) as Hrun.
  { intros []. unfold runComposer. rewrite destructure_given, Hp, Hc, Ht, Htc.
    cbn [negb from_option id]. unfold bind at 1.
    rewrite existsSync_true by done. reflexivity. }
  rewrite (Hrun tt). unfold try_catch, bind. rewrite E1, Z1. cbn [negb]. rewrite E2.
  split.
  - intros Z2. rewrite Z2. cbn [negb]. split; [done|].
    apply executeCommand_calls_eq in E2 as [-> _].
    apply executeCommand_calls_eq in E1 as [-> _].
    by rewrite <- app_assoc.
  - intros r3 w3 Z2 E3 Z3. rewrite Z2. cbn [negb]. rewrite E3, Z3. cbn [negb].
    split; [done|].
    apply executeCommand_calls_eq in E3 as [-> _].
    apply executeCommand_calls_eq in E2 as [-> _].
    apply executeCommand_calls_eq in E1 as [-> _].
    by rewrite <- !app_assoc.
Qed.

Lemma composer_probe_failures_witness :
  (runComposer no_composer_host (Some composer_install) shop_world).1
  = Ok (mkEnvelope
          [Text ("Composer not found!" ++ NL ++ NL ++
                 "Neither 'composer2' nor 'composer' commands are available in the php-fpm container."
                 ++ NL ++ NL ++ "Please install Composer version 2 in your container.")]
          true).
Proof.
  destruct (composer_probe_failures no_composer_host composer_install "/srv/shop"
              "install  --no-dev" shop_world
              (executeCommand no_composer_host "warden" probe_composer2 "/srv/shop"
                 shop_world).2
              (executeCommand no_composer_host "warden" probe_composer "/srv/shop"
                 (executeCommand no_composer_host "warden" probe_composer2 "/srv/shop"
                    shop_world).2).2
              (mkResult "done" [] (Some 1%Z)) (mkResult "done" [] (Some 1%Z))
              eq_refl eq_refl eq_refl eq_refl (ex_intro _ Dir eq_refl)
              eq_refl eq_refl eq_refl) as [H _].
  destruct (H eq_refl) as [-> _]. reflexivity.
Defined.

(** X13. A command of white space only passes the validation of the
    composer tool (it is a non-empty string), and composer is then run
    with one argument, the empty string. *)
Theorem composer_blank_command (h : Host) (exe cmd dir : jstr) (w : World) :
  all_space cmd → cmd ≠ [] →
  truthy (Some cmd) = true
  ∧ command_parts cmd = [[]]
  ∧ runner_calls (composer_exec h exe cmd dir w).2
    = runner_calls w
      ++ [mkInv "warden" (lits ["env"; "exec"; "-T"; "php-fpm"] ++ [Some exe; Some []]) dir].
Proof.
  intros Hs Hne.
  assert (command_parts cmd = [[]]) as Hparts.
  { unfold command_parts. by rewrite trim_all_space. }
  split; [by destruct cmd|]. split; [done|].
  rewrite composer_exec_calls. unfold composer_command. by rewrite Hparts.
Qed.

Lemma composer_blank_command_witness :
  runner_calls (runComposer composer2_host (Some blank_command) shop_world).2
  = [mkInv "warden" probe_composer2 "/srv/shop";
     mkInv "warden" (lits ["env"; "exec"; "-T"; "php-fpm"; "composer2"; ""]) "/srv/shop"].
Proof.
  pose proof (proj2 (proj2 (composer_blank_command composer2_host "composer2" "   "
                              "/srv/shop"
                              (executeCommand composer2_host "warden" probe_composer2
                                 "/srv/shop" shop_world).2
                              ltac:(repeat constructor) ltac:(discriminate)))) as H.
  vm_compute in H. vm_compute. exact H.
Defined.

(** ** What a call that throws has done *)

(** X14. A tool call that throws has done nothing: the world (the file
    system and the record of processes) is as before.  The error is one of
    the validation errors when the call has an arguments object, and a
    [TypeError] when it has none; it carries no process output. *)
Theorem throw_leaves_world (h : Host) (t : Tool) (arguments : option Args) (w : World)
    (e : JsError) :
  (run_tool h t arguments w).1 = Throw e →
  (run_tool h t arguments w).2 = w
  ∧ e_stdout e = None ∧ e_stderr e = None
  ∧ message e ∈ thrown_messages h arguments.
Proof.
  unfold thrown_messages. destruct arguments as [a|].
  - destruct t; cbn [run_tool];
      unfold listEnvironments, startProject, stopProject, startSvc, stopSvc, runDbQuery,
        runPhpScript, runMagentoCli, runUnitTests, runComposer, composer_exec, initProject,
        destructure, property_of, executeWardenCommand, resolve_arg, execSync, readFileSync,
        writeFileSync, receiver, bind, try_catch, existsSync, ret, throw;
      destruct (project_path a) as [p|]; cbn [from_option id];
      repeat run_step;
      intros Hthrow; try discriminate; injection Hthrow as <-; cbn [fst snd];
      (split; [reflexivity|]); (split; [reflexivity|]); (split; [reflexivity|]);
      cbn [message new_Error];
      repeat (first [ apply list_elem_of_here | apply list_elem_of_further ]).
  - destruct t; cbn [run_tool];
      unfold listEnvironments, startProject, stopProject, startSvc, stopSvc, runDbQuery,
        runPhpScript, runMagentoCli, runUnitTests, runComposer, initProject,
        destructure, property_of, bind, try_catch, ret, throw;
      repeat run_step;
      intros Hthrow; try discriminate; injection Hthrow as <-; cbn [fst snd];
      (split; [reflexivity|]); (split; [reflexivity|]); (split; [reflexivity|]);
      cbn [message new_Error];
      repeat (first [ apply list_elem_of_here | apply list_elem_of_further ]).
Qed.

Lemma throw_leaves_world_witness :
  (run_tool ok_host warden_composer (Some (with_path "/srv/shop")) shop_world).2 = shop_world
  ∧ (run_tool ok_host warden_init_project None shop_world).2 = shop_world.
Proof.
  split.
  - exact (proj1 (throw_leaves_world ok_host warden_composer (Some (with_path "/srv/shop"))
                    shop_world (new_Error "command is required") eq_refl)).
  - exact (proj1 (throw_leaves_world ok_host warden_init_project None shop_world
                    (new_Error "Cannot read properties of undefined (reading 'project_path')")
                    eq_refl)).
Defined.

(** ** The project initializer: failures and the file system *)

(** X15. [initProject] never throws: every failure comes back as an
    envelope with [isError = true].  When [mkdir -p] fails, [warden env
    init] is not run; and an envelope without error means that the shell
    command and the init command were each run once. *)
Theorem initProject_never_throws (h : Host) (a : Args) (w : World) :
  (∀ e, (initProject h (Some a) w).1 ≠ Throw e)
  ∧ (∀ p err,
       project_path a = Some p →
       shell h (mkdir_command (resolve (cwd h) p)) (fs w) = inl err →
       ∃ env,
         initProject h (Some a) w
         = (Ok env, mkWorld (fs w) (trace w ++ [Shell (mkdir_command (resolve (cwd h) p))]))
         ∧ isError env = true)
  ∧ (∀ env, (initProject h (Some a) w).1 = Ok env → isError env = false →
            calls_between w (initProject h (Some a) w).2 = 1%Z
            ∧ shells_between w (initProject h (Some a) w).2 = 1%Z).
Proof.
  split; [|split].
  - intros e.
    unfold initProject, destructure, property_of, resolve_arg, execSync, readFileSync,
      writeFileSync, bind, try_catch, existsSync, ret, throw.
    destruct (project_path a); repeat run_step; discriminate.
  - intros p err Hp Hsh. unfold initProject, try_catch. rewrite destructure_given.
    unfold resolve_arg. rewrite Hp.
    unfold property_of, bind, ret, execSync. fold (mkdir_command (resolve (cwd h) p)). rewrite Hsh.
    eexists. split; reflexivity.
  - intros env.
    unfold initProject, destructure, property_of, resolve_arg, execSync, readFileSync,
      writeFileSync, bind, try_catch, existsSync, ret, throw.
    destruct (project_path a); repeat run_step;
      intros Hok Herr; try discriminate; injection Hok as <-; try discriminate;
      unfold calls_between, shells_between, runner_calls, shell_calls in *; simpl in *;
      repeat match goal with
             | H : omap _ _ = _ |- _ =>
                 rewrite ?omap_app in H; simpl in H; rewrite ?app_nil_r in H;
                 rewrite H; clear H
             end;
      rewrite ?omap_app; simpl; rewrite ?length_app; simpl; lia.
Qed.

Lemma initProject_never_throws_witness :
  ∃ env,
    initProject readonly_host (Some init_new) shop_world
    = (Ok env, mkWorld shop_disk [Shell (mkdir_command "/srv/new")])
    ∧ isError env = true.
Proof.
  exact (proj1 (proj2 (initProject_never_throws readonly_host init_new shop_world))
           "/srv/new" _ eq_refl eq_refl).
Defined.

(** X16. Of the file system, [initProject] itself changes the project's
    [.env] and nothing else: every other path is as the shell command and
    the init command left it; and when the init command was not run to an
    exit code 0, or left no [.env] file, nothing is written at all. *)
Theorem initProject_writes_only_env (h : Host) (a : Args) (w : World) (p : jstr)
    (fs1 fs2 : FS) (evs : list ProcEvent) :
  project_path a = Some p →
  shell h (mkdir_command (resolve (cwd h) p)) (fs w) = inr fs1 →
  child h (trace w ++ [Shell (mkdir_command (resolve (cwd h) p))])
    (mkInv "warden" (init_command a) (resolve (cwd h) p)) fs1 = (evs, fs2) →
  (∀ q, q ≠ env_path h p →
        fs (initProject h (Some a) w).2 !! q
        = left_by_spawn h (mkInv "warden" (init_command a) (resolve (cwd h) p)) fs1 fs2 !! q)
  ∧ (¬ (spawn_throws h (mkInv "warden" (init_command a) (resolve (cwd h) p)) fs1 = None
        ∧ init_succeeded evs) →
     fs (initProject h (Some a) w).2
     = left_by_spawn h (mkInv "warden" (init_command a) (resolve (cwd h) p)) fs1 fs2)
  ∧ ((∀ c, left_by_spawn h (mkInv "warden" (init_command a) (resolve (cwd h) p)) fs1 fs2
           !! env_path h p ≠ Some (File c)) →
     fs (initProject h (Some a) w).2
     = left_by_spawn h (mkInv "warden" (init_command a) (resolve (cwd h) p)) fs1 fs2).
Proof.
  intros Hp Hsh Hch. unfold initProject, try_catch. rewrite destructure_given.
  unfold resolve_arg. rewrite Hp.
  unfold property_of, bind, ret, throw, execSync.
  fold (mkdir_command (resolve (cwd h) p)). rewrite Hsh.
  cbn [trace fs]. fold (init_command a). unfold executeCommand, left_by_spawn. cbn [trace fs].
  destruct (spawn_throws h (mkInv "warden" (init_command a) (resolve (cwd h) p)) fs1)
    as [x|]; [done|].
  rewrite Hch. unfold init_succeeded.
  destruct (run_events evs) as [|r|e]; cbn [fs snd]; [done| |done].
  destruct (is_zero (code r)) eqn:Hz; cbn [negb fs snd].
  - fold (env_path h p). unfold existsSync, readFileSync, writeFileSync. cbn [fs].
    destruct (fs2 !! env_path h p) as [[c|]|] eqn:Hf.
    + rewrite bool_decide_eq_true_2 by eauto. cbn [fs]. rewrite Hf. cbn [fs].
      rewrite Hf. cbn [fs snd].
      split; [|split].
      * intros q Hq. by rewrite lookup_insert_ne.
      * intros Hn. exfalso. apply Hn. eauto.
      * intros Hn. by destruct (Hn c).
    + rewrite bool_decide_eq_true_2 by eauto. cbn [fs]. rewrite Hf. done.
    + rewrite bool_decide_eq_false_2 by (by intros [? ?]). done.
  - done.
Qed.

Lemma initProject_writes_only_env_witness :
  fs (initProject (init_host generated_env) (Some init_shop) shop_world).2
    !! ("/srv/shop" : jstr)
  = Some Dir.
Proof.
  rewrite (proj1 (initProject_writes_only_env (init_host generated_env) init_shop shop_world
                    "/srv/shop" shop_disk
                    (<[("/srv/shop/.env" : jstr) := File generated_env]> shop_disk)
                    [StdoutData "Initialized"; CloseEv (Some 0%Z)]
                    eq_refl eq_refl eq_refl) "/srv/shop").
  - vm_compute. reflexivity.
  - vm_compute. discriminate.
Defined.

(** ** The rewriting of the [.env] file: the first line of each key *)

Lemma first_key_line_replace (k newl : jstr) (L : list jstr) :
  is_key_line k newl = true →
  first_key_line k (default (L ++ [newl]) (replace_first_line k newl L)) = Some newl.
Proof.
  intros Hn. induction L as [|l L IH]; cbn [replace_first_line app].
  - cbn [from_option id first_key_line]. by rewrite Hn.
  - destruct (is_key_line k l) eqn:E.
    + cbn [from_option id first_key_line]. by rewrite Hn.
    + destruct (replace_first_line k newl L) as [R|];
        cbn [fmap option_fmap option_map from_option id first_key_line] in IH |- *;
        by rewrite E.
Qed.

Lemma first_key_line_set_other (k k' v : jstr) (L : list jstr) :
  is_word_str k → is_word_str k' → k' ≠ k →
  first_key_line k' (set_line k v L) = first_key_line k' L.
Proof.
  intros Hk Hk' Hne. unfold set_line.
  pose proof (other_key_line k k' Hk Hk' Hne _ (is_key_line_new k v)) as Hn.
  induction L as [|l L IH]; cbn [replace_first_line app].
  - cbn [from_option id first_key_line]. by rewrite Hn.
  - destruct (is_key_line k l) eqn:E.
    + cbn [from_option id first_key_line].
      by rewrite Hn, (other_key_line k k' Hk Hk' Hne l E).
    + destruct (replace_first_line k (k ++ "=" ++ v) L) as [R|];
        cbn [fmap option_fmap option_map from_option id first_key_line] in IH |- *;
        by rewrite IH.
Qed.

Lemma first_key_line_run_other (k : jstr) (upd : list (jstr * jstr)) (L : list jstr) :
  is_word_str k →
  Forall (fun kv => is_word_str kv.1 ∧ kv.1 ≠ k) upd →
  first_key_line k (run_updates upd L) = first_key_line k L.
Proof.
  intros Hk H. revert L. induction H as [|[k' v] upd [Hk' Hne] _ IH]; intros L; [done|].
  unfold run_updates in *. cbn [foldl fst snd] in *. rewrite IH.
  by apply first_key_line_set_other.
Qed.

Lemma run_updates_first_line (upd : list (jstr * jstr)) (k v : jstr) (L : list jstr) :
  NoDup upd.*1 → Forall (fun kv => is_word_str kv.1) upd → (k, v) ∈ upd →
  first_key_line k (run_updates upd L) = Some (k ++ "=" ++ v).
Proof.
  intros Hnd Hw Hin. apply list_elem_of_split in Hin as (before & after & ->).
  rewrite fmap_app, fmap_cons in Hnd. cbn [fst] in Hnd.
  apply NoDup_app in Hnd as (_ & Hb & Ha). apply NoDup_cons in Ha as [Ha _].
  apply Forall_app in Hw as [Hwb Hw]. apply Forall_cons in Hw as [Hk Hwa].
  cbn [fst] in Hk.
  unfold run_updates. rewrite foldl_app. cbn [foldl fst snd].
  fold (run_updates after (set_line k v (foldl (fun L kv => set_line kv.1 kv.2 L) L before))).
  rewrite first_key_line_run_other; [|done|].
  - unfold set_line. apply first_key_line_replace, is_key_line_new.
  - apply Forall_forall. intros [k' v'] Hin. cbn [fst]. split.
    + by apply (proj1 (Forall_forall _ _) Hwa (k', v')).
    + intros ->. apply Ha. apply list_elem_of_fmap. by exists (k, v').
Qed.

Lemma take_line_drop_while (s : jstr) : take_line s ++ drop_while is_dot s = s.
Proof.
  induction s as [|c s IH]; [done|]. cbn [take_line drop_while].
  destruct (is_dot c); [|done]. cbn [app]. by rewrite IH.
Qed.

(** A text whose first line of the key is already the new line is left as
    it is by the substitution. *)
Lemma subst_key_same (k newl : jstr) :
  one_line (k ++ "=") →
  ∀ s,
    (match env_lines s with
     | l0 :: rest => first_key_line k rest = Some newl
     | [] => False
     end → subst_key k newl false s = Some s)
    ∧ (first_key_line k (env_lines s) = Some newl → subst_key k newl true s = Some s).
Proof.
  intros Hk s. induction s as [|c s [IHf IHt]].
  - split; [done|]. unfold env_lines. cbn [split_on first_key_line]. unfold is_key_line.
    assert (starts_with (k ++ "=") [] = false) as -> by (by destruct k). done.
  - assert (match env_lines (c :: s) with
            | l0 :: rest => first_key_line k rest = Some newl
            | [] => False
            end → subst_key k newl false (c :: s) = Some (c :: s)) as Hfalse.
    { cbn [subst_key andb]. rewrite env_lines_cons.
      destruct (is_line_terminator c) eqn:Hc.
      - intros H. by rewrite (IHt H).
      - destruct (env_lines s) as [|l0 rest] eqn:El; [done|].
        intros H. by rewrite (IHf H). }
    split; [exact Hfalse|].
    rewrite (env_lines_unfold (c :: s)) in Hfalse |- *. cbn [first_key_line].
    unfold is_key_line. rewrite <- (starts_with_take_line _ _ Hk).
    cbn [subst_key]. cbn [andb].
    destruct (starts_with (k ++ "=") (c :: s)) eqn:Es.
    + intros [= <-]. rewrite (drop_while_drop_prefix _ _ Hk Es).
      f_equal. apply (take_line_drop_while (c :: s)).
    + intros H. cbn [subst_key andb] in Hfalse. by apply Hfalse.
Qed.

Lemma update_entry_same (s k v : jstr) :
  is_word_str k → plain_value v →
  first_key_line k (env_lines s) = Some (k ++ "=" ++ v) →
  update_entry s (k, v) = s.
Proof.
  intros Hk Hv H. destruct (key_value_plain k v Hk Hv) as (H1 & H2 & H3).
  rewrite update_entry_subst by done.
  by rewrite (proj2 (subst_key_same k (k ++ "=" ++ v) H1 s) H).
Qed.

Lemma update_env_same (upd : list (jstr * jstr)) (s : jstr) :
  Forall (fun kv => (is_word_str kv.1 ∧ plain_value kv.2)
                    ∧ first_key_line kv.1 (env_lines s) = Some (kv.1 ++ "=" ++ kv.2)) upd →
  update_env s upd = s.
Proof.
  unfold update_env. induction 1 as [|[k v] upd [[Hk Hv] H] _ IH]; [done|].
  cbn [foldl]. cbn [fst snd] in *. by rewrite update_entry_same.
Qed.

(** X17. After the rewriting of the [.env] file, with option values that
    are single-line and contain no [$], the first line of each of the
    twelve keys reads [KEY=value], whatever the file held; and the
    rewriting is idempotent: applied to its own result it changes
    nothing. *)
Theorem update_env_settles (o : InitOptions) (c : jstr) :
  options_plain o →
  (∀ k v, (k, v) ∈ updates o →
          first_key_line k (env_lines (update_env c (updates o))) = Some (k ++ "=" ++ v))
  ∧ update_env (update_env c (updates o)) (updates o) = update_env c (updates o).
Proof.
  intros Ho. pose proof (updates_plain o Ho) as Hp.
  assert (∀ k v, (k, v) ∈ updates o →
                 first_key_line k (env_lines (update_env c (updates o)))
                 = Some (k ++ "=" ++ v)) as Hfirst.
  { intros k v Hin. rewrite update_env_lines by done.
    apply (run_updates_first_line (updates o) k v); [apply updates_keys_distinct| |done].
    eapply Forall_impl; [exact Hp|]. by intros kv [? _]. }
  split; [exact Hfirst|].
  apply update_env_same. apply Forall_forall. intros [k v] Hin. split.
  - by apply (proj1 (Forall_forall _ _) Hp (k, v)).
  - by apply Hfirst.
Qed.

Lemma update_env_settles_witness :
  first_key_line "PHP_VERSION" (env_lines (update_env doubled_env (updates (init_options init_shop))))
  = Some ("PHP_VERSION=8.3" : jstr)
  ∧ update_env (update_env doubled_env (updates (init_options init_shop)))
      (updates (init_options init_shop))
    = update_env doubled_env (updates (init_options init_shop)).
Proof.
  destruct (update_env_settles (init_options init_shop) doubled_env) as [H1 H2].
  - repeat constructor.
  - split; [|exact H2]. apply (H1 "PHP_VERSION" "8.3"). vm_compute. left.
Defined.

(** ** Trailing separators of a project path *)

Lemma star_eol_none {R} (p : ascii → bool) (k : jstr → jstr → option R) (s pre : jstr) :
  (∀ pre' c s', k pre' (c :: s') = None) →
  Exists (fun c => p c = false) s →
  star p k pre s = None.
Proof.
  intros Hk H. revert pre. induction s as [|c s IH]; intros pre.
  - by apply Exists_nil in H.
  - cbn [star]. destruct (p c) eqn:Hc; [|apply Hk].
    apply Exists_cons in H as [H|H]; [congruence|]. by rewrite IH.
Qed.

Lemma not_ends_with_slash (c : ascii) (b sl : jstr) :
  ends_with_slash (c :: b) = false →
  Exists (fun x => is_slash x = false) (c :: b ++ sl).
Proof.
  revert c. induction b as [|x b IH]; intros c H.
  - apply Exists_cons_hd. exact H.
  - apply Exists_cons_tl. apply IH. exact H.
Qed.

Lemma exec_from_trailing_slashes (body sl pre : jstr) :
  ends_with_slash body = false → Forall (fun c => is_slash c = true) sl →
  exec_from trailing_slashes_re pre (body ++ sl)
  = match sl with
    | [] => None
    | _ :: _ => Some (MResult (pre ++ body) sl None [])
    end.
Proof.
  intros Hb Hsl. revert pre Hb. induction body as [|c body IH]; intros pre Hb.
  - cbn [app]. destruct sl as [|x sl]; [done|].
    assert (match_here trailing_slashes_re pre (x :: sl)
            = Some (MResult pre (x :: sl) None [])) as E.
    { unfold match_here, trailing_slashes_re. cbn [items multiline].
      rewrite <- (app_nil_r (x :: sl)) at 1.
      apply run_plus; [done | done | done |].
      rewrite run_eol_end. by rewrite take_app_length, drop_app_length. }
    rewrite app_nil_r. destruct sl; cbn [exec_from]; by rewrite E.
  - assert (match_here trailing_slashes_re pre ((c :: body) ++ sl) = None) as E.
    { unfold match_here, trailing_slashes_re. cbn [items multiline app run].
      destruct (is_slash c) eqn:Hc; [|done].
      pose proof (not_ends_with_slash c body sl Hb) as Hex.
      apply Exists_cons in Hex as [Hex|Hex]; [congruence|].
      by apply star_eol_none. }
    cbn [app exec_from] in E |- *. rewrite E.
    rewrite IH.
    + destruct sl; [done|]. by rewrite <- app_assoc.
    + destruct body as [|x body]; [done|]. exact Hb.
Qed.

(** X18. The trailing separators of a project path, all of them and
    nothing else, are removed before the path is resolved: for a text
    [body] that does not end with a slash, [body] followed by slashes
    resolves as [body] does.  A path made of slashes only (the root
    directory) becomes the empty path, which resolves to the working
    directory of the server. *)
Theorem trailing_slashes_are_stripped (h : Host) (body sl : jstr) :
  ends_with_slash body = false → Forall (fun c => is_slash c = true) sl →
  replace_first trailing_slashes_re [] (body ++ sl) = body
  ∧ absolute_path h (body ++ sl) = resolve (cwd h) body.
Proof.
  intros Hb Hsl.
  assert (replace_first trailing_slashes_re [] (body ++ sl) = body) as E.
  { unfold replace_first, exec. rewrite exec_from_trailing_slashes by done.
    destruct sl; [by rewrite app_nil_r|]. cbn [m_pre m_post get_substitution app].
    by rewrite app_nil_r. }
  split; [exact E|]. unfold absolute_path. by rewrite E.
Qed.

Lemma trailing_slashes_are_stripped_witness :
  absolute_path ok_host "/srv//shop///" = ("/srv/shop" : jstr)
  ∧ absolute_path ok_host "/" = ("/home/dev" : jstr).
Proof.
  split.
  - exact (proj2 (trailing_slashes_are_stripped ok_host "/srv//shop" "///"
                    eq_refl ltac:(repeat constructor))).
  - exact (proj2 (trailing_slashes_are_stripped ok_host [] "/"
                    eq_refl ltac:(repeat constructor))).
Defined.

(** ** The dispatcher *)

Lemma jstr_eqb_eq (a b : jstr) : jstr_eqb a b = true ↔ a = b.
Proof.
  revert b. induction a as [|x a IH]; intros [|y b]; cbn [jstr_eqb]; try done.
  rewrite andb_true_iff, IH. unfold ascii_eqb. rewrite N.eqb_eq. split.
  - intros [E ->]. by rewrite (cu_inj x y E).
  - by intros [= -> ->].
Qed.

(** X19. The dispatcher goes by the exact name: a call naming one of the
    eleven tools runs the formatter of that tool, the names being pairwise
    distinct; a call with any other name throws [Unknown tool: name], and
    nothing is run. *)
Theorem unknown_tool_is_refused (h : Host) (name : jstr) (arguments : option Args)
    (w : World) :
  (∀ t t', tool_name t = tool_name t' → t = t')
  ∧ (∀ t, tool_name t = name → call_tool h name arguments = run_tool h t arguments)
  ∧ ((∀ t, tool_name t ≠ name) →
     call_tool h name arguments w = (Throw (new_Error ("Unknown tool: " ++ name)), w)).
Proof.
  split; [|split].
  - intros t t' H. destruct t, t'; first [reflexivity | vm_compute in H; discriminate].
  - intros t <-. destruct t; reflexivity.
  - intros Hn. unfold call_tool.
    destruct (list_find _ all_tools) as [[i t]|] eqn:E; [|done].
    apply list_find_Some in E as (_ & E & _). apply jstr_eqb_eq in E. by destruct (Hn t).
Qed.

Lemma unknown_tool_is_refused_witness :
  call_tool ok_host "Warden_Composer" (Some composer_install) shop_world
  = (Throw (new_Error "Unknown tool: Warden_Composer"), shop_world).
Proof.
  apply (proj2 (proj2 (unknown_tool_is_refused ok_host "Warden_Composer"
                         (Some composer_install) shop_world))).
  intros t. destruct t; vm_compute; discriminate.
Defined.

(** ** Colour sequences *)

Lemma match_here_sgr (pre params rest : jstr) :
  sgr_params params →
  match_here ansi_re pre (sgr params ++ rest)
  = Some (MResult pre (sgr params) None rest).
Proof.
  intros Hp. unfold match_here, ansi_re, sgr. cbn [items multiline].
  rewrite <- !app_assoc. rewrite (run_lit false [ESC; "["%char]).
  apply run_star; [exact Hp | done |].
  rewrite (run_lit false "m"). cbn [run].
  rewrite <- !app_assoc. by rewrite take_app_length, drop_app_length.
Qed.

Lemma exec_from_sgr (piece params rest pre : jstr) :
  no_esc piece → sgr_params params →
  exec_from ansi_re pre (piece ++ sgr params ++ rest)
  = Some (MResult (pre ++ piece) (sgr params) None rest).
Proof.
  intros Hpiece Hp. revert pre. induction Hpiece as [|c piece Hc _ IH]; intros pre.
  - cbn [app]. rewrite app_nil_r.
    pose proof (match_here_sgr pre params rest Hp) as E.
    unfold sgr in *. cbn [app] in *. cbn [exec_from]. by rewrite E.
  - cbn [app exec_from]. rewrite match_here_ansi_none by done.
    rewrite IH. by rewrite <- app_assoc.
Qed.

Lemma replace_all_go_coloured (pieces : list (jstr * jstr)) (last_piece : jstr) :
  Forall (fun pp => no_esc pp.1 ∧ sgr_params pp.2) pieces → no_esc last_piece →
  ∀ fuel pre,
    length (coloured pieces last_piece) < fuel →
    replace_all_go fuel ansi_re [] pre (coloured pieces last_piece)
    = uncoloured pieces last_piece.
Proof.
  intros Hp Hl. induction Hp as [|[piece params] pieces [H1 H2] _ IH]; intros fuel pre Hf.
  - destruct fuel as [|fuel]; [lia|]. cbn [replace_all_go coloured uncoloured].
    by rewrite exec_from_ansi_none.
  - destruct fuel as [|fuel]; [lia|]. cbn [coloured uncoloured fst snd] in *.
    cbn [replace_all_go]. rewrite exec_from_sgr by done.
    cbn [m_pre m_text m_post get_substitution app].
    rewrite drop_app_length. f_equal.
    unfold sgr at 1. cbn [app]. apply IH.
    unfold sgr in Hf. rewrite !length_app in Hf. cbn [length] in Hf. lia.
Qed.

(** X20. The colour sequences [ESC [ params m] (parameters: digits and
    semicolons) are removed wherever they stand, and the text between them
    is kept as it is: a text made of pieces without the escape character,
    each followed by a colour sequence, is stripped to the pieces. *)
Theorem strip_ansi_coloured (pieces : list (jstr * jstr)) (last_piece : jstr) :
  Forall (fun pp => no_esc pp.1 ∧ sgr_params pp.2) pieces → no_esc last_piece →
  strip_ansi (coloured pieces last_piece) = uncoloured pieces last_piece.
Proof.
  intros Hp Hl. unfold strip_ansi, replace_all.
  apply replace_all_go_coloured; [done | done | lia].
Qed.

Lemma strip_ansi_coloured_witness :
  strip_ansi ("    " ++ [ESC] ++ "[1;35mshop" ++ [ESC] ++ "[0m a magento2 project")
  = ("    shop a magento2 project" : jstr).
Proof.
  exact (strip_ansi_coloured [("    " : jstr, "1;35" : jstr); ("shop" : jstr, "0" : jstr)]
           " a magento2 project"
           ltac:(repeat constructor) ltac:(repeat constructor)).
Defined.

(** ** What an envelope without error means *)

Ltac run_keep :=
  match goal with
  | |- context [executeCommand ?h ?c ?a ?d ?w] =>
      let r := fresh "r" in
      let w1 := fresh "w" in
      let E := fresh "E" in
      destruct (executeCommand h c a d w) as [r w1] eqn:E; destruct r
  | |- context [bool_decide ?P] => destruct (bool_decide P)
  | |- context [fs ?w !! ?p] => destruct (fs w !! p) as [[?|]|]
  | |- context [shell ?h ?c ?f] => destruct (shell h c f)
  | |- context [is_zero ?c] => destruct (is_zero c) eqn:?
  | |- context [includes ?a ?b] => destruct (includes a b)
  | |- context [is_empty ?a] => destruct (is_empty a)
  | |- context [truthy ?a] => destruct (truthy a)
  end; simpl.

(** X21. An envelope with [isError = false] means that the last thing the
    call did was to run [warden], and that this process ended with exit
    code 0: no tool reports success after a failed last command.  For every
    tool but the project initializer (which then rewrites [.env]) the
    world is the one that process left. *)
Theorem no_error_means_exit_zero (h : Host) (t : Tool) (arguments : option Args)
    (w : World) (env : Envelope) :
  (run_tool h t arguments w).1 = Ok env → isError env = false →
  ∃ argv dir w0 w1 r,
    executeCommand h "warden" argv dir w0 = (Ok r, w1)
    ∧ is_zero (code r) = true
    ∧ trace (run_tool h t arguments w).2 = trace w1
    ∧ (t ≠ warden_init_project → (run_tool h t arguments w).2 = w1).
Proof.
  destruct arguments as [a|].
  - destruct t; cbn [run_tool];
      unfold listEnvironments, startProject, stopProject, startSvc, stopSvc, runDbQuery,
        runPhpScript, runMagentoCli, runUnitTests, runComposer, composer_exec, initProject,
        destructure, property_of, executeWardenCommand, resolve_arg, execSync, readFileSync,
        writeFileSync, receiver, bind, try_catch, existsSync, ret, throw;
      destruct (project_path a) as [p|]; cbn [from_option id];
      repeat run_keep;
      intros Hok Herr; try discriminate; injection Hok as <-; try discriminate;
      match goal with
      | E : executeCommand _ _ ?argv ?dir ?w0 = (Ok ?r, ?w1),
        Z : is_zero (code ?r) = true |- _ =>
          exists argv, dir, w0, w1, r;
          (split; [exact E|]); (split; [exact Z|]);
          split; [reflexivity | intros Hn; first [reflexivity | by destruct Hn]]
      end.
  - destruct t; cbn [run_tool];
      unfold listEnvironments, startProject, stopProject, startSvc, stopSvc, runDbQuery,
        runPhpScript, runMagentoCli, runUnitTests, runComposer, initProject,
        destructure, property_of, bind, try_catch, ret, throw;
      repeat run_keep;
      intros Hok Herr; try discriminate; injection Hok as <-; try discriminate;
      match goal with
      | E : executeCommand _ _ ?argv ?dir ?w0 = (Ok ?r, ?w1),
        Z : is_zero (code ?r) = true |- _ =>
          exists argv, dir, w0, w1, r;
          (split; [exact E|]); (split; [exact Z|]);
          split; [reflexivity | intros Hn; reflexivity]
      end.
Qed.

Lemma no_error_means_exit_zero_witness :
  ∃ argv dir w0 w1 r,
    executeCommand ok_host "warden" argv dir w0 = (Ok r, w1)
    ∧ is_zero (code r) = true
    ∧ trace (run_tool ok_host warden_start_project (Some (with_path "/srv/shop")) shop_world).2
      = trace w1
    ∧ (warden_start_project ≠ warden_init_project →
       (run_tool ok_host warden_start_project (Some (with_path "/srv/shop")) shop_world).2
       = w1).
Proof.
  eapply (no_error_means_exit_zero ok_host warden_start_project
            (Some (with_path "/srv/shop")) shop_world).
  - vm_compute. reflexivity.
  - reflexivity.
Defined.

(** ** White space around the lines of the status text *)

Lemma drop_while_app_keeps (s t : jstr) :
  Exists (fun c => is_space c = false) s →
  drop_while is_space (s ++ t) = drop_while is_space s ++ t.
Proof.
  induction 1 as [c s Hc | c s _ IH]; cbn [app drop_while].
  - by rewrite Hc.
  - by destruct (is_space c).
Qed.

Lemma trim_padding (lead s trail : jstr) :
  all_space lead → all_space trail → trim (lead ++ s ++ trail) = trim s.
Proof.
  intros Hl Ht. unfold trim. rewrite drop_while_all_space by done.
  destruct (decide (all_space s)) as [Hs|Hs].
  - rewrite drop_while_all_space by done.
    rewrite <- (app_nil_r trail), <- (app_nil_r s), !drop_while_all_space by done. done.
  - apply not_Forall_Exists in Hs; [|intros c; apply _].
    assert (Exists (fun c => is_space c = false) s) as Hex.
    { eapply Exists_impl; [exact Hs|]. intros c Hc. cbn in Hc. by destruct (is_space c). }
    rewrite drop_while_app_keeps by done. rewrite rev_app_distr.
    by rewrite drop_while_all_space by (by apply Forall_rev).
Qed.

(** X22. White space in front and at the end of the lines of the status
    text does not count: two texts with the same number of lines, the
    lines of the one being those of the other with white space added at
    their ends (indentation, the carriage returns of CR LF line ends),
    give records with the same names and paths in the same order. *)
Theorem parse_ignores_padding (a b : jstr) :
  Forall2 padded (split_on is_LF a) (split_on is_LF b) →
  names_paths (parseEnvironmentList a) = names_paths (parseEnvironmentList b).
Proof.
  intros H. unfold parseEnvironmentList.
  assert (Forall2 (fun x y => clean x = clean y ∧ banner x = banner y)
            (split_on is_LF a) (split_on is_LF b)) as H'.
  { eapply Forall2_impl; [exact H|]. intros x y (lead & trail & Hl & Ht & ->).
    unfold clean, banner. by rewrite !trim_padding. }
  pose proof (parse_lines_view _ _ H' (mkParse [] None) (mkParse [] None) eq_refl) as Hv.
  unfold view in Hv. by injection Hv.
Qed.

Lemma parse_ignores_padding_witness :
  names_paths (parseEnvironmentList dos_status)
  = [("shop" : jstr, "/srv/shop" : jstr)].
Proof.
  rewrite (parse_ignores_padding dos_status unix_status).
  - vm_compute. reflexivity.
  - eval_lines dos_status. eval_lines unix_status.
    constructor; [exists [], [CR]; repeat split; repeat constructor|].
    constructor; [exists ("  " : jstr), [CR]; repeat split; repeat constructor|].
    constructor; [exists [], []; repeat split; constructor|]. constructor.
Defined.

(** ** A call of [spawn] that throws *)

(** X23. When the call of [spawn] itself throws, with an error that
    carries no output (an argument with a NUL byte), a lifecycle, database,
    PHP or Magento call does not throw: it returns the envelope
    [Failed to execute command] with [isError = true], the message of the
    error as it is and the placeholders for the missing output.  No
    process was created and the file system is untouched. *)
Theorem throwing_spawn_is_reported (h : Host) (p : jstr) (argv : list (option jstr))
    (description : jstr) (w : World) (e : JsError) :
  truthy (Some p) = true → is_Some (fs w !! absolute_path h p) →
  spawn_throws h (mkInv "warden" argv (absolute_path h p)) (fs w) = Some e →
  e_stdout e = None → e_stderr e = None →
  executeWardenCommand h (Some p) argv description w
  = (Ok (mkEnvelope
           [Text ("Failed to execute command:" ++ NL ++ NL ++
                  "Command: " ++ ("warden " ++ join_args argv) ++ NL ++
                  "Working directory: " ++ absolute_path h p ++ NL ++
                  "Error: " ++ message e ++ NL ++ NL ++
                  "Output:" ++ NL ++ "(no output)" ++ NL ++ NL ++
                  "Errors:" ++ NL ++ "(no errors)")]
           true),
     mkWorld (fs w) (trace w ++ [Spawned (mkInv "warden" argv (absolute_path h p))])).
Proof.
  intros Ht Hfs Hs Ho He. unfold executeWardenCommand. rewrite Ht.
  cbn [negb from_option id]. unfold bind at 1. rewrite existsSync_true by done.
  cbn [negb]. unfold try_catch, bind, executeCommand. rewrite Hs.
  unfold ret. by rewrite Ho, He.
Qed.

Lemma throwing_spawn_is_reported_witness :
  ∃ env,
    run_tool strict_host warden_php_script (Some nul_script) shop_world
    = (Ok env,
       mkWorld shop_disk
         [Spawned (mkInv "warden"
                     (lits ["env"; "exec"; "-T"; "php-fpm"; "php"] ++ [Some nul_argument])
                     "/srv/shop")])
    ∧ isError env = true.
Proof.
  eexists. split.
  - exact (throwing_spawn_is_reported strict_host "/srv/shop"
             (lits ["env"; "exec"; "-T"; "php-fpm"; "php"] ++ [Some nul_argument])
             ("Running PHP script: " ++ nul_argument) shop_world (nul_error 5 nul_argument)
             eq_refl (ex_intro _ Dir eq_refl) eq_refl eq_refl eq_refl).
  - reflexivity.
Defined.
